(** * The AXIS rules engine of the Single Page Computer

    A shallow embedding of [AxisRulesEngine] (AXIS Rules Engine v1.0.0:
    priority ordering, fixpoint iteration, conflict log, template
    expressions, validation and fingerprint) and of the rule pass of
    [SPCEngine] from the axis-cli engine ([applyRules], [resolveTemplate],
    [evaluateThreshold]), followed by the properties of the two that the
    specification states and by further properties of the code.  The
    minimal kernel of the engine is the same code without the log lines
    and without the [timestamp()] builtin.

    Modelling conventions.
    - A JavaScript string is a [string] whose characters are its code
      units, all below 256: the white space among them is the ASCII white
      space and the no-break space U+00A0, the line terminators are LF and
      CR.
    - A JavaScript number is an integer of [Z]; the engine itself does no
      arithmetic, only the expressions it hands to the host do.  The cap
      [max_iterations] is such a number too: it may be negative.
    - A JavaScript object is an association list in insertion order, the
      order [JSON.stringify], [Object.entries] and [for .. in] follow for
      keys that are no array indices (a key that is one is enumerated
      before the others, which the list does not show); an array is the
      list of its elements.  The state of a run is an object.  Names found
      on the prototype chain, the key [__proto__] among them, and
      properties of an array that are not indices, its [length] among
      them, are outside the model: a statement that depends on them
      excludes them by a hypothesis.
    - A value an expression returns is a value of its own: it shares no
      part with the state it was computed from.  A value written into the
      state is written by value as well: a [then] value that is an object
      or an array is not shared between the configuration and the state,
      so that a later write below it leaves the configuration as it is.
    - [new Function (...) (...)], the clock and [Math.random] belong to the
      host; they are the fields of a [Host] record.  The host's evaluation
      of an expression is a function of the parameter names, the body and
      the arguments: it reads neither the clock nor the random source,
      changes none of the objects it is given, and returns a value or
      throws an error that has a message.  The expressions of a rule set
      for which this is not so are outside the model.  The engine's own
      clock and random builtins read the host through counters kept in
      the machine state.
    - The mutable fields of the engine instance and the exceptions raised
      by the host are threaded through a state-and-exception monad. *)

From Stdlib Require Import String Ascii List ZArith Lia Bool Sorted Permutation.
From stdpp Require Import base strings gmap pretty.
Import ListNotations.
Open Scope string_scope.

(** ** String.prototype, as far as the engine uses it *)

Module JsString.

Definition is_space (c : ascii) : bool :=
  let n := nat_of_ascii c in
  Nat.eqb n 32 || (Nat.leb 9 n && Nat.leb n 13) || Nat.eqb n 160.

Definition is_line_terminator (c : ascii) : bool :=
  let n := nat_of_ascii c in
  Nat.eqb n 10 || Nat.eqb n 13.

Fixpoint drop (n : nat) (s : string) : string :=
  match n, s with
  | S n', String _ s' => drop n' s'
  | _, _ => s
  end.

Fixpoint rev_onto (s acc : string) : string :=
  match s with
  | EmptyString => acc
  | String c s' => rev_onto s' (String c acc)
  end.

Definition rev (s : string) : string := rev_onto s EmptyString.

Fixpoint trimStart (s : string) : string :=
  match s with
  | EmptyString => EmptyString
  | String c s' => if is_space c then trimStart s' else s
  end.

Definition trimEnd (s : string) : string := rev (trimStart (rev s)).

(** [s.trim()] *)
Definition trim (s : string) : string := trimEnd (trimStart s).

(** [s.startsWith(p)] *)
Definition startsWith (p s : string) : bool := String.prefix p s.

(** [s.includes(p)] *)
Fixpoint includes (p s : string) : bool :=
  String.prefix p s ||
  match s with
  | EmptyString => false
  | String _ s' => includes p s'
  end.

(** [s.split('.')]: never the empty list. *)
Fixpoint split_dot (s : string) : list string :=
  match s with
  | EmptyString => [EmptyString]
  | String c s' =>
      if Ascii.eqb c "."%char then EmptyString :: split_dot s'
      else match split_dot s' with
           | k :: ks => String c k :: ks
           | [] => [String c EmptyString]
           end
  end.

(** [s.replace(/\./g, '_')] *)
Fixpoint dots_to_underscores (s : string) : string :=
  match s with
  | EmptyString => EmptyString
  | String c s' =>
      String (if Ascii.eqb c "."%char then "_"%char else c)
             (dots_to_underscores s')
  end.

(** [s.replace(p, r)] for a string pattern: the first occurrence only. *)
Fixpoint replace_first (p r s : string) : string :=
  if String.prefix p s then r +:+ drop (String.length p) s
  else match s with
       | EmptyString => EmptyString
       | String c s' => String c (replace_first p r s')
       end.

(** The lazy group of [/\{\{(.*?)\}\}/] once the opening braces are
    read: the shortest text without line terminator that is followed by
    two closing braces, and what comes after them. *)
Fixpoint find_close (s : string) : option (string * string) :=
  if String.prefix "}}" s then Some (EmptyString, drop 2 s)
  else match s with
       | EmptyString => None
       | String c s' =>
           if is_line_terminator c then None
           else match find_close s' with
                | Some (body, rest) => Some (String c body, rest)
                | None => None
                end
       end.

Fixpoint strip_braces (fuel : nat) (s : string) : string :=
  match fuel with
  | O => s
  | S fuel' =>
      match s with
      | EmptyString => EmptyString
      | String c s' =>
          if String.prefix "{{" s then
            match find_close (drop 2 s) with
            | Some (body, rest) => body +:+ strip_braces fuel' rest
            | None => String c (strip_braces fuel' s')
            end
          else String c (strip_braces fuel' s')
      end
  end.

(** [s.replace(/\{\{(.*?)\}\}/g, '$1')]: every match, left to right, is
    replaced by its group.  Each step consumes a character, so the
    length of the string is enough fuel. *)
Definition replace_templates (s : string) : string :=
  strip_braces (String.length s) s.

(** [s.match(/^\{\{\s*(.*?)\s*\}\}$/)]: the group of the match, if the
    whole string matches.  The string starts and ends with a pair of
    braces that do not overlap; the group is what lies between them
    without the white space around it, and holds no line terminator. *)
Fixpoint no_line_terminator (s : string) : bool :=
  match s with
  | EmptyString => true
  | String c s' => negb (is_line_terminator c) && no_line_terminator s'
  end.

Definition match_whole_template (s : string) : option string :=
  if String.prefix "{{" s then
    let r := rev (drop 2 s) in
    if String.prefix "}}" r then
      let group := trim (rev (drop 2 r)) in
      if no_line_terminator group then Some group else None
    else None
  else None.

End JsString.


(** ** JSON values and objects *)

#[local] Set Warnings "-register-all".

Inductive value : Type :=
| VUndef
| VNull
| VBool (b : bool)
| VNum (n : Z)
| VStr (s : string)
| VArr (xs : list value)
| VObj (kvs : list (string * value))
| VHost (name : string).

(** An object: its own enumerable properties in insertion order. *)
Definition obj : Type := list (string * value).

Fixpoint obj_get (k : string) (o : obj) : option value :=
  match o with
  | [] => None
  | (k', v) :: o' => if String.eqb k k' then Some v else obj_get k o'
  end.

(** [o[k] = v]: an existing property keeps its place, a new one goes
    last, as it does in an object for every key that is no array index. *)
Fixpoint obj_set (k : string) (v : value) (o : obj) : obj :=
  match o with
  | [] => [(k, v)]
  | (k', v') :: o' =>
      if String.eqb k k' then (k, v) :: o' else (k', v') :: obj_set k v o'
  end.

(** [Object.assign(target, source)], also the spread [{...target, ...source}]. *)
Definition obj_assign (target source : obj) : obj :=
  fold_left (fun acc kv => obj_set (fst kv) (snd kv) acc) source target.

Definition obj_keys (o : obj) : list string := map fst o.
Definition obj_values (o : obj) : list value := map snd o.

(** The names the engine puts in every evaluation context.  [Math] and
    [JSON] are objects without enumerable properties, the others are
    functions. *)
Definition utility_names : list string :=
  ["Math"; "Date"; "parseInt"; "parseFloat"; "String"; "Number"; "Boolean";
   "Array"; "JSON"].

Definition host_is_object (name : string) : bool :=
  String.eqb name "Math" || String.eqb name "JSON".

(** [Boolean(v)] *)
Definition truthy (v : value) : bool :=
  match v with
  | VUndef | VNull => false
  | VBool b => b
  | VNum n => negb (Z.eqb n 0)
  | VStr s => negb (String.eqb s "")
  | VArr _ | VObj _ | VHost _ => true
  end.

(** [typeof v === 'object'] *)
Definition typeof_object (v : value) : bool :=
  match v with
  | VNull | VArr _ | VObj _ => true
  | VHost name => host_is_object name
  | _ => false
  end.

(** What [JSON.stringify] writes for a value inside an object or array:
    nothing for [undefined] and functions, an empty object for [Math] and
    [JSON].  Inside an array nothing becomes [null]; inside an object the
    property is left out. *)
Fixpoint json_value (v : value) : option value :=
  match v with
  | VUndef => None
  | VHost name => if host_is_object name then Some (VObj []) else None
  | VArr xs =>
      Some (VArr ((fix elems (l : list value) : list value :=
                     match l with
                     | [] => []
                     | x :: l' =>
                         match json_value x with
                         | Some j => j
                         | None => VNull
                         end :: elems l'
                     end) xs))
  | VObj kvs =>
      Some (VObj ((fix props (l : list (string * value)) : obj :=
                     match l with
                     | [] => []
                     | (k, x) :: l' =>
                         match json_value x with
                         | Some j => (k, j) :: props l'
                         | None => props l'
                         end
                     end) kvs))
  | _ => Some v
  end.

Fixpoint json_props (o : obj) : obj :=
  match o with
  | [] => []
  | (k, x) :: o' =>
      match json_value x with
      | Some j => (k, j) :: json_props o'
      | None => json_props o'
      end
  end.

(** The text [JSON.stringify] prints for an object, represented by the
    document it denotes: two texts are the same string exactly when they
    are the same document, keys in the same order. *)
Definition JSON_stringify (o : obj) : obj := json_props o.

(** [JSON.parse] of such a text. *)
Definition JSON_parse (text : obj) : obj := text.

Fixpoint value_eqb (a b : value) {struct a} : bool :=
  match a, b with
  | VUndef, VUndef | VNull, VNull => true
  | VBool x, VBool y => Bool.eqb x y
  | VNum x, VNum y => Z.eqb x y
  | VStr x, VStr y => String.eqb x y
  | VHost x, VHost y => String.eqb x y
  | VArr xs, VArr ys =>
      (fix all2 (l : list value) (r : list value) {struct l} : bool :=
         match l, r with
         | [], [] => true
         | x :: l', y :: r' => value_eqb x y && all2 l' r'
         | _, _ => false
         end) xs ys
  | VObj xs, VObj ys =>
      (fix all2 (l : list (string * value)) (r : obj) {struct l} : bool :=
         match l, r with
         | [], [] => true
         | (k, x) :: l', (k', y) :: r' =>
             String.eqb k k' && value_eqb x y && all2 l' r'
         | _, _ => false
         end) xs ys
  | _, _ => false
  end.

(** [a === b] on two serialised states. *)
Definition text_eqb (a b : obj) : bool := value_eqb (VObj a) (VObj b).

(** A canonical array index: decimal digits without a leading zero. *)
Definition digit_of (c : ascii) : option nat :=
  let n := nat_of_ascii c in
  if Nat.leb 48 n && Nat.leb n 57 then Some (n - 48) else None.

Fixpoint digits_value (s : string) (acc : nat) : option nat :=
  match s with
  | EmptyString => Some acc
  | String c s' =>
      match digit_of c with
      | Some d => digits_value s' (10 * acc + d)
      | None => None
      end
  end.

Definition array_index (k : string) : option nat :=
  match k with
  | EmptyString => None
  | String c EmptyString => digit_of c
  | String c _ => if Ascii.eqb c "0"%char then None else digits_value k 0
  end.

(** [xs[i] = v]: in range the element is replaced; past the end the array
    grows, the new slots in between reading as [undefined]. *)
Fixpoint array_set (i : nat) (v : value) (xs : list value) : list value :=
  match i, xs with
  | O, [] => [v]
  | O, _ :: xs' => v :: xs'
  | S i', [] => VUndef :: array_set i' v []
  | S i', x :: xs' => x :: array_set i' v xs'
  end.

(** [node[k]] *)
Definition get_prop (node : value) (k : string) : value :=
  match node with
  | VObj kvs => match obj_get k kvs with Some v => v | None => VUndef end
  | VArr xs =>
      match array_index k with
      | Some i => nth i xs VUndef
      | None => VUndef
      end
  | _ => VUndef
  end.

(** [node[k] = v], for a key other than [__proto__]; an array keeps what
    is assigned to an index and nothing else. *)
Definition set_prop (node : value) (k : string) (v : value) : value :=
  match node with
  | VObj kvs => VObj (obj_set k v kvs)
  | VArr xs =>
      match array_index k with
      | Some i => VArr (array_set i v xs)
      | None => node
      end
  | _ => node
  end.

(** ** The host: dynamic evaluation, the clock and the random source *)

Inductive completion : Type :=
| Normal (v : value)
| Abrupt (reason : string).

Record Host : Type := {
  (** [new Function(...params, body)(...args)]: the value returned, or the
      message of the error thrown while compiling or running it.  The
      evaluation is a function of the three: it has no effect on the
      arguments, on the clock or on the random source. *)
  call_new_Function : list string -> string -> list value -> completion;
  (** the milliseconds the clock shows the k-th time it is read *)
  clock : nat -> Z;
  (** [Date.prototype.toISOString] of such a reading *)
  toISOString : Z -> string;
  (** [Math.random() * 16 | 0] at the k-th draw *)
  random_nibble : nat -> Z
}.

(** ** The engine instance and the monad of its methods *)

Inductive Level : Type := LInfo | LWarning | LError.

Record AuditEntry : Type := {
  timestamp : string;
  level : Level;
  message : string
}.

Record ConflictEntry : Type := {
  field : string;
  previousRule : string;
  currentRule : string;
  resolution : string;
  iteration : nat
}.

(** The fields of the instance ([auditTrail], [conflictLog],
    [currentIteration]) and how often the host's clock and random source
    have been consulted so far. *)
Record Machine : Type := {
  auditTrail : list AuditEntry;
  conflictLog : list ConflictEntry;
  currentIteration : nat;
  clock_reads : nat;
  random_draws : nat
}.

Inductive outcome (A : Type) : Type :=
| Ret (a : A)
| Throw (e : string).
Arguments Ret {A} a.
Arguments Throw {A} e.

Definition M (A : Type) : Type := Machine -> outcome A * Machine.

Definition ret {A : Type} (a : A) : M A := fun m => (Ret a, m).

Definition bind {A B : Type} (c : M A) (k : A -> M B) : M B :=
  fun m =>
    match c m with
    | (Ret a, m') => k a m'
    | (Throw e, m') => (Throw e, m')
    end.

Definition throw {A : Type} (e : string) : M A := fun m => (Throw e, m).

(** [try { body } catch (e) { handler }] *)
Definition try_catch {A : Type} (body : M A) (handler : string -> M A) : M A :=
  fun m =>
    match body m with
    | (Ret a, m') => (Ret a, m')
    | (Throw e, m') => handler e m'
    end.

Definition gets {A : Type} (f : Machine -> A) : M A := fun m => (Ret (f m), m).

Definition modify (f : Machine -> Machine) : M unit := fun m => (Ret tt, f m).

Definition when (b : bool) (c : M unit) : M unit := if b then c else ret tt.

Declare Scope eff_scope.
Delimit Scope eff_scope with eff.
Notation "x <- c ;; k" := (bind c (fun x => k))
  (at level 100, c at next level, right associativity) : eff_scope.
Notation "c ;; k" := (bind c (fun _ => k))
  (at level 100, right associativity) : eff_scope.
Open Scope eff_scope.

(** ** Rules and results *)

(** [rule.if]: absent, a boolean literal, or the text of an expression. *)
Inductive condition : Type :=
| CAbsent
| CBool (b : bool)
| CStr (s : string).

Record Rule : Type := {
  name : string;
  priority : option Z;
  cond : condition;
  then_ : option obj
}.

Record RulesConfig : Type := {
  max_iterations : option Z;
  rules : list Rule
}.

Record Result : Type := {
  input : obj;
  output : obj;
  iterations : nat;
  audit : list AuditEntry;
  conflicts : list ConflictEntry;
  rulesApplied : list string;
  engine_version : string
}.

(** ** AxisRulesEngine *)

Module AxisRulesEngine.
Section Engine.

Context (h : Host).

Definition version : string := "1.0.0".

(** [new Date()]: one more reading of the clock. *)
Definition read_clock : M Z :=
  fun m =>
    (Ret (clock h (clock_reads m)),
     {| auditTrail := auditTrail m;
        conflictLog := conflictLog m;
        currentIteration := currentIteration m;
        clock_reads := S (clock_reads m);
        random_draws := random_draws m |}).

(** [Math.random() * 16 | 0] *)
Definition draw_nibble : M Z :=
  fun m =>
    (Ret (random_nibble h (random_draws m) mod 16)%Z,
     {| auditTrail := auditTrail m;
        conflictLog := conflictLog m;
        currentIteration := currentIteration m;
        clock_reads := clock_reads m;
        random_draws := S (random_draws m) |}).

Definition push_audit (e : AuditEntry) : M unit :=
  modify (fun m =>
    {| auditTrail := (auditTrail m ++ [e])%list;
       conflictLog := conflictLog m;
       currentIteration := currentIteration m;
       clock_reads := clock_reads m;
       random_draws := random_draws m |}).

Definition push_conflict (c : ConflictEntry) : M unit :=
  modify (fun m =>
    {| auditTrail := auditTrail m;
       conflictLog := (conflictLog m ++ [c])%list;
       currentIteration := currentIteration m;
       clock_reads := clock_reads m;
       random_draws := random_draws m |}).

Definition set_currentIteration (i : nat) : M unit :=
  modify (fun m =>
    {| auditTrail := auditTrail m;
       conflictLog := conflictLog m;
       currentIteration := i;
       clock_reads := clock_reads m;
       random_draws := random_draws m |}).

(** The first three statements of [apply]. *)
Definition reset : M unit :=
  modify (fun m =>
    {| auditTrail := [];
       conflictLog := [];
       currentIteration := 0;
       clock_reads := clock_reads m;
       random_draws := random_draws m |}).

Definition log (msg : string) (lvl : Level) : M unit :=
  now <- read_clock ;;
  push_audit {| timestamp := toISOString h now; level := lvl; message := msg |}.

Definition getRulesApplied : M (list string) :=
  trail <- gets auditTrail ;;
  ret (map (fun entry => JsString.replace_first "Applied: " "" (message entry))
           (List.filter (fun entry => JsString.startsWith "Applied:" (message entry))
                   trail)).

(** [flattenObject(obj[key], newKey)] for a nested mapping, with the loop
    over its keys inside; [flattenObject] below is the entry point.  The
    test [obj.hasOwnProperty(key)] holds of every key of the list; it is
    the method of the prototype, which no key of the object shadows
    ([flattens] below says of which states this is so). *)
Fixpoint flatten_value (prefix : string) (v : value) {struct v} : obj :=
  match v with
  | VObj kvs =>
      (fix each_key (l : list (string * value)) (flattened : obj) : obj :=
         match l with
         | [] => flattened
         | (key, x) :: l' =>
             let newKey :=
               if String.eqb prefix "" then key else prefix +:+ "." +:+ key in
             each_key l'
               (match x with
                | VObj _ => obj_assign flattened (flatten_value newKey x)
                | VHost u =>
                    if host_is_object u then flattened
                    else obj_set (JsString.dots_to_underscores newKey) x flattened
                | _ => obj_set (JsString.dots_to_underscores newKey) x flattened
                end)
         end) kvs []
  | _ => []
  end.

Definition flattenObject (o : obj) (prefix : string) : obj :=
  flatten_value prefix (VObj o).

Definition utilities : obj := map (fun u => (u, VHost u)) utility_names.

Definition createSafeContext (context : obj) : obj :=
  let flattened := flattenObject context "" in
  obj_assign (obj_assign (obj_assign [] flattened) context) utilities.

(** [new Function(...Object.keys(ctx), body)(...Object.values(ctx))] *)
Definition call_function (ctx : obj) (body : string) : M value :=
  match call_new_Function h (obj_keys ctx) body (obj_values ctx) with
  | Normal v => ret v
  | Abrupt e => throw e
  end.

(** [!condition] *)
Definition falsy (c : condition) : bool :=
  match c with
  | CAbsent => true
  | CBool b => negb b
  | CStr s => String.eqb s ""
  end.

(** [`${condition}`] *)
Definition condition_text (c : condition) : string :=
  match c with
  | CAbsent => "undefined"
  | CBool true => "true"
  | CBool false => "false"
  | CStr s => s
  end.

Definition evaluateCondition (c : condition) (context : obj) : M bool :=
  if falsy c then ret true
  else
    try_catch
      (let safeContext := createSafeContext context in
       result <- call_function safeContext ("return " +:+ condition_text c) ;;
       ret (truthy result))
      (fun e =>
         log ("Condition evaluation failed: " +:+ condition_text c +:+ " - " +:+ e)
             LError ;;
         ret false).

Definition hex_digit (v : Z) : ascii :=
  match String.get (Z.to_nat v) "0123456789abcdef" with
  | Some c => c
  | None => "0"%char
  end.

(** ['xxxxxxxx-xxxx-4xxx-yxxx-xxxxxxxxxxxx'.replace(/[xy]/g, ...)] *)
Fixpoint uuid_replace (pattern : string) : M string :=
  match pattern with
  | EmptyString => ret EmptyString
  | String c rest =>
      if Ascii.eqb c "x"%char || Ascii.eqb c "y"%char then
        r <- draw_nibble ;;
        let v := if Ascii.eqb c "x"%char then r else Z.lor (Z.land r 3) 8 in
        tail <- uuid_replace rest ;;
        ret (String (hex_digit v) tail)
      else
        tail <- uuid_replace rest ;;
        ret (String c tail)
  end.

Definition resolveValue (template : value) (context : obj) : M value :=
  match template with
  | VStr t =>
      if JsString.includes "{{" t && JsString.includes "}}" t then
        let expression := JsString.trim (JsString.replace_templates t) in
        try_catch
          (if String.eqb expression "now()" then
             now <- read_clock ;;
             ret (VStr (toISOString h now))
           else if String.eqb expression "timestamp()" then
             now <- read_clock ;;
             ret (VNum now)
           else if String.eqb expression "uuid()" then
             u <- uuid_replace "xxxxxxxx-xxxx-4xxx-yxxx-xxxxxxxxxxxx" ;;
             ret (VStr u)
           else
             let safeContext := createSafeContext context in
             call_function safeContext ("return " +:+ expression))
          (fun e =>
             log ("Template resolution failed: " +:+ t +:+ " - " +:+ e) LError ;;
             ret template)
      else ret template
  | _ => ret template
  end.

(** The loop of [setNestedPath] below the node [current]. *)
Fixpoint set_path (current : value) (keys : list string) (v : value) : value :=
  match keys with
  | [] => current
  | [k] => set_prop current k v
  | k :: rest =>
      let child := get_prop current k in
      let child' :=
        if negb (truthy child) || negb (typeof_object child) then VObj []
        else child in
      set_prop current k (set_path child' rest v)
  end.

Definition setNestedPath (o : obj) (path : string) (v : value) : obj :=
  match set_path (VObj o) (JsString.split_dot path) v with
  | VObj o' => o'
  | _ => o
  end.

(** One pass of the loop over [Object.entries(transformations)]. *)
Definition transform_entry (ruleName : string) (entry : string * value)
    (acc : obj * list string * gmap string string)
  : M (obj * list string * gmap string string) :=
  let '(newState, fieldsChanged, iterationChanges) := acc in
  let '(path, v) := entry in
  resolvedValue <- resolveValue v newState ;;
  match iterationChanges !! path with
  | Some previous =>
      it <- gets currentIteration ;;
      push_conflict {| field := path;
                       previousRule := previous;
                       currentRule := ruleName;
                       resolution := "priority_override";
                       iteration := it |} ;;
      log ("Conflict: " +:+ previous +:+ " vs " +:+ ruleName +:+ " on " +:+ path
             +:+ " → " +:+ ruleName +:+ " wins") LWarning
  | None => ret tt
  end ;;
  ret (setNestedPath newState path resolvedValue,
       (fieldsChanged ++ [path])%list,
       <[path := ruleName]> iterationChanges).

Fixpoint transform_entries (ruleName : string) (entries : list (string * value))
    (acc : obj * list string * gmap string string)
  : M (obj * list string * gmap string string) :=
  match entries with
  | [] => ret acc
  | entry :: entries' =>
      acc' <- transform_entry ruleName entry acc ;;
      transform_entries ruleName entries' acc'
  end.

(** Returns [newState], [fieldsChanged] and the map [iterationChanges],
    which the source updates in place. *)
Definition applyTransformationsWithTracking (state : obj) (transformations : obj)
    (ruleName : string) (iterationChanges : gmap string string)
  : M (obj * list string * gmap string string) :=
  let newState := JSON_parse (JSON_stringify state) in
  transform_entries ruleName transformations (newState, [], iterationChanges).

(** [rule.priority || 999] *)
Definition effective_priority (r : Rule) : Z :=
  match priority r with
  | Some p => if Z.eqb p 0 then 999%Z else p
  | None => 999%Z
  end.

(** [Array.prototype.sort] is stable: a rule moves behind those of
    strictly smaller priority only. *)
Fixpoint insert_by_priority (r : Rule) (sorted : list Rule) : list Rule :=
  match sorted with
  | [] => [r]
  | x :: sorted' =>
      if Z.ltb 0 (effective_priority r - effective_priority x)
      then x :: insert_by_priority r sorted'
      else r :: sorted
  end.

Definition sort_by_priority (l : list Rule) : list Rule :=
  fold_right insert_by_priority [] l.

(** [`${r.name}(${r.priority || 'default'})`] *)
Definition describe (r : Rule) : string :=
  name r +:+ "(" +:+
  match priority r with
  | Some p => if Z.eqb p 0 then "default" else pretty p
  | None => "default"
  end +:+ ")".

(** [l.join(sep)] *)
Fixpoint join (sep : string) (l : list string) : string :=
  match l with
  | [] => ""
  | [x] => x
  | x :: l' => x +:+ sep +:+ join sep l'
  end.

(** The body of [for (let rule of sortedRules)], for the rules that are
    left. *)
Fixpoint for_each_rule (todo : list Rule) (currentState : obj) (changed : bool)
    (iterationChanges : gmap string string) : M (obj * bool) :=
  match todo with
  | [] => ret (currentState, changed)
  | rule :: todo' =>
      let previousState := JSON_stringify currentState in
      fires <- evaluateCondition (cond rule) currentState ;;
      if fires then
        log ("Applied: " +:+ name rule) LInfo ;;
        match then_ rule with
        | Some transformations =>
            stateChanges <- applyTransformationsWithTracking
                              currentState transformations (name rule)
                              iterationChanges ;;
            let '(newState, _, iterationChanges') := stateChanges in
            for_each_rule todo' newState
              (if negb (text_eqb previousState (JSON_stringify newState))
               then true else changed)
              iterationChanges'
        | None => for_each_rule todo' currentState changed iterationChanges
        end
      else
        log ("Skipped: " +:+ name rule +:+ " (condition not met)") LInfo ;;
        for_each_rule todo' currentState changed iterationChanges
  end.

(** One sweep: the body of the [while] loop. *)
Definition sweep (sortedRules : list Rule) (iteration' : nat) (currentState : obj)
  : M (obj * bool) :=
  set_currentIteration iteration' ;;
  log ("--- Iteration " +:+ pretty iteration' +:+ " ---") LInfo ;;
  swept <- for_each_rule sortedRules currentState false ∅ ;;
  n <- gets (fun m => length (conflictLog m)) ;;
  when (Nat.ltb 0 n) (log ("Conflicts resolved: " +:+ pretty n) LWarning) ;;
  ret swept.

(** [while (changed && iteration < maxIterations)], by recursion on the
    turns that are left, [remaining]: as many as [maxIterations] when the
    loop starts, none when that is negative. *)
Fixpoint while_loop (sortedRules : list Rule) (remaining : nat) (iteration' : nat)
    (changed : bool) (currentState : obj) : M (nat * obj) :=
  match remaining with
  | O => ret (iteration', currentState)
  | S remaining' =>
      if changed then
        swept <- sweep sortedRules (S iteration') currentState ;;
        while_loop sortedRules remaining' (S iteration') (snd swept) (fst swept)
      else ret (iteration', currentState)
  end.

(** [rulesConfig.max_iterations || 10] *)
Definition maxIterations (rulesConfig : RulesConfig) : Z :=
  match max_iterations rulesConfig with
  | Some 0%Z | None => 10%Z
  | Some n => n
  end.

Definition apply (inputData : obj) (rulesConfig : RulesConfig) : M Result :=
  reset ;;
  let currentState := JSON_parse (JSON_stringify inputData) in
  log "Starting rule application" LInfo ;;
  log ("Rules: " +:+ pretty (length (rules rulesConfig))) LInfo ;;
  let sortedRules := sort_by_priority (rules rulesConfig) in
  log ("Execution order: " +:+ join " → " (map describe sortedRules)) LInfo ;;
  final <- while_loop sortedRules (Z.to_nat (maxIterations rulesConfig)) 0 true
             currentState ;;
  when (Z.leb (maxIterations rulesConfig) (Z.of_nat (fst final)))
       (log ("Stopped at max iterations: " +:+ pretty (maxIterations rulesConfig))
            LWarning) ;;
  log ("Completed in " +:+ pretty (fst final) +:+ " iterations") LInfo ;;
  trail <- gets auditTrail ;;
  clashes <- gets conflictLog ;;
  applied <- getRulesApplied ;;
  ret {| input := inputData;
         output := snd final;
         iterations := fst final;
         audit := trail;
         conflicts := clashes;
         rulesApplied := applied;
         engine_version := version |}.

End Engine.

(** *** Validation of a configuration

    [validate] reads the [rules] array of the configuration, if it has
    one.  A rule is given with its [else] clause, which [apply] never
    reads; its name is a string, possibly the empty one, and its priority
    a number when it has one.  [syntax_error body] is the message
    of the SyntaxError that [new Function(body)] throws, if it throws one:
    the function is compiled and never called. *)

Record Clause : Type := {
  rule_of : Rule;
  else_ : option obj
}.

Section Validation.

Context (syntax_error : string -> option string).

Definition quoted (s : string) : string :=
  String (ascii_of_nat 34) (s +:+ String (ascii_of_nat 34) EmptyString).

(** The callback of [forEach] on the rule at [index]: the errors it
    pushes, in their order, and the set [ruleNames] it leaves. *)
Definition validate_rule (c : Clause) (index : nat) (ruleNames : gset string)
  : list string * gset string :=
  let r := rule_of c in
  let named :=
    if String.eqb (name r) "" then
      (["Rule " +:+ pretty index +:+ ": Missing name"], ruleNames)
    else if decide (name r ∈ ruleNames) then
      (["Rule " +:+ pretty index +:+ ": Duplicate rule name " +:+ quoted (name r)],
       ruleNames)
    else ([], {[ name r ]} ∪ ruleNames) in
  let label := "Rule " +:+ pretty index +:+ " (" +:+ name r +:+ ")" in
  let ranked :=
    match priority r with
    | Some p =>
        if Z.ltb p 0 then [label +:+ ": Priority must be a non-negative number"]
        else []
    | None => []
    end in
  let compiled :=
    if falsy (cond r) then []
    else match syntax_error ("return " +:+ condition_text (cond r)) with
         | Some e => [label +:+ ": Invalid condition syntax - " +:+ e]
         | None => []
         end in
  let acting :=
    match then_ r, else_ c with
    | None, None => [label +:+ ": Must have 'then' or 'else' clause"]
    | _, _ => []
    end in
  ((fst named ++ ranked ++ compiled ++ acting)%list, snd named).

Fixpoint validate_rules (l : list Clause) (index : nat) (ruleNames : gset string)
  : list string :=
  match l with
  | [] => []
  | c :: l' =>
      let checked := validate_rule c index ruleNames in
      (fst checked ++ validate_rules l' (S index) (snd checked))%list
  end.

Definition validate (rules : option (list Clause)) : list string :=
  match rules with
  | None => ["Rules configuration must have a " +:+ quoted "rules" +:+ " array"]
  | Some l => validate_rules l 0 ∅
  end.

End Validation.

(** *** The fingerprint of a configuration *)

(** [ToInt32] of an integer. *)
Definition to_int32 (z : Z) : Z :=
  ((z + 2147483648) mod 4294967296 - 2147483648)%Z.

(** [n.toString(16)] for an integer [n >= 0]: the digits are produced
    from the last one; a number has at most one more binary digit than
    [Z.log2] tells, which is fuel enough. *)
Fixpoint hex_digits (fuel : nat) (n : Z) (acc : string) : string :=
  match fuel with
  | O => acc
  | S fuel' =>
      let acc' := String (hex_digit (n mod 16)) acc in
      if Z.ltb n 16 then acc' else hex_digits fuel' (n / 16) acc'
  end.

Definition toString16 (n : Z) : string :=
  hex_digits (S (Z.to_nat (Z.log2 n))) n EmptyString.

(** One turn of the loop of [simpleHash]:
    [hash = ((hash << 5) - hash) + char; hash = hash & hash]. *)
Definition hash_step (hash : Z) (c : ascii) : Z :=
  let char := Z.of_nat (nat_of_ascii c) in
  let hash' := (to_int32 (Z.shiftl (to_int32 hash) 5) - hash + char)%Z in
  Z.land (to_int32 hash') (to_int32 hash').

Fixpoint hash_loop (str : string) (hash : Z) : Z :=
  match str with
  | EmptyString => hash
  | String c str' => hash_loop str' (hash_step hash c)
  end.

Definition simpleHash (str : string) : string :=
  toString16 (Z.abs (hash_loop str 0)).

End AxisRulesEngine.

(** ** SPCEngine (axis-cli): template resolution and the rule pass *)

Module SPCEngine.
Section Engine.

Context (h : Host).

Definition resolveTemplate (template : value) (context : obj) : M value :=
  match template with
  | VStr t =>
      match JsString.match_whole_template t with
      | None => ret template
      | Some group =>
          try_catch
            (let ctx := obj_set "data" (VObj context) (obj_assign [] context) in
             AxisRulesEngine.call_function h ctx ("return (" +:+ group +:+ ")"))
            (fun _ => ret template)
      end
  | _ => ret template
  end.

Definition evaluateCondition (c : condition) (context : obj) : M bool :=
  if AxisRulesEngine.falsy c then ret true
  else
    try_catch
      (let ctx := obj_set "data" (VObj context) (obj_assign [] context) in
       result <- AxisRulesEngine.call_function h ctx
                   ("return (" +:+ AxisRulesEngine.condition_text c +:+ ")") ;;
       ret (truthy result))
      (fun _ => ret false).

(** The loop over [Object.entries(rule.then)]. *)
Fixpoint assign_entries (entries : list (string * value)) (ctx : obj) : M obj :=
  match entries with
  | [] => ret ctx
  | (key, expr) :: entries' =>
      v <- resolveTemplate expr ctx ;;
      assign_entries entries' (obj_set key v ctx)
  end.

(** The loop over the rules. *)
Fixpoint each_rule (todo : list Rule) (ctx : obj) : M obj :=
  match todo with
  | [] => ret ctx
  | rule :: todo' =>
      fires <- evaluateCondition (cond rule) ctx ;;
      if fires then
        match then_ rule with
        | Some transformations =>
            ctx' <- assign_entries transformations ctx ;;
            each_rule todo' ctx'
        | None => each_rule todo' ctx
        end
      else each_rule todo' ctx
  end.

(** [applyRules(data, ruleConfig)] on an object [data], [rules] being
    [ruleConfig.rules || []]. *)
Definition applyRules (data : obj) (rules : list Rule) : M obj :=
  each_rule rules (JSON_parse (JSON_stringify data)).

End Engine.

(** [evaluateThreshold] on a reading that is a number.  A threshold
    holds a number under some of its six keys. *)
Record Threshold : Type := {
  above : option Z;
  below : option Z;
  warnAbove : option Z;
  warnBelow : option Z;
  critical : option Z;
  warning : option Z
}.

(** [typeof bound === 'number' && value >= bound] *)
Definition reaches (value : Z) (bound : option Z) : bool :=
  match bound with
  | Some b => Z.leb b value
  | None => false
  end.

(** [typeof bound === 'number' && value <= bound] *)
Definition falls_to (value : Z) (bound : option Z) : bool :=
  match bound with
  | Some b => Z.leb value b
  | None => false
  end.

Definition evaluateThreshold (value : Z) (threshold : Threshold) : string :=
  if reaches value (above threshold) then "critical"
  else if falls_to value (below threshold) then "critical"
  else if reaches value (warnAbove threshold) then "warning"
  else if falls_to value (warnBelow threshold) then "warning"
  else if reaches value (critical threshold) then "critical"
  else if reaches value (warning threshold) then "warning"
  else "ok".

End SPCEngine.

(** ** MiniJS: the host's evaluator on a fragment of expressions

    [new Function] compiles any JavaScript.  The scenarios of the
    specification need a concrete host, and this one reads the fragment
    they are written in: integer and string literals, [true], [false],
    [null], identifiers, member access, [!], unary [-], [* % + -],
    [< <= > >=], [=== !==], [&& ||], the conditional and parentheses, over
    integers in the range where a double is exact.  A body that does not
    parse or a free identifier make it throw, as in JavaScript, where
    [undefined] is the one global it knows.  What lies outside the
    fragment it refuses with an exception as well: an operation on values
    that are no integers, and a parameter that is no identifier, which
    JavaScript accepts when it is a parameter list of its own (the key
    [a,b]).  The statements below that evaluate an expression on this
    host do so in the states of the scenarios, or evaluate a body that
    does not parse. *)

Module MiniJS.

Inductive token : Type :=
| TNum (n : Z)
| TStr (s : string)
| TId (x : string)
| TSym (p : string).

Inductive expr : Type :=
| ENum (n : Z)
| EStr (s : string)
| EBool (b : bool)
| ENull
| EVar (x : string)
| EMember (e : expr) (x : string)
| EUnary (op : string) (e : expr)
| EBinary (op : string) (l r : expr)
| ECond (c a b : expr).

Definition between (lo hi : nat) (c : ascii) : bool :=
  Nat.leb lo (nat_of_ascii c) && Nat.leb (nat_of_ascii c) hi.

Definition is_digit (c : ascii) : bool := between 48 57 c.

Definition is_id_start (c : ascii) : bool :=
  between 65 90 c || between 97 122 c || Ascii.eqb c "_"%char
  || Ascii.eqb c "$"%char.

Definition is_id_part (c : ascii) : bool := is_id_start c || is_digit c.

Definition double_quote : ascii := ascii_of_nat 34.

(** The longest prefix whose characters satisfy [p], and the rest. *)
Fixpoint span (p : ascii -> bool) (s : string) : string * string :=
  match s with
  | EmptyString => (EmptyString, EmptyString)
  | String c s' =>
      if p c then let '(a, b) := span p s' in (String c a, b)
      else (EmptyString, s)
  end.

Fixpoint decimal (s : string) (acc : Z) : Z :=
  match s with
  | EmptyString => acc
  | String c s' => decimal s' (10 * acc + Z.of_nat (nat_of_ascii c - 48))%Z
  end.

Definition symbols : list string :=
  ["==="; "!=="; "<="; ">="; "&&"; "||";
   "("; ")"; "."; "?"; ":"; "!"; "<"; ">"; "+"; "-"; "*"; "%"].

Fixpoint first_symbol (l : list string) (s : string) : option string :=
  match l with
  | [] => None
  | p :: l' => if String.prefix p s then Some p else first_symbol l' s
  end.

Fixpoint lex (fuel : nat) (s : string) : option (list token) :=
  match fuel with
  | O => None
  | S fuel' =>
      match s with
      | EmptyString => Some []
      | String c s' =>
          if JsString.is_line_terminator c then None
          else if JsString.is_space c then lex fuel' s'
          else if is_digit c then
            let '(ds, rest) := span is_digit s in
            match rest with
            | String d _ =>
                if is_id_start d || Ascii.eqb d "."%char then None
                else option_map (cons (TNum (decimal ds 0))) (lex fuel' rest)
            | EmptyString => Some [TNum (decimal ds 0)]
            end
          else if is_id_start c then
            let '(x, rest) := span is_id_part s in
            option_map (cons (TId x)) (lex fuel' rest)
          else if Ascii.eqb c "'"%char || Ascii.eqb c double_quote then
            let '(body, rest) :=
              span (fun d => negb (Ascii.eqb d c) && negb (Ascii.eqb d "\"%char)) s' in
            match rest with
            | String d rest' =>
                if Ascii.eqb d c
                then option_map (cons (TStr body)) (lex fuel' rest')
                else None
            | EmptyString => None
            end
          else
            match first_symbol symbols s with
            | Some p =>
                option_map (cons (TSym p))
                           (lex fuel' (JsString.drop (String.length p) s))
            | None => None
            end
      end
  end.

Definition tokenize (s : string) : option (list token) :=
  lex (S (String.length s)) s.

Definition reserved : list string :=
  ["break"; "case"; "catch"; "class"; "const"; "continue"; "debugger";
   "default"; "delete"; "do"; "else"; "enum"; "export"; "extends"; "false";
   "finally"; "for"; "function"; "if"; "import"; "in"; "instanceof"; "new";
   "null"; "return"; "super"; "switch"; "this"; "throw"; "true"; "try";
   "typeof"; "var"; "void"; "while"; "with"].

Definition is_reserved (x : string) : bool :=
  existsb (String.eqb x) reserved.

(** The level of a binary operator: the smaller, the weaker it binds. *)
Definition binary_level (op : string) : option nat :=
  if String.eqb op "||" then Some 1
  else if String.eqb op "&&" then Some 2
  else if String.eqb op "===" || String.eqb op "!==" then Some 3
  else if String.eqb op "<" || String.eqb op ">" || String.eqb op "<="
          || String.eqb op ">=" then Some 4
  else if String.eqb op "+" || String.eqb op "-" then Some 5
  else if String.eqb op "*" || String.eqb op "%" then Some 6
  else None.

Inductive goal : Type :=
| GLevel (lvl : nat)
| GTail (lvl : nat) (lhs : expr)
| GMember (lhs : expr).

(** Recursive descent: level 0 is the conditional, 1 to 6 the binary
    operators, 7 the unary ones, 8 a primary with its member accesses. *)
Fixpoint parse (fuel : nat) (g : goal) (ts : list token)
  : option (expr * list token) :=
  match fuel with
  | O => None
  | S fuel' =>
      match g with
      | GTail lvl lhs =>
          match ts with
          | TSym op :: ts1 =>
              match binary_level op with
              | Some l =>
                  if Nat.eqb l lvl then
                    match parse fuel' (GLevel (S lvl)) ts1 with
                    | Some (rhs, ts2) =>
                        parse fuel' (GTail lvl (EBinary op lhs rhs)) ts2
                    | None => None
                    end
                  else Some (lhs, ts)
              | None => Some (lhs, ts)
              end
          | _ => Some (lhs, ts)
          end
      | GMember lhs =>
          match ts with
          | TSym "." :: TId x :: ts1 => parse fuel' (GMember (EMember lhs x)) ts1
          | TSym "." :: _ => None
          | _ => Some (lhs, ts)
          end
      | GLevel 0 =>
          match parse fuel' (GLevel 1) ts with
          | Some (c, TSym "?" :: ts1) =>
              match parse fuel' (GLevel 0) ts1 with
              | Some (a, TSym ":" :: ts2) =>
                  match parse fuel' (GLevel 0) ts2 with
                  | Some (b, ts3) => Some (ECond c a b, ts3)
                  | None => None
                  end
              | _ => None
              end
          | r => r
          end
      | GLevel 7 =>
          match ts with
          | TSym "!" :: ts1 =>
              match parse fuel' (GLevel 7) ts1 with
              | Some (e, ts2) => Some (EUnary "!" e, ts2)
              | None => None
              end
          | TSym "-" :: ts1 =>
              match parse fuel' (GLevel 7) ts1 with
              | Some (e, ts2) => Some (EUnary "-" e, ts2)
              | None => None
              end
          | _ => parse fuel' (GLevel 8) ts
          end
      | GLevel 8 =>
          match ts with
          | TNum n :: ts1 => parse fuel' (GMember (ENum n)) ts1
          | TStr s :: ts1 => parse fuel' (GMember (EStr s)) ts1
          | TId x :: ts1 =>
              if String.eqb x "true" then parse fuel' (GMember (EBool true)) ts1
              else if String.eqb x "false" then parse fuel' (GMember (EBool false)) ts1
              else if String.eqb x "null" then parse fuel' (GMember ENull) ts1
              else if is_reserved x then None
              else parse fuel' (GMember (EVar x)) ts1
          | TSym "(" :: ts1 =>
              match parse fuel' (GLevel 0) ts1 with
              | Some (e, TSym ")" :: ts2) => parse fuel' (GMember e) ts2
              | _ => None
              end
          | _ => None
          end
      | GLevel lvl =>
          match parse fuel' (GLevel (S lvl)) ts with
          | Some (lhs, ts1) => parse fuel' (GTail lvl lhs) ts1
          | None => None
          end
      end
  end.

(** The body [return <expression>] of the function. *)
Definition parse_body (body : string) : option expr :=
  match tokenize body with
  | Some (TId "return" :: ts) =>
      match parse (16 * S (length ts)) (GLevel 0) ts with
      | Some (e, []) => Some e
      | _ => None
      end
  | _ => None
  end.

Definition safe_integer (n : Z) : bool :=
  Z.leb (- 9007199254740991) n && Z.leb n 9007199254740991.

Definition number (n : Z) : completion :=
  if safe_integer n then Normal (VNum n)
  else Abrupt "MiniJS: not an exact integer".

Definition refused : completion := Abrupt "MiniJS: outside the fragment".

Definition arithmetic (op : string) (a b : Z) : completion :=
  if String.eqb op "+" then number (a + b)
  else if String.eqb op "-" then number (a - b)
  else if String.eqb op "*" then number (a * b)
  else if String.eqb op "%" then
    if Z.eqb b 0 then refused else number (Z.rem a b)
  else if String.eqb op "<" then Normal (VBool (Z.ltb a b))
  else if String.eqb op ">" then Normal (VBool (Z.ltb b a))
  else if String.eqb op "<=" then Normal (VBool (Z.leb a b))
  else if String.eqb op ">=" then Normal (VBool (Z.leb b a))
  else refused.

(** [a === b] on primitive values. *)
Definition strict_equal (a b : value) : option bool :=
  match a, b with
  | VArr _, _ | VObj _, _ | VHost _, _
  | _, VArr _ | _, VObj _ | _, VHost _ => None
  | _, _ => Some (value_eqb a b)
  end.

Definition binary (op : string) (a b : value) : completion :=
  if String.eqb op "===" then
    match strict_equal a b with
    | Some r => Normal (VBool r)
    | None => refused
    end
  else if String.eqb op "!==" then
    match strict_equal a b with
    | Some r => Normal (VBool (negb r))
    | None => refused
    end
  else
    match a, b with
    | VNum x, VNum y => arithmetic op x y
    | VStr x, VStr y =>
        if String.eqb op "+" then Normal (VStr (x +:+ y)) else refused
    | _, _ => refused
    end.

Fixpoint eval (env : obj) (e : expr) : completion :=
  match e with
  | ENum n => number n
  | EStr s => Normal (VStr s)
  | EBool b => Normal (VBool b)
  | ENull => Normal VNull
  | EVar x =>
      match obj_get x env with
      | Some v => Normal v
      | None =>
          if String.eqb x "undefined" then Normal VUndef
          else Abrupt (x +:+ " is not defined")
      end
  | EMember e' x =>
      match eval env e' with
      | Normal (VObj kvs) =>
          Normal (match obj_get x kvs with Some v => v | None => VUndef end)
      | Normal VUndef =>
          Abrupt ("Cannot read properties of undefined (reading '" +:+ x +:+ "')")
      | Normal VNull =>
          Abrupt ("Cannot read properties of null (reading '" +:+ x +:+ "')")
      | Normal _ => refused
      | Abrupt r => Abrupt r
      end
  | EUnary op e' =>
      match eval env e' with
      | Normal v =>
          if String.eqb op "!" then Normal (VBool (negb (truthy v)))
          else match v with
               | VNum n => number (- n)
               | _ => refused
               end
      | Abrupt r => Abrupt r
      end
  | EBinary op l r =>
      match eval env l with
      | Normal a =>
          if String.eqb op "&&" then (if truthy a then eval env r else Normal a)
          else if String.eqb op "||" then (if truthy a then Normal a else eval env r)
          else match eval env r with
               | Normal b => binary op a b
               | Abrupt x => Abrupt x
               end
      | Abrupt x => Abrupt x
      end
  | ECond c a b =>
      match eval env c with
      | Normal v => if truthy v then eval env a else eval env b
      | Abrupt x => Abrupt x
      end
  end.

(** A formal parameter has to be an identifier that is not reserved. *)
Definition is_parameter (x : string) : bool :=
  match tokenize x with
  | Some [TId y] => String.eqb x y && negb (is_reserved x)
  | _ => false
  end.

Definition call (params : list string) (body : string) (args : list value)
  : completion :=
  if forallb is_parameter params then
    match parse_body body with
    | Some e => eval (combine params args) e
    | None => Abrupt "SyntaxError"
    end
  else Abrupt "SyntaxError".

(** A host with this evaluator: any clock and random source, a reading
    of the clock printed as its number of milliseconds. *)
Definition host (clk : nat -> Z) (rnd : nat -> Z) : Host :=
  {| call_new_Function := call;
     clock := clk;
     toISOString := fun t => pretty t;
     random_nibble := rnd |}.

End MiniJS.

(** ** Notions the statements are written with *)

(** What a call returned, if it returned. *)
Definition returned {A : Type} (r : outcome A * Machine) : option A :=
  match fst r with
  | Ret a => Some a
  | Throw _ => None
  end.

(** The instance as the constructor leaves it, on a host nobody has
    consulted yet. *)
Definition fresh : Machine :=
  {| auditTrail := [];
     conflictLog := [];
     currentIteration := 0;
     clock_reads := 0;
     random_draws := 0 |}.

(** A state that [JSON.parse(JSON.stringify(..))] copies to itself: no
    [undefined], no function and no host object anywhere in it. *)
Definition json_state (st : obj) : Prop := JSON_parse (JSON_stringify st) = st.

(** [flattenObject] returns on the value: no object it descends into has
    an own key [hasOwnProperty], which would stand in the way of the
    method [obj.hasOwnProperty(key)] the loop calls.  On a state that has
    one, [createSafeContext] throws and there is no context to evaluate
    in. *)
Fixpoint flattens (v : value) : bool :=
  match v with
  | VObj kvs =>
      (fix each_key (l : list (string * value)) : bool :=
         match l with
         | [] => true
         | (key, x) :: l' =>
             negb (String.eqb key "hasOwnProperty") && flattens x && each_key l'
         end) kvs
  | _ => true
  end.

(** The expression [resolveValue] finds in a template. *)
Definition expression_of (t : string) : string :=
  JsString.trim (JsString.replace_templates t).

Definition wrapped (t : string) : bool :=
  JsString.includes "{{" t && JsString.includes "}}" t.

Definition is_builtin (e : string) : bool :=
  String.eqb e "now()" || String.eqb e "timestamp()" || String.eqb e "uuid()".

Definition value_uses_builtin (v : value) : bool :=
  match v with
  | VStr t => wrapped t && is_builtin (expression_of t)
  | _ => false
  end.

Definition rule_uses_builtin (r : Rule) : bool :=
  match then_ r with
  | Some t => existsb (fun entry => value_uses_builtin (snd entry)) t
  | None => false
  end.

(** No [then] value of the rules is one of the templates [now()],
    [timestamp()] and [uuid()], which read the clock or the random
    source. *)
Definition builtin_free (l : list Rule) : bool :=
  forallb (fun r => negb (rule_uses_builtin r)) l.

(** The names [getRulesApplied] reads off an audit trail. *)
Definition applied_of (trail : list AuditEntry) : list string :=
  map (fun entry => JsString.replace_first "Applied: " "" (message entry))
      (List.filter (fun entry => JsString.startsWith "Applied:" (message entry)) trail).

(** What the machine keeps when a method only reads the host and writes
    audit entries that are no [Applied:] entries. *)
Definition quiet (m m' : Machine) : Prop :=
  conflictLog m' = conflictLog m /\
  currentIteration m' = currentIteration m /\
  applied_of (auditTrail m') = applied_of (auditTrail m).

Section Readings.

Context (h : Host).

(** [sweeps n st m c st' m']: from the state [st] and the machine [m],
    [n] sweeps were run one after the other, every one before the last
    reported a change, the last reported [c], and they left [st'] and
    [m']. *)
Inductive sweeps (sortedRules : list Rule)
  : nat -> obj -> Machine -> bool -> obj -> Machine -> Prop :=
| sweeps_none st m : sweeps sortedRules 0 st m true st m
| sweeps_more n st m st1 m1 st2 c m2 :
    sweeps sortedRules n st m true st1 m1 ->
    AxisRulesEngine.sweep h sortedRules (S n) st1 m1 = (Ret (st2, c), m2) ->
    sweeps sortedRules (S n) st m c st2 m2.

(** *** The run as a function of the state

    When no clock or random builtin is used, what a condition, a
    template, a rule, a sweep and the loop compute depends on the state
    alone.  These are those functions; [for_each_rule_run],
    [while_loop_reading] and [apply_reading] prove that the methods
    compute them. *)

Definition holds (c : condition) (st : obj) : bool :=
  if AxisRulesEngine.falsy c then true
  else
    let safeContext := AxisRulesEngine.createSafeContext st in
    match call_new_Function h (obj_keys safeContext)
            ("return " +:+ AxisRulesEngine.condition_text c)
            (obj_values safeContext) with
    | Normal v => truthy v
    | Abrupt _ => false
    end.

Definition resolved (v : value) (st : obj) : value :=
  match v with
  | VStr t =>
      if wrapped t then
        let safeContext := AxisRulesEngine.createSafeContext st in
        match call_new_Function h (obj_keys safeContext)
                ("return " +:+ expression_of t) (obj_values safeContext) with
        | Normal r => r
        | Abrupt _ => v
        end
      else v
  | _ => v
  end.

Fixpoint entries_written (entries : list (string * value)) (st : obj) : obj :=
  match entries with
  | [] => st
  | (path, v) :: entries' =>
      entries_written entries'
        (AxisRulesEngine.setNestedPath st path (resolved v st))
  end.

Definition after_rule (r : Rule) (st : obj) : obj :=
  if holds (cond r) st then
    match then_ r with
    | Some t => entries_written t (JSON_parse (JSON_stringify st))
    | None => st
    end
  else st.

Definition rule_changes (r : Rule) (st : obj) : bool :=
  holds (cond r) st &&
  match then_ r with
  | Some _ =>
      negb (text_eqb (JSON_stringify st) (JSON_stringify (after_rule r st)))
  | None => false
  end.

Fixpoint after_rules (todo : list Rule) (st : obj) (changed : bool) : obj * bool :=
  match todo with
  | [] => (st, changed)
  | r :: todo' =>
      after_rules todo' (after_rule r st)
                  (if rule_changes r st then true else changed)
  end.

Fixpoint fired (todo : list Rule) (st : obj) : list string :=
  match todo with
  | [] => []
  | r :: todo' =>
      (if holds (cond r) st then [name r] else []) ++ fired todo' (after_rule r st)
  end%list.

Fixpoint after_loop (sortedRules : list Rule) (remaining iteration' : nat)
    (changed : bool) (st : obj) : nat * obj * list string :=
  match remaining with
  | O => (iteration', st, [])
  | S remaining' =>
      if changed then
        let swept := after_rules sortedRules st false in
        let '(n, st', names) :=
          after_loop sortedRules remaining' (S iteration') (snd swept) (fst swept) in
        (n, st', (fired sortedRules st ++ names)%list)
      else (iteration', st, [])
  end.

(** The states a run passes through: the state every rule of a sweep
    leaves, sweep after sweep. *)
Fixpoint states_of_sweep (todo : list Rule) (st : obj) : list obj :=
  match todo with
  | [] => []
  | r :: todo' => after_rule r st :: states_of_sweep todo' (after_rule r st)
  end.

Fixpoint states_of_run (sortedRules : list Rule) (remaining : nat) (changed : bool)
    (st : obj) : list obj :=
  match remaining with
  | O => []
  | S remaining' =>
      if changed then
        let swept := after_rules sortedRules st false in
        (states_of_sweep sortedRules st
         ++ states_of_run sortedRules remaining' (snd swept) (fst swept))%list
      else []
  end.

End Readings.

(** *** The write log of a sweep, for the conflict entries *)

(** A write: the path and the name of the rule that wrote it. *)
Definition write : Type := (string * string)%type.

(** The rule that wrote [p] last among [ws], the earlier writes first. *)
Fixpoint last_writer (p : string) (ws : list write) : option string :=
  match ws with
  | [] => None
  | (p', r) :: ws' =>
      match last_writer p ws' with
      | Some r' => Some r'
      | None => if String.eqb p p' then Some r else None
      end
  end.

(** The map [iterationChanges] holds, for each path, the last rule that
    wrote it among [ws]. *)
Definition tracks (ic : gmap string string) (ws : list write) : Prop :=
  forall p, ic !! p = last_writer p ws.

(** The entry the specification asks for: only when the earlier writer has
    another name. *)
Definition conflict_if_other_name (it : nat) (ws : list write) (p ruleName : string)
  : list ConflictEntry :=
  match last_writer p ws with
  | Some previous =>
      if String.eqb previous ruleName then []
      else [{| field := p; previousRule := previous; currentRule := ruleName;
               resolution := "priority_override"; iteration := it |}]
  | None => []
  end.

(** The entry the engine appends: whenever the path has a writer in this
    sweep. *)
Definition conflict_if_written (it : nat) (ws : list write) (p ruleName : string)
  : list ConflictEntry :=
  match last_writer p ws with
  | Some previous =>
      [{| field := p; previousRule := previous; currentRule := ruleName;
          resolution := "priority_override"; iteration := it |}]
  | None => []
  end.

(** The entries a rule appends while it writes the paths of [new] one
    after the other, [ws] being the writes of the sweep before it. *)
Fixpoint conflicts_written (it : nat) (ws : list write) (new : list write)
  : list ConflictEntry :=
  match new with
  | [] => []
  | (p, r) :: new' =>
      (conflict_if_written it ws p r
       ++ conflicts_written it (ws ++ [(p, r)]) new')%list
  end.

(** The writes of a rule: its paths in the order of its [then], under its
    name. *)
Definition writes_of (ruleName : string) (entries : list (string * value))
  : list write :=
  map (fun entry => (fst entry, ruleName)) entries.

(** The writes a rule makes when it fires. *)
Definition rule_writes (r : Rule) : list write :=
  match then_ r with
  | Some t => writes_of (name r) t
  | None => []
  end.

(** *** The applications of a sweep *)

(** An application: a rule whose condition held and that has a [then],
    the state it was applied to and the state it left. *)
Record application : Type := {
  applied_rule : Rule;
  state_before : obj;
  state_after : obj
}.

(** [previousState !== JSON.stringify(currentState)] for an application. *)
Definition changed_by (a : application) : bool :=
  negb (text_eqb (JSON_stringify (state_before a)) (JSON_stringify (state_after a))).

(** The writes of a list of applications, in their order. *)
Definition writes_in (apps : list application) : list write :=
  flat_map (fun a => rule_writes (applied_rule a)) apps.

(** The instance when the loop over the rules of the sweep [k] starts. *)
Definition sweep_start (h : Host) (k : nat) (m : Machine) : Machine :=
  snd ((AxisRulesEngine.set_currentIteration k ;;
        AxisRulesEngine.log h ("--- Iteration " +:+ pretty k +:+ " ---") LInfo) m).

(** The instance when the loop of [apply] starts. *)
Definition run_start (h : Host) (cfg : RulesConfig) (m : Machine) : Machine :=
  snd ((AxisRulesEngine.reset ;;
        AxisRulesEngine.log h "Starting rule application" LInfo ;;
        AxisRulesEngine.log h ("Rules: " +:+ pretty (length (rules cfg))) LInfo ;;
        AxisRulesEngine.log h
          ("Execution order: "
           +:+ AxisRulesEngine.join " → "
                 (map AxisRulesEngine.describe
                      (AxisRulesEngine.sort_by_priority (rules cfg)))) LInfo) m).

(** [visits h todo st ic m apps st' m']: the loop over the rules [todo],
    started in the state [st] with the map [ic] and the instance [m],
    visited every rule in turn, made the applications [apps] in this
    order, and left the state [st'] and the instance [m'].  A rule whose
    condition is not met is skipped; one that has no [then] is logged as
    applied and leaves the state alone; every other one is applied to the
    state the rule before it left. *)
Inductive visits (h : Host)
  : list Rule -> obj -> gmap string string -> Machine ->
    list application -> obj -> Machine -> Prop :=
| visits_done st ic m : visits h [] st ic m [] st m
| visits_skipped rule todo st ic m m1 apps st' m' :
    AxisRulesEngine.evaluateCondition h (cond rule) st m = (Ret false, m1) ->
    visits h todo st ic
      (snd (AxisRulesEngine.log h
              ("Skipped: " +:+ name rule +:+ " (condition not met)") LInfo m1))
      apps st' m' ->
    visits h (rule :: todo) st ic m apps st' m'
| visits_idle rule todo st ic m m1 apps st' m' :
    AxisRulesEngine.evaluateCondition h (cond rule) st m = (Ret true, m1) ->
    then_ rule = None ->
    visits h todo st ic
      (snd (AxisRulesEngine.log h ("Applied: " +:+ name rule) LInfo m1))
      apps st' m' ->
    visits h (rule :: todo) st ic m apps st' m'
| visits_applied rule t todo st ic m m1 post fc ic1 m2 apps st' m' :
    AxisRulesEngine.evaluateCondition h (cond rule) st m = (Ret true, m1) ->
    then_ rule = Some t ->
    AxisRulesEngine.applyTransformationsWithTracking h st t (name rule) ic
      (snd (AxisRulesEngine.log h ("Applied: " +:+ name rule) LInfo m1))
    = (Ret (post, fc, ic1), m2) ->
    visits h todo post ic1 m2 apps st' m' ->
    visits h (rule :: todo) st ic m
      ({| applied_rule := rule; state_before := st; state_after := post |} :: apps)
      st' m'.

(** Two hosts that evaluate every expression alike, whatever their clocks
    and their random sources show. *)
Definition same_evaluation (h1 h2 : Host) : Prop :=
  forall params body args,
    call_new_Function h1 params body args = call_new_Function h2 params body args.

(** ** The scenarios of the specification *)

Module Scenario.

(** A host whose clock stands still. *)
Definition still : Host := MiniJS.host (fun _ => 0%Z) (fun _ => 0%Z).

(** A host whose clock shows another millisecond at every reading. *)
Definition ticking : Host := MiniJS.host (fun k => Z.of_nat k) (fun _ => 0%Z).

(** A host whose clock jumps to the next millisecond after the ninth
    reading. *)
Definition jumping : Host :=
  MiniJS.host (fun k => if Nat.ltb k 9 then 1000%Z else 1001%Z) (fun _ => 0%Z).

Definition double : Rule :=
  {| name := "double"; priority := Some 1%Z; cond := CStr "a < 10";
     then_ := Some [("a", VStr "{{ a * 2 }}")] |}.

Definition doubling : RulesConfig :=
  {| max_iterations := Some 10%Z; rules := [double] |}.

Definition r1 : Rule :=
  {| name := "r1"; priority := Some 1%Z; cond := CBool true;
     then_ := Some [("status", VStr "A")] |}.

Definition r2 : Rule :=
  {| name := "r2"; priority := Some 2%Z; cond := CBool true;
     then_ := Some [("status", VStr "B")] |}.

Definition clash : RulesConfig :=
  {| max_iterations := None; rules := [r1; r2] |}.

Definition status_conflict (i : nat) : ConflictEntry :=
  {| field := "status"; previousRule := "r1"; currentRule := "r2";
     resolution := "priority_override"; iteration := i |}.

(** Two rules that share a name and write the same field. *)
Definition twin (v : Z) : Rule :=
  {| name := "r"; priority := Some 1%Z; cond := CAbsent;
     then_ := Some [("x", VNum v)] |}.

Definition twins : RulesConfig :=
  {| max_iterations := None; rules := [twin 1; twin 1] |}.

Definition stamp : Rule :=
  {| name := "stamp"; priority := None; cond := CAbsent;
     then_ := Some [("t", VStr "{{timestamp()}}")] |}.

Definition stamping : RulesConfig :=
  {| max_iterations := None; rules := [stamp] |}.

Definition toggle : Rule :=
  {| name := "toggle"; priority := None; cond := CAbsent;
     then_ := Some [("on", VStr "{{ !on }}")] |}.

(** The cap written as zero. *)
Definition uncapped : RulesConfig :=
  {| max_iterations := Some 0%Z; rules := [toggle] |}.

(** A rule that hides the flattened key [a_b] behind an own property
    whose value is [undefined]. *)
Definition once : Rule :=
  {| name := "once"; priority := None; cond := CStr "a_b === 1";
     then_ := Some [("n", VStr "{{ n + 1 }}"); ("a_b", VStr "{{ undefined }}")] |}.

Definition counting : RulesConfig :=
  {| max_iterations := None; rules := [once] |}.

(** What the doubling scenario returns on the host [still]. *)
Definition doubled : Result :=
  match returned (AxisRulesEngine.apply still [("a", VNum 1)] doubling fresh) with
  | Some r => r
  | None =>
      {| input := []; output := []; iterations := 0; audit := []; conflicts := [];
         rulesApplied := []; engine_version := EmptyString |}
  end.

End Scenario.

(** ** Notions of the further properties *)

(** Two rules in the order the sort leaves them: by [priority || 999]. *)
Definition runs_before (a b : Rule) : Prop :=
  (AxisRulesEngine.effective_priority a <= AxisRulesEngine.effective_priority b)%Z.

(** [current[k1][k2]...] along [keys]. *)
Fixpoint get_path (current : value) (keys : list string) : value :=
  match keys with
  | [] => current
  | k :: rest => get_path (get_prop current k) rest
  end.

(** The node keeps what is assigned to its key [k]: it is an object, or
    an array and [k] an index. *)
Definition holds_property (node : value) (k : string) : bool :=
  match node with
  | VObj _ => true
  | VArr _ => match array_index k with Some _ => true | None => false end
  | _ => false
  end.

(** Every node [setNestedPath] assigns to on its way along [keys] keeps
    the assignment. *)
Fixpoint storable (current : value) (keys : list string) : bool :=
  match keys with
  | [] => true
  | [k] => holds_property current k
  | k :: rest =>
      holds_property current k &&
      let child := get_prop current k in
      storable (if negb (truthy child) || negb (typeof_object child) then VObj []
                else child) rest
  end.

(** [typeof v === 'object' && v !== null && !Array.isArray(v)] *)
Definition plain_object (v : value) : bool :=
  match v with
  | VObj _ => true
  | VHost u => host_is_object u
  | _ => false
  end.

Definition flat_entry (entry : string * value) : bool :=
  negb (JsString.includes "." (fst entry)) && negb (plain_object (snd entry)).

Definition is_hex (c : ascii) : bool :=
  existsb (Ascii.eqb c) (list_ascii_of_string "0123456789abcdef").

(** [u] is [pattern] with a hexadecimal digit for every [x] and one of
    [8], [9], [a], [b] for every [y]. *)
Fixpoint uuid_shaped (pattern u : string) : bool :=
  match pattern, u with
  | EmptyString, EmptyString => true
  | String p pattern', String c u' =>
      (if Ascii.eqb p "x" then is_hex c
       else if Ascii.eqb p "y" then existsb (Ascii.eqb c) (list_ascii_of_string "89ab")
       else Ascii.eqb c p)
      && uuid_shaped pattern' u'
  | _, _ => false
  end.

(** The number of characters of [pattern] that are replaced. *)
Fixpoint drawn (pattern : string) : nat :=
  match pattern with
  | EmptyString => 0
  | String c rest =>
      (if Ascii.eqb c "x" || Ascii.eqb c "y" then 1 else 0) + drawn rest
  end.

(** The paths the rules of [l] write, rule after rule. *)
Definition written_paths (l : list Rule) : list string :=
  flat_map (fun r => map fst (rule_writes r)) l.

(** A rule of [l] with the name [ruleName] has [p] among the paths of
    its [then]. *)
Definition writes_path (l : list Rule) (ruleName p : string) : Prop :=
  exists r t, In r l /\ name r = ruleName /\ then_ r = Some t /\ In p (obj_keys t).

(** A conflict entry that tells the truth: its iteration is one of the
    sweeps after [lo] up to [hi], and the two rules it names are rules of
    [l] that have its field among the paths of their [then]. *)
Definition sound_conflict (l : list Rule) (lo hi : nat) (e : ConflictEntry) : Prop :=
  lo < iteration e <= hi /\
  resolution e = "priority_override" /\
  writes_path l (previousRule e) (field e) /\
  writes_path l (currentRule e) (field e).

Definition named_in (l : list Rule) (x : string) : Prop :=
  exists r, In r l /\ name r = x.

(** No condition of the rules holds on the state. *)
Definition none_holds (h : Host) (l : list Rule) (st : obj) : Prop :=
  Forall (fun r => holds h (cond r) st = false) l.

(** Every rule of [l] has no condition, or one that [!condition] takes
    for none. *)
Definition unconditional (l : list Rule) : Prop :=
  Forall (fun r => AxisRulesEngine.falsy (cond r) = true) l.

(** The value of the characters of [str] as digits in base 31, after the
    digits [acc]. *)
Fixpoint base31 (str : string) (acc : Z) : Z :=
  match str with
  | EmptyString => acc
  | String c str' => base31 str' (31 * acc + Z.of_nat (nat_of_ascii c))
  end.

(** What [validate] asks of a single rule: a name, a priority that is
    not negative, a condition that compiles, and a [then] or an [else]. *)
Definition acceptable (syntax_error : string -> option string)
    (c : AxisRulesEngine.Clause) : Prop :=
  let r := AxisRulesEngine.rule_of c in
  name r <> "" /\
  match priority r with
  | Some p => (0 <= p)%Z
  | None => True
  end /\
  (AxisRulesEngine.falsy (cond r) = false ->
   syntax_error ("return " +:+ AxisRulesEngine.condition_text (cond r)) = None) /\
  (then_ r <> None \/ AxisRulesEngine.else_ c <> None).

Definition names_of (l : list AxisRulesEngine.Clause) : list string :=
  map (fun c => name (AxisRulesEngine.rule_of c)) l.

(** The syntax check of MiniJS: it reads the body or refuses it. *)
Definition MiniJS_syntax_error (body : string) : option string :=
  match MiniJS.parse_body body with
  | Some _ => None
  | None => Some "SyntaxError"
  end.

(** ['ok' < 'warning' < 'critical'] *)
Definition severity (status : string) : nat :=
  if String.eqb status "critical" then 2
  else if String.eqb status "warning" then 1
  else 0.

(** A threshold that bounds the reading from above only, and whose
    [warnAbove] is not above its [critical]. *)
Definition upper_bounds_only (t : SPCEngine.Threshold) : Prop :=
  SPCEngine.below t = None /\ SPCEngine.warnBelow t = None /\
  forall w c, SPCEngine.warnAbove t = Some w -> SPCEngine.critical t = Some c ->
              (w <= c)%Z.

(** * Properties *)

(** ** Objects *)

Lemma obj_get_set_eq (k : string) (v : value) (o : obj) :
  obj_get k (obj_set k v o) = Some v.
Proof.
  induction o as [| [k' v'] o IH]; simpl.
  - rewrite String.eqb_refl. reflexivity.
  - destruct (String.eqb k k') eqn:E; simpl.
    + rewrite String.eqb_refl. reflexivity.
    + rewrite E. exact IH.
Qed.

Lemma obj_get_set_ne (k k' : string) (v : value) (o : obj) :
  k <> k' -> obj_get k (obj_set k' v o) = obj_get k o.
Proof.
  intros Hne. induction o as [| [k'' v''] o IH]; simpl.
  - destruct (String.eqb k k') eqn:E; [| reflexivity].
    apply String.eqb_eq in E. contradiction.
  - destruct (String.eqb k' k'') eqn:E; simpl.
    + apply String.eqb_eq in E. subst k''.
      destruct (String.eqb k k') eqn:E'; [| reflexivity].
      apply String.eqb_eq in E'. contradiction.
    + rewrite IH. reflexivity.
Qed.

(** ** Values: induction through arrays and objects *)

Section value_induction.

Variable P : value -> Prop.
Hypothesis Pundef : P VUndef.
Hypothesis Pnull : P VNull.
Hypothesis Pbool : forall b, P (VBool b).
Hypothesis Pnum : forall n, P (VNum n).
Hypothesis Pstr : forall s, P (VStr s).
Hypothesis Phost : forall u, P (VHost u).
Hypothesis Parr : forall xs, Forall P xs -> P (VArr xs).
Hypothesis Pobj : forall kvs, Forall (fun kv => P (snd kv)) kvs -> P (VObj kvs).

Fixpoint value_nested_ind (v : value) : P v :=
  match v with
  | VUndef => Pundef
  | VNull => Pnull
  | VBool b => Pbool b
  | VNum n => Pnum n
  | VStr s => Pstr s
  | VHost u => Phost u
  | VArr xs =>
      Parr xs
        ((fix all (l : list value) : Forall P l :=
            match l with
            | [] => @List.Forall_nil _ P
            | x :: l' => @List.Forall_cons _ P x l' (value_nested_ind x) (all l')
            end) xs)
  | VObj kvs =>
      Pobj kvs
        ((fix all (l : list (string * value)) : Forall (fun kv => P (snd kv)) l :=
            match l with
            | [] => @List.Forall_nil _ _
            | kv :: l' =>
                @List.Forall_cons _ (fun kv => P (snd kv)) kv l'
                  (value_nested_ind (snd kv)) (all l')
            end) kvs)
  end.

End value_induction.

Lemma value_eqb_refl (v : value) : value_eqb v v = true.
Proof.
  induction v as [| | b | n | s | u | xs IH | kvs IH] using value_nested_ind;
    simpl; try reflexivity.
  - apply Bool.eqb_reflx.
  - apply Z.eqb_refl.
  - apply String.eqb_refl.
  - apply String.eqb_refl.
  - induction IH as [| x l Hx _ IHl]; [reflexivity |].
    rewrite Hx. exact IHl.
  - induction IH as [| [k x] l Hx _ IHl]; [reflexivity |].
    simpl in Hx. rewrite String.eqb_refl, Hx. exact IHl.
Qed.

Lemma value_eqb_eq (a b : value) : value_eqb a b = true -> a = b.
Proof.
  revert b.
  induction a as [| | x | x | x | x | xs IH | kvs IH] using value_nested_ind;
    intros b Hab; destruct b; simpl in Hab; try discriminate; try reflexivity.
  - apply Bool.eqb_prop in Hab. congruence.
  - apply Z.eqb_eq in Hab. congruence.
  - apply String.eqb_eq in Hab. congruence.
  - apply String.eqb_eq in Hab. congruence.
  - f_equal. revert xs0 Hab.
    induction IH as [| x l Hx _ IHl]; intros [| y r] Hab;
      try discriminate; [reflexivity |].
    apply andb_true_iff in Hab as [Hxy Hlr].
    f_equal; [apply Hx, Hxy | apply IHl, Hlr].
  - f_equal. revert kvs0 Hab.
    induction IH as [| [k x] l Hx _ IHl]; intros [| [k' y] r] Hab;
      try discriminate; [reflexivity |].
    apply andb_true_iff in Hab as [Hab Hlr].
    apply andb_true_iff in Hab as [Hk Hxy].
    apply String.eqb_eq in Hk. simpl in Hx.
    f_equal; [f_equal; [exact Hk | apply Hx, Hxy] | apply IHl, Hlr].
Qed.

Lemma text_eqb_eq (a b : obj) : text_eqb a b = true -> a = b.
Proof.
  unfold text_eqb. intros H. apply value_eqb_eq in H. congruence.
Qed.

Lemma text_eqb_refl (a : obj) : text_eqb a a = true.
Proof. apply value_eqb_refl. Qed.

(** What [JSON.stringify] wrote is written again unchanged. *)
Lemma json_value_fixed (v j : value) :
  json_value v = Some j -> json_value j = Some j.
Proof.
  revert j.
  induction v as [| | b | n | s | u | xs IH | kvs IH] using value_nested_ind;
    intros j Hj; simpl in Hj; try discriminate;
    try (injection Hj as <-; reflexivity).
  - destruct (host_is_object u); [| discriminate].
    injection Hj as <-. reflexivity.
  - injection Hj as <-. simpl. do 2 f_equal.
    induction IH as [| x l Hx _ IHl]; [reflexivity |].
    rewrite IHl. f_equal.
    destruct (json_value x) as [j |] eqn:E.
    + rewrite (Hx j eq_refl). reflexivity.
    + reflexivity.
  - injection Hj as <-. simpl. do 2 f_equal.
    induction IH as [| [k x] l Hx _ IHl]; [reflexivity |].
    simpl in Hx. destruct (json_value x) as [j |] eqn:E.
    + rewrite (Hx j eq_refl), IHl. reflexivity.
    + exact IHl.
Qed.

Lemma json_props_fixed (o : obj) : json_props (json_props o) = json_props o.
Proof.
  induction o as [| [k x] o IH]; simpl; [reflexivity |].
  destruct (json_value x) as [j |] eqn:E; simpl.
  - rewrite (json_value_fixed x j E), IH. reflexivity.
  - exact IH.
Qed.

(** The deep copy [apply] takes of its input is a JSON state. *)
Lemma json_state_copy (o : obj) : json_state (JSON_parse (JSON_stringify o)).
Proof. unfold json_state, JSON_parse, JSON_stringify. apply json_props_fixed. Qed.

(** ** The audit trail and the names read off it *)

Lemma applied_of_app (l l' : list AuditEntry) :
  applied_of (l ++ l') = (applied_of l ++ applied_of l')%list.
Proof. unfold applied_of. rewrite List.filter_app, List.map_app. reflexivity. Qed.

Lemma prefix_append (p x : string) : String.prefix p (p +:+ x) = true.
Proof.
  induction p as [| c p IH]; simpl.
  - destruct x; reflexivity.
  - unfold append; fold append. simpl.
    destruct (ascii_dec c c) as [_ | Hne]; [exact IH | contradiction].
Qed.

Lemma drop_append (p x : string) : JsString.drop (String.length p) (p +:+ x) = x.
Proof.
  induction p as [| c p IH]; simpl.
  - destruct x; reflexivity.
  - unfold append; fold append. exact IH.
Qed.

Lemma replace_first_prefix (p r x : string) :
  JsString.replace_first p r (p +:+ x) = r +:+ x.
Proof.
  destruct p as [| c p].
  - simpl. destruct x; reflexivity.
  - change (JsString.replace_first (String c p) r (String c p +:+ x))
      with (if String.prefix (String c p) (String c p +:+ x)
            then r +:+ JsString.drop (String.length (String c p)) (String c p +:+ x)
            else String c (JsString.replace_first (String c p) r (p +:+ x))).
    rewrite prefix_append, drop_append. reflexivity.
Qed.

(** Removing the prefix gives the name back, whatever the name is. *)
Lemma applied_of_applied (t : string) (lvl : Level) (x : string) :
  applied_of [{| timestamp := t; level := lvl; message := "Applied: " +:+ x |}] = [x].
Proof.
  assert (E : JsString.startsWith "Applied:" ("Applied: " +:+ x) = true)
    by reflexivity.
  unfold applied_of. cbn -[JsString.replace_first JsString.startsWith].
  rewrite E. cbn -[JsString.replace_first].
  rewrite replace_first_prefix. reflexivity.
Qed.

Lemma quiet_refl (m : Machine) : quiet m m.
Proof. repeat split. Qed.

Section EngineFacts.

Context (h : Host).

Lemma log_run (msg : string) (lvl : Level) (m : Machine) :
  AxisRulesEngine.log h msg lvl m =
  (Ret tt,
   {| auditTrail :=
        (auditTrail m ++
         [{| timestamp := toISOString h (clock h (clock_reads m));
             level := lvl; message := msg |}])%list;
      conflictLog := conflictLog m;
      currentIteration := currentIteration m;
      clock_reads := S (clock_reads m);
      random_draws := random_draws m |}).
Proof. reflexivity. Qed.

Lemma uuid_replace_quiet (pattern : string) (m : Machine) :
  exists u m', AxisRulesEngine.uuid_replace h pattern m = (Ret u, m') /\ quiet m m'.
Proof.
  revert m. induction pattern as [| c rest IH]; intros m; simpl.
  - exists EmptyString, m. split; [reflexivity | apply quiet_refl].
  - destruct (Ascii.eqb c "x" || Ascii.eqb c "y").
    + unfold bind, AxisRulesEngine.draw_nibble.
      match goal with
      | |- context [AxisRulesEngine.uuid_replace h rest ?m1] =>
          destruct (IH m1) as (u & m' & Hrun & Hq)
      end.
      rewrite Hrun.
      eexists _, m'. split; [reflexivity |]. exact Hq.
    + destruct (IH m) as (u & m' & Hrun & Hq).
      unfold bind. rewrite Hrun. simpl.
      eexists _, m'. split; [reflexivity |]. exact Hq.
Qed.

(** The verdict of [evaluateCondition] is a function of the condition
    and the state; the method returns it and is quiet. *)
Lemma evaluateCondition_run (c : condition) (st : obj) (m : Machine) :
  exists m',
    AxisRulesEngine.evaluateCondition h c st m = (Ret (holds h c st), m') /\
    quiet m m'.
Proof.
  unfold AxisRulesEngine.evaluateCondition, holds.
  destruct (AxisRulesEngine.falsy c).
  - exists m. split; [reflexivity | apply quiet_refl].
  - unfold try_catch, bind, AxisRulesEngine.call_function.
    destruct (call_new_Function h _ _ _) as [v | e]; simpl.
    + exists m. split; [reflexivity | apply quiet_refl].
    + eexists. split; [reflexivity |].
      repeat split; simpl.
      rewrite applied_of_app. apply app_nil_r.
Qed.

(** [resolveValue] returns and is quiet; when the value is no clock or
    random builtin, what it returns is a function of the state. *)
Lemma resolveValue_run (v : value) (st : obj) (m : Machine) :
  exists r m',
    AxisRulesEngine.resolveValue h v st m = (Ret r, m') /\
    quiet m m' /\
    (value_uses_builtin v = false -> r = resolved h v st).
Proof.
  destruct v as [| | b | n | t | xs | kvs | u];
    try (eexists _, m; split; [reflexivity | split; [apply quiet_refl | reflexivity]]).
  unfold AxisRulesEngine.resolveValue, resolved, value_uses_builtin, wrapped.
  fold (expression_of t).
  destruct (JsString.includes "{{" t && JsString.includes "}}" t);
    [| eexists _, m; split; [reflexivity | split; [apply quiet_refl | reflexivity]]].
  unfold is_builtin, try_catch.
  destruct (String.eqb (expression_of t) "now()").
  { eexists _, _. split; [reflexivity |].
    split; [repeat split | discriminate]. }
  destruct (String.eqb (expression_of t) "timestamp()").
  { eexists _, _. split; [reflexivity |].
    split; [repeat split | discriminate]. }
  destruct (String.eqb (expression_of t) "uuid()").
  { destruct (uuid_replace_quiet "xxxxxxxx-xxxx-4xxx-yxxx-xxxxxxxxxxxx" m)
      as (u & m' & Hrun & Hq).
    unfold bind. rewrite Hrun. simpl.
    eexists _, _. split; [reflexivity |].
    split; [exact Hq | discriminate]. }
  unfold AxisRulesEngine.call_function.
  destruct (call_new_Function h _ _ _) as [r | e]; simpl.
  - eexists _, m. split; [reflexivity |].
    split; [apply quiet_refl | reflexivity].
  - eexists _, _. split; [reflexivity |].
    split; [| reflexivity].
    repeat split; simpl.
    rewrite applied_of_app. apply app_nil_r.
Qed.

End EngineFacts.

(** ** The write log *)

Lemma last_writer_snoc (q p r : string) (ws : list write) :
  last_writer q (ws ++ [(p, r)]) =
  if String.eqb q p then Some r else last_writer q ws.
Proof.
  induction ws as [| [p' r'] ws IH]; simpl.
  - reflexivity.
  - rewrite IH. destruct (String.eqb q p); [reflexivity |].
    destruct (last_writer q ws); reflexivity.
Qed.

Lemma tracks_empty : tracks ∅ [].
Proof. intros p. simpl. apply lookup_empty. Qed.

Lemma tracks_insert (ic : gmap string string) (ws : list write) (p r : string) :
  tracks ic ws -> tracks (<[p := r]> ic) (ws ++ [(p, r)]).
Proof.
  intros Hic q. rewrite last_writer_snoc.
  destruct (String.eqb q p) eqn:E.
  - apply String.eqb_eq in E. subst q. apply lookup_insert_eq.
  - apply String.eqb_neq in E. rewrite lookup_insert_ne by congruence. apply Hic.
Qed.

Lemma conflicts_written_app (it : nat) (new new' : list write) :
  forall ws,
    conflicts_written it ws (new ++ new')
    = (conflicts_written it ws new ++ conflicts_written it (ws ++ new) new')%list.
Proof.
  induction new as [| [p r] new IH]; intros ws; simpl.
  - rewrite app_nil_r. reflexivity.
  - rewrite IH, <- !app_assoc. reflexivity.
Qed.

Lemma last_writer_in (p r : string) (ws : list write) :
  last_writer p ws = Some r -> In (p, r) ws.
Proof.
  induction ws as [| [p' r'] ws IH]; simpl; [discriminate |].
  destruct (last_writer p ws) as [r0 |].
  - intros H. right. apply IH. exact H.
  - destruct (String.eqb_spec p p') as [-> | Hne]; [| discriminate].
    intros H. injection H as ->. left. reflexivity.
Qed.

Lemma last_writer_none (p : string) (ws : list write) :
  ~ In p (map fst ws) -> last_writer p ws = None.
Proof.
  induction ws as [| [p' r'] ws IH]; simpl; intros Hnot; [reflexivity |].
  rewrite IH by tauto.
  destruct (String.eqb_spec p p') as [-> | Hne]; [tauto | reflexivity].
Qed.

(** The writer the map holds for a path is the last one in the log. *)
Lemma last_writer_last (p r : string) (ws : list write) :
  last_writer p ws = Some r ->
  exists before after,
    ws = (before ++ (p, r) :: after)%list /\ ~ In p (map fst after).
Proof.
  induction ws as [| [p' r'] ws IH]; simpl; [discriminate |].
  destruct (last_writer p ws) as [r0 |] eqn:Hlast.
  - intros H. destruct (IH H) as (before & after & -> & Hafter).
    exists ((p', r') :: before), after. split; [reflexivity | exact Hafter].
  - destruct (String.eqb_spec p p') as [-> | Hne]; [| discriminate].
    intros H. injection H as ->. exists [], ws. split; [reflexivity |].
    intros Hin. clear IH. induction ws as [| [q x] ws IHws]; [destruct Hin |].
    simpl in Hlast, Hin.
    destruct (last_writer p' ws) as [y |]; [discriminate |].
    destruct (String.eqb_spec p' q) as [-> | Hq]; [discriminate |].
    destruct Hin as [Heq | Hin]; [congruence | apply IHws; auto].
Qed.

Lemma last_writer_some (p : string) (ws : list write) :
  In p (map fst ws) -> exists r, last_writer p ws = Some r.
Proof.
  induction ws as [| [p' r'] ws IH]; simpl; [intros [] |].
  intros [<- | Hin].
  - destruct (last_writer p' ws) as [r0 |]; [eauto |].
    rewrite String.eqb_refl. eauto.
  - destruct (IH Hin) as [r ->]. eauto.
Qed.

Section RuleFacts.

Context (h : Host).

(** One entry of a [then]: the value is resolved, a conflict entry is
    appended when the map knows the path, the map and the state are
    updated in every case. *)
Lemma transform_entry_run (ruleName p : string) (v : value) (st : obj)
    (fc : list string) (ic : gmap string string) (m : Machine) :
  exists r m1 m',
    AxisRulesEngine.resolveValue h v st m = (Ret r, m1) /\
    (value_uses_builtin v = false -> r = resolved h v st) /\
    AxisRulesEngine.transform_entry h ruleName (p, v) (st, fc, ic) m =
      (Ret (AxisRulesEngine.setNestedPath st p r, (fc ++ [p])%list,
            <[p := ruleName]> ic), m') /\
    conflictLog m' =
      (conflictLog m ++
       match ic !! p with
       | Some previous =>
           [{| field := p; previousRule := previous; currentRule := ruleName;
               resolution := "priority_override";
               iteration := currentIteration m |}]
       | None => []
       end)%list /\
    currentIteration m' = currentIteration m /\
    applied_of (auditTrail m') = applied_of (auditTrail m).
Proof.
  destruct (resolveValue_run h v st m) as (r & m1 & Hrun & (Hc & Hi & Ha) & Hres).
  exists r, m1.
  unfold AxisRulesEngine.transform_entry, bind. rewrite Hrun.
  destruct (ic !! p) as [previous |]; simpl.
  - eexists. split; [reflexivity |]. split; [exact Hres |].
    split; [reflexivity |]. simpl.
    rewrite Hc, Hi. repeat split.
    rewrite applied_of_app, Ha. apply app_nil_r.
  - exists m1. split; [reflexivity |]. split; [exact Hres |].
    split; [reflexivity |].
    rewrite Hc, app_nil_r. repeat split; assumption.
Qed.

Lemma transform_entries_run (ruleName : string) (entries : list (string * value)) :
  forall (st : obj) (fc : list string) (ic : gmap string string) (m : Machine),
  exists st' ic' m',
    AxisRulesEngine.transform_entries h ruleName entries (st, fc, ic) m =
      (Ret (st', (fc ++ map fst entries)%list, ic'), m') /\
    currentIteration m' = currentIteration m /\
    applied_of (auditTrail m') = applied_of (auditTrail m) /\
    (forall ws, tracks ic ws ->
       tracks ic' (ws ++ writes_of ruleName entries) /\
       conflictLog m' =
         (conflictLog m ++
          conflicts_written (currentIteration m) ws (writes_of ruleName entries))%list) /\
    (forallb (fun entry => negb (value_uses_builtin (snd entry))) entries = true ->
     st' = entries_written h entries st).
Proof.
  induction entries as [| [p v] entries IH]; intros st fc ic m.
  - exists st, ic, m. simpl. rewrite app_nil_r.
    split; [reflexivity |]. split; [reflexivity |]. split; [reflexivity |].
    split; [| reflexivity].
    intros ws Hws. rewrite !app_nil_r. split; [exact Hws | reflexivity].
  - destruct (transform_entry_run ruleName p v st fc ic m)
      as (r & m1 & m2 & _ & Hres & Hrun & Hc & Hi & Ha).
    destruct (IH (AxisRulesEngine.setNestedPath st p r) (fc ++ [p])%list
                 (<[p := ruleName]> ic) m2)
      as (st' & ic' & m' & Hrun' & Hi' & Ha' & Hws' & Hres').
    exists st', ic', m'.
    split.
    { change (AxisRulesEngine.transform_entries h ruleName ((p, v) :: entries)
                (st, fc, ic) m)
        with (bind (AxisRulesEngine.transform_entry h ruleName (p, v) (st, fc, ic))
                (AxisRulesEngine.transform_entries h ruleName entries) m).
      unfold bind. rewrite Hrun, Hrun'.
      simpl. rewrite <- app_assoc. reflexivity. }
    split; [congruence |]. split; [congruence |]. split.
    + intros ws Hws.
      destruct (Hws' (ws ++ [(p, ruleName)])%list (tracks_insert ic ws p ruleName Hws))
        as [Htr Hlog].
      unfold writes_of in *. simpl. rewrite <- app_assoc in Htr.
      split; [exact Htr |].
      rewrite Hlog, Hc, Hi, <- app_assoc. f_equal. f_equal.
      unfold conflict_if_written. rewrite <- (Hws p). reflexivity.
    + simpl. intros Hfree. apply andb_true_iff in Hfree as [Hv Hrest].
      apply negb_true_iff in Hv.
      rewrite (Hres Hv) in Hres'. apply Hres', Hrest.
Qed.

End RuleFacts.

(** ** The loop over the rules, the sweep and the while loop *)

Lemma existsb_false_forallb {A : Type} (f : A -> bool) (l : list A) :
  existsb f l = false -> forallb (fun x => negb (f x)) l = true.
Proof.
  induction l as [| x l IH]; simpl; [reflexivity |].
  intros H. apply orb_false_iff in H as [Hx Hl].
  rewrite Hx, (IH Hl). reflexivity.
Qed.

Section LoopFacts.

Context (h : Host).

Lemma applyTransformationsWithTracking_run (st : obj) (t : obj) (ruleName : string)
    (ic : gmap string string) (m : Machine) :
  exists st' ic' m',
    AxisRulesEngine.applyTransformationsWithTracking h st t ruleName ic m =
      (Ret (st', map fst t, ic'), m') /\
    currentIteration m' = currentIteration m /\
    applied_of (auditTrail m') = applied_of (auditTrail m) /\
    (forall ws, tracks ic ws ->
       tracks ic' (ws ++ writes_of ruleName t) /\
       conflictLog m' =
         (conflictLog m ++
          conflicts_written (currentIteration m) ws (writes_of ruleName t))%list) /\
    (forallb (fun entry => negb (value_uses_builtin (snd entry))) t = true ->
     st' = entries_written h t (JSON_parse (JSON_stringify st))).
Proof.
  unfold AxisRulesEngine.applyTransformationsWithTracking.
  apply (transform_entries_run h ruleName t (JSON_parse (JSON_stringify st)) [] ic m).
Qed.

(** The loop over the rules returns.  It never clears the flag; when
    the flag is clear at the end, no rule changed the serialised state.
    Without clock and random builtins it computes [after_rules] and logs
    the rules of [fired] as applied. *)
Lemma for_each_rule_run (todo : list Rule) :
  forall (st : obj) (ch : bool) (ic : gmap string string) (m : Machine),
  exists st' ch' m',
    AxisRulesEngine.for_each_rule h todo st ch ic m = (Ret (st', ch'), m') /\
    currentIteration m' = currentIteration m /\
    (ch' = false -> ch = false /\ JSON_stringify st' = JSON_stringify st) /\
    (builtin_free todo = true ->
     (st', ch') = after_rules h todo st ch /\
     applied_of (auditTrail m') = (applied_of (auditTrail m) ++ fired h todo st)%list).
Proof.
  induction todo as [| rule todo IH]; intros st ch ic m.
  - exists st, ch, m. simpl. rewrite app_nil_r. repeat split; auto.
  - cbn [AxisRulesEngine.for_each_rule]. unfold bind at 1.
    destruct (evaluateCondition_run h (cond rule) st m) as (m1 & Hcond & Hc1 & Hi1 & Ha1).
    rewrite Hcond. cbv beta iota.
    cbn [after_rules fired builtin_free forallb].
    unfold after_rule, rule_changes.
    destruct (holds h (cond rule) st) eqn:Hholds.
    + unfold bind at 1. rewrite log_run. cbv beta iota.
      match goal with
      | |- context [match then_ rule with _ => _ end ?m2] => set (m2' := m2)
      end.
      assert (Ha2 : applied_of (auditTrail m2')
                    = (applied_of (auditTrail m) ++ [name rule])%list).
      { subst m2'. cbn [auditTrail]. rewrite applied_of_app, applied_of_applied, Ha1.
        reflexivity. }
      assert (Hi2 : currentIteration m2' = currentIteration m) by exact Hi1.
      clearbody m2'.
      unfold rule_uses_builtin.
      destruct (then_ rule) as [t |] eqn:Hthen.
      * unfold bind at 1.
        destruct (applyTransformationsWithTracking_run st t (name rule) ic m2')
          as (st1 & ic1 & m3 & Hrun & Hi3 & Ha3 & _ & Hread).
        rewrite Hrun. cbv beta iota.
        destruct (IH st1
                    (if negb (text_eqb (JSON_stringify st) (JSON_stringify st1))
                     then true else ch) ic1 m3)
          as (st' & ch' & m' & Hrest & Hi' & Hflag & Hread').
        exists st', ch', m'.
        split; [exact Hrest |]. split; [congruence |]. split.
        -- intros Hch'. destruct (Hflag Hch') as [Hif Hsame].
           destruct (text_eqb (JSON_stringify st) (JSON_stringify st1)) eqn:E;
             simpl in Hif; [| discriminate].
           apply text_eqb_eq in E. split; [exact Hif | congruence].
        -- intros Hfree. apply andb_true_iff in Hfree as [Hrule Hfree].
           apply negb_true_iff in Hrule.
           pose proof (Hread (existsb_false_forallb _ _ Hrule)) as Hst1.
           subst st1. destruct (Hread' Hfree) as [Hafter Hnames].
           split.
           ++ rewrite Hafter. unfold after_rule. rewrite Hholds, Hthen.
              reflexivity.
           ++ rewrite Hnames, Ha3, Ha2, <- app_assoc. reflexivity.
      * destruct (IH st ch ic m2') as (st' & ch' & m' & Hrest & Hi' & Hflag & Hread').
        exists st', ch', m'.
        split; [exact Hrest |]. split; [congruence |]. split; [exact Hflag |].
        intros Hfree. apply andb_true_iff in Hfree as [_ Hfree].
        destruct (Hread' Hfree) as [Hafter Hnames].
        split; [exact Hafter |].
        rewrite Hnames, Ha2, <- app_assoc. reflexivity.
    + unfold bind at 1. rewrite log_run. cbv beta iota.
      match goal with
      | |- context [AxisRulesEngine.for_each_rule h todo st ch ic ?m2] =>
          set (m2' := m2)
      end.
      assert (Ha2 : applied_of (auditTrail m2') = applied_of (auditTrail m)).
      { subst m2'. cbn [auditTrail]. rewrite applied_of_app, Ha1. apply app_nil_r. }
      assert (Hi2 : currentIteration m2' = currentIteration m) by exact Hi1.
      clearbody m2'.
      destruct (IH st ch ic m2') as (st' & ch' & m' & Hrest & Hi' & Hflag & Hread').
      exists st', ch', m'.
      split; [exact Hrest |]. split; [congruence |]. split; [exact Hflag |].
      intros Hfree. apply andb_true_iff in Hfree as [_ Hfree].
      destruct (Hread' Hfree) as [Hafter Hnames].
      split; [exact Hafter |].
      rewrite Hnames, Ha2. reflexivity.
Qed.

Lemma sweep_run (sortedRules : list Rule) (n : nat) (st : obj) (m : Machine) :
  exists st' ch' m',
    AxisRulesEngine.sweep h sortedRules n st m = (Ret (st', ch'), m') /\
    (ch' = false -> JSON_stringify st' = JSON_stringify st) /\
    (builtin_free sortedRules = true ->
     (st', ch') = after_rules h sortedRules st false /\
     applied_of (auditTrail m') =
       (applied_of (auditTrail m) ++ fired h sortedRules st)%list).
Proof.
  unfold AxisRulesEngine.sweep, AxisRulesEngine.set_currentIteration, modify.
  unfold bind at 1. cbv beta iota.
  unfold bind at 1. rewrite log_run. cbv beta iota.
  unfold bind at 1.
  match goal with
  | |- context [AxisRulesEngine.for_each_rule h sortedRules st false ∅ ?m1] =>
      destruct (for_each_rule_run sortedRules st false ∅ m1)
        as (st' & ch' & m' & Hrun & _ & Hflag & Hread);
      assert (Ha1 : applied_of (auditTrail m1) = applied_of (auditTrail m))
        by (cbn [auditTrail]; rewrite applied_of_app; apply app_nil_r)
  end.
  rewrite Hrun. cbv beta iota.
  unfold bind at 1, gets at 1. cbv beta iota.
  exists st', ch'.
  destruct (Nat.ltb 0 (length (conflictLog m'))).
  - unfold when, bind. rewrite log_run. cbv beta iota.
    eexists. split; [reflexivity |]. split; [apply Hflag |].
    intros Hfree. destruct (Hread Hfree) as [Hafter Hnames].
    split; [exact Hafter |].
    cbn [auditTrail]. rewrite applied_of_app, Hnames, Ha1. apply app_nil_r.
  - exists m'. split; [reflexivity |]. split; [apply Hflag |].
    intros Hfree. destruct (Hread Hfree) as [Hafter Hnames].
    split; [exact Hafter |]. rewrite Hnames, Ha1. reflexivity.
Qed.

Lemma while_loop_unchanged (sortedRules : list Rule) (remaining it : nat)
    (st : obj) (m : Machine) :
  AxisRulesEngine.while_loop h sortedRules remaining it false st m
  = (Ret (it, st), m).
Proof. destruct remaining; reflexivity. Qed.

(** The loop runs sweeps while they report a change and the cap leaves
    room. *)
Lemma while_loop_sweeps (sortedRules : list Rule) (remaining : nat) :
  forall (it : nat) (st : obj) (m : Machine) (st0 : obj) (m0 : Machine),
    sweeps h sortedRules it st0 m0 true st m ->
    exists n st' m' c,
      AxisRulesEngine.while_loop h sortedRules remaining it true st m
        = (Ret (n, st'), m') /\
      sweeps h sortedRules n st0 m0 c st' m' /\
      it <= n /\ n <= it + remaining /\
      (n < it + remaining -> c = false).
Proof.
  induction remaining as [| remaining IH]; intros it st m st0 m0 Hsw.
  - exists it, st, m, true. split; [reflexivity |].
    split; [exact Hsw |]. repeat split; lia.
  - cbn [AxisRulesEngine.while_loop]. unfold bind.
    destruct (sweep_run sortedRules (S it) st m) as (st1 & c1 & m1 & Hrun & _).
    rewrite Hrun. cbv beta iota. cbn [fst snd].
    pose proof (sweeps_more h sortedRules it st0 m0 st m st1 c1 m1 Hsw Hrun) as Hsw1.
    destruct c1.
    + destruct (IH (S it) st1 m1 st0 m0 Hsw1) as (n & st' & m' & c & Hloop & Hsw' & Hle & Hcap & Hc).
      exists n, st', m', c. split; [exact Hloop |]. split; [exact Hsw' |].
      repeat split; try lia. intros Hlt. apply Hc. lia.
    + rewrite while_loop_unchanged.
      exists (S it), st1, m1, false. split; [reflexivity |].
      split; [exact Hsw1 |]. repeat split; lia.
Qed.

(** Without clock and random builtins the loop computes [after_loop]. *)
Lemma while_loop_reading (sortedRules : list Rule) (remaining : nat) :
  builtin_free sortedRules = true ->
  forall (it : nat) (ch : bool) (st : obj) (m : Machine),
  exists m',
    AxisRulesEngine.while_loop h sortedRules remaining it ch st m
      = (Ret (fst (after_loop h sortedRules remaining it ch st)), m') /\
    applied_of (auditTrail m') =
      (applied_of (auditTrail m)
       ++ snd (after_loop h sortedRules remaining it ch st))%list.
Proof.
  intros Hfree.
  induction remaining as [| remaining IH]; intros it ch st m.
  - exists m. simpl. rewrite app_nil_r. split; reflexivity.
  - cbn [AxisRulesEngine.while_loop after_loop]. destruct ch.
    + unfold bind.
      destruct (sweep_run sortedRules (S it) st m) as (st1 & c1 & m1 & Hrun & _ & Hread).
      rewrite Hrun. cbv beta iota. cbn [fst snd].
      destruct (Hread Hfree) as [Hafter Hnames]. rewrite <- Hafter. cbn [fst snd].
      destruct (IH (S it) c1 st1 m1) as (m' & Hloop & Hnames').
      exists m'. rewrite Hloop.
      destruct (after_loop h sortedRules remaining (S it) c1 st1) as [[n st'] names].
      cbn [fst snd] in *. split; [reflexivity |].
      rewrite Hnames', Hnames, <- app_assoc. reflexivity.
    + exists m. simpl. rewrite app_nil_r. split; reflexivity.
Qed.

(** [apply] around its loop: what the result holds once the loop has
    returned. *)
Lemma apply_run (inputData : obj) (cfg : RulesConfig) (m : Machine) :
  exists m0,
    m0 = run_start h cfg m /\
    applied_of (auditTrail m0) = [] /\
    forall n st' m1,
      AxisRulesEngine.while_loop h
        (AxisRulesEngine.sort_by_priority (rules cfg))
        (Z.to_nat (AxisRulesEngine.maxIterations cfg)) 0 true
        (JSON_parse (JSON_stringify inputData)) m0 = (Ret (n, st'), m1) ->
      exists r m2,
        AxisRulesEngine.apply h inputData cfg m = (Ret r, m2) /\
        input r = inputData /\ output r = st' /\ iterations r = n /\
        conflicts r = conflictLog m1 /\
        rulesApplied r = applied_of (auditTrail m1) /\
        ((AxisRulesEngine.maxIterations cfg <= Z.of_nat n)%Z ->
         exists e, In e (audit r) /\ level e = LWarning /\
                   message e = "Stopped at max iterations: "
                               +:+ pretty (AxisRulesEngine.maxIterations cfg)).
Proof.
  unfold AxisRulesEngine.apply, AxisRulesEngine.reset, modify.
  unfold bind at 1. cbv beta iota.
  unfold bind at 1. rewrite log_run. cbv beta iota.
  unfold bind at 1. rewrite log_run. cbv beta iota.
  unfold bind at 1. rewrite log_run. cbv beta iota.
  unfold bind at 1.
  match goal with
  | |- context [AxisRulesEngine.while_loop h _ _ 0 true _ ?m0] => exists m0
  end.
  split; [reflexivity |]. split; [reflexivity |].
  intros n st' m1 Hloop. rewrite Hloop. cbv beta iota. cbn [fst snd].
  unfold bind at 1.
  destruct (Z.leb (AxisRulesEngine.maxIterations cfg) (Z.of_nat n)) eqn:Hcap.
  - unfold when. rewrite log_run. cbv beta iota.
    unfold bind at 1. rewrite log_run. cbv beta iota.
    unfold bind, gets, AxisRulesEngine.getRulesApplied, ret. cbv beta iota.
    eexists _, _. split; [reflexivity |]. cbn [input output iterations conflicts
      rulesApplied audit conflictLog auditTrail].
    repeat (split; [reflexivity |]).
    split.
    + match goal with
      | |- map _ (List.filter _ ?l) = _ =>
          change (applied_of l = applied_of (auditTrail m1))
      end.
      rewrite !applied_of_app. rewrite !app_nil_r. reflexivity.
    + intros _. eexists. split.
      * apply in_or_app. left. apply in_or_app. right. left. reflexivity.
      * split; reflexivity.
  - unfold when, ret at 1. cbv beta iota.
    unfold bind at 1. rewrite log_run. cbv beta iota.
    unfold bind, gets, AxisRulesEngine.getRulesApplied, ret. cbv beta iota.
    eexists _, _. split; [reflexivity |]. cbn [input output iterations conflicts
      rulesApplied audit conflictLog auditTrail].
    repeat (split; [reflexivity |]).
    split.
    + match goal with
      | |- map _ (List.filter _ ?l) = _ =>
          change (applied_of l = applied_of (auditTrail m1))
      end.
      rewrite applied_of_app. rewrite app_nil_r. reflexivity.
    + intros Hle. apply Z.leb_gt in Hcap. lia.
Qed.

(** The loop over the rules makes the applications of a [visits]: the
    flag it returns is raised exactly when one of them changed the
    serialised state, and its conflict entries are those of their writes,
    in their order. *)
Lemma for_each_rule_visits (todo : list Rule) :
  forall (st : obj) (ch : bool) (ic : gmap string string) (ws : list write)
         (m : Machine),
    tracks ic ws ->
    exists st' m' apps,
      AxisRulesEngine.for_each_rule h todo st ch ic m
        = (Ret (st', existsb changed_by apps || ch), m') /\
      visits h todo st ic m apps st' m' /\
      conflictLog m'
      = (conflictLog m
         ++ conflicts_written (currentIteration m) ws (writes_in apps))%list.
Proof.
  induction todo as [| rule todo IH]; intros st ch ic ws m Htracks.
  - exists st, m, []. simpl. rewrite app_nil_r.
    split; [reflexivity |]. split; [constructor | reflexivity].
  - cbn [AxisRulesEngine.for_each_rule]. unfold bind at 1.
    destruct (evaluateCondition_run h (cond rule) st m) as (m1 & Hcond & Hc1 & Hi1 & _).
    rewrite Hcond. cbv beta iota.
    destruct (holds h (cond rule) st) eqn:Hholds.
    + pose (m2 := snd (AxisRulesEngine.log h ("Applied: " +:+ name rule) LInfo m1)).
      assert (Hlogged : AxisRulesEngine.log h ("Applied: " +:+ name rule) LInfo m1
                        = (Ret tt, m2)) by reflexivity.
      assert (Hc2 : conflictLog m2 = conflictLog m) by exact Hc1.
      assert (Hi2 : currentIteration m2 = currentIteration m) by exact Hi1.
      unfold bind at 1. rewrite Hlogged. cbv beta iota.
      destruct (then_ rule) as [t |] eqn:Hthen.
      * unfold bind at 1.
        destruct (applyTransformationsWithTracking_run st t (name rule) ic m2)
          as (st1 & ic1 & m3 & Hrun & Hi3 & _ & Hws & _).
        rewrite Hrun. cbv beta iota.
        destruct (Hws ws Htracks) as [Htracks1 Hlog1].
        destruct (IH st1
                    (if negb (text_eqb (JSON_stringify st) (JSON_stringify st1))
                     then true else ch) ic1 _ m3 Htracks1)
          as (st' & m' & apps & Hrest & Hvisits & Hlog).
        exists st', m',
          ({| applied_rule := rule; state_before := st; state_after := st1 |} :: apps).
        split; [| split].
        -- rewrite Hrest. cbn [existsb]. unfold changed_by at 2.
           cbn [state_before state_after].
           destruct (negb (text_eqb (JSON_stringify st) (JSON_stringify st1))),
             (existsb changed_by apps), ch; reflexivity.
        -- exact (visits_applied h rule t todo st ic m m1 st1 (map fst t) ic1 m3
                    apps st' m' Hcond Hthen Hrun Hvisits).
        -- unfold writes_in. cbn [flat_map applied_rule]. fold (writes_in apps).
           unfold rule_writes at 1. rewrite Hthen.
           rewrite Hlog, Hlog1, Hi3, Hi2, Hc2, conflicts_written_app, app_assoc.
           reflexivity.
      * destruct (IH st ch ic ws m2 Htracks) as (st' & m' & apps & Hrest & Hvisits & Hlog).
        exists st', m', apps.
        split; [exact Hrest |]. split.
        -- exact (visits_idle h rule todo st ic m m1 apps st' m' Hcond Hthen Hvisits).
        -- rewrite Hlog, Hc2, Hi2. reflexivity.
    + pose (m2 := snd (AxisRulesEngine.log h
                         ("Skipped: " +:+ name rule +:+ " (condition not met)")
                         LInfo m1)).
      assert (Hlogged : AxisRulesEngine.log h
                          ("Skipped: " +:+ name rule +:+ " (condition not met)")
                          LInfo m1 = (Ret tt, m2)) by reflexivity.
      assert (Hc2 : conflictLog m2 = conflictLog m) by exact Hc1.
      assert (Hi2 : currentIteration m2 = currentIteration m) by exact Hi1.
      unfold bind at 1. rewrite Hlogged. cbv beta iota.
      destruct (IH st ch ic ws m2 Htracks) as (st' & m' & apps & Hrest & Hvisits & Hlog).
      exists st', m', apps.
      split; [exact Hrest |]. split.
      * exact (visits_skipped h rule todo st ic m m1 apps st' m' Hcond Hvisits).
      * rewrite Hlog, Hc2, Hi2. reflexivity.
Qed.

(** A sweep is such a loop, started with an empty map and a clear flag. *)
Lemma sweep_visits (sortedRules : list Rule) (k : nat) (st : obj) (m : Machine) :
  exists st' m' apps m2,
    AxisRulesEngine.sweep h sortedRules k st m
      = (Ret (st', existsb changed_by apps), m') /\
    visits h sortedRules st ∅ (sweep_start h k m) apps st' m2 /\
    conflictLog m'
    = (conflictLog m ++ conflicts_written k [] (writes_in apps))%list.
Proof.
  destruct (for_each_rule_visits sortedRules st false ∅ [] (sweep_start h k m)
              tracks_empty)
    as (st' & m2 & apps & Hrun & Hvisits & Hlog).
  rewrite orb_false_r in Hrun.
  change (conflictLog (sweep_start h k m)) with (conflictLog m) in Hlog.
  change (currentIteration (sweep_start h k m)) with k in Hlog.
  exists st'.
  unfold AxisRulesEngine.sweep, AxisRulesEngine.set_currentIteration, modify.
  unfold bind at 1. cbv beta iota.
  unfold bind at 1. rewrite log_run. cbv beta iota.
  unfold bind at 1.
  match goal with
  | |- context [AxisRulesEngine.for_each_rule h sortedRules st false ∅ ?m1] =>
      change m1 with (sweep_start h k m)
  end.
  rewrite Hrun. cbv beta iota.
  unfold bind at 1, gets at 1. cbv beta iota.
  destruct (Nat.ltb 0 (length (conflictLog m2))).
  - unfold when, bind. rewrite log_run. cbv beta iota.
    eexists _, apps, m2. split; [reflexivity |]. split; [exact Hvisits | exact Hlog].
  - exists m2, apps, m2. split; [reflexivity |]. split; [exact Hvisits | exact Hlog].
Qed.

End LoopFacts.

(** ** The sample scenarios *)

(** C1, as the engine runs it.  For the input [{ a: 1 }], the single rule
    [double] (priority 1, if [a < 10], then [a := {{ a * 2 }}]) and
    [max_iterations] 10, [apply] returns the output [{ a: 16 }] and
    [rulesApplied] is four times [double]; [iterations] is 5, because the
    sweep that finds [16 < 10] false and changes nothing is counted. *)
Theorem doubling_scenario (clk rnd : nat -> Z) (m : Machine) :
  option_map (fun r => (output r, iterations r, rulesApplied r))
    (returned (AxisRulesEngine.apply (MiniJS.host clk rnd) [("a", VNum 1)]
                 Scenario.doubling m))
  = Some ([("a", VNum 16)], 5, ["double"; "double"; "double"; "double"]).
Proof. vm_compute. reflexivity. Qed.

(** C1 as stated fails: the run reports 5 iterations, not 4. *)
Lemma doubling_scenario_not_four_iterations :
  option_map iterations
    (returned (AxisRulesEngine.apply Scenario.still [("a", VNum 1)]
                 Scenario.doubling fresh))
  = Some 5 /\
  option_map iterations
    (returned (AxisRulesEngine.apply Scenario.still [("a", VNum 1)]
                 Scenario.doubling fresh))
  <> Some 4.
Proof. split; vm_compute; [reflexivity | discriminate]. Qed.

(** C2, as the engine runs it.  For the input [{}] and the always-true
    rules [r1] (priority 1, status := A) and [r2] (priority 2,
    status := B), [apply] returns the output [{ status: B }]; every sweep
    changes the state twice, from B to A and back, so the run does not
    converge: it stops at the default cap of 10 iterations and has logged
    one conflict entry per sweep, each with [previousRule] r1 and
    [currentRule] r2. *)
Theorem clash_scenario (clk rnd : nat -> Z) (m : Machine) :
  option_map (fun r => (output r, iterations r, conflicts r))
    (returned (AxisRulesEngine.apply (MiniJS.host clk rnd) [] Scenario.clash m))
  = Some ([("status", VStr "B")], 10,
          map Scenario.status_conflict [1; 2; 3; 4; 5; 6; 7; 8; 9; 10]).
Proof. vm_compute. reflexivity. Qed.

(** C2 as stated fails: the run neither stops at iteration 2 nor logs
    exactly one conflict entry. *)
Lemma clash_scenario_not_converging :
  option_map (fun r => (iterations r, length (conflicts r)))
    (returned (AxisRulesEngine.apply Scenario.still [] Scenario.clash fresh))
  = Some (10, 10) /\
  option_map (fun r => (iterations r, length (conflicts r)))
    (returned (AxisRulesEngine.apply Scenario.still [] Scenario.clash fresh))
  <> Some (2, 1).
Proof. split; vm_compute; [reflexivity | discriminate]. Qed.

(** ** Template values *)

Lemma resolveValue_returns (h : Host) (v : value) (st : obj) (m : Machine) :
  value_uses_builtin v = false ->
  returned (AxisRulesEngine.resolveValue h v st m) = Some (resolved h v st).
Proof.
  intros Hv. destruct (resolveValue_run h v st m) as (r & m' & Hrun & _ & Hres).
  unfold returned. rewrite Hrun. simpl. rewrite (Hres Hv). reflexivity.
Qed.

Lemma resolveValue_unwrapped (h : Host) (t : string) (st : obj) (m : Machine) :
  wrapped t = false ->
  AxisRulesEngine.resolveValue h (VStr t) st m = (Ret (VStr t), m).
Proof.
  unfold wrapped, AxisRulesEngine.resolveValue. intros ->. reflexivity.
Qed.

Lemma resolveTemplate_unmatched (h : Host) (t : string) (st : obj) (m : Machine) :
  JsString.match_whole_template t = None ->
  SPCEngine.resolveTemplate h (VStr t) st m = (Ret (VStr t), m).
Proof. unfold SPCEngine.resolveTemplate. intros ->. reflexivity. Qed.

(** The text left of [Result: {{x}}] is no expression, whatever the
    parameters are. *)
Lemma MiniJS_rejects_label (params : list string) (args : list value) :
  MiniJS.call params "return Result: x" args = Abrupt "SyntaxError".
Proof.
  unfold MiniJS.call.
  replace (MiniJS.parse_body "return Result: x") with (@None MiniJS.expr)
    by (vm_compute; reflexivity).
  destruct (forallb MiniJS.is_parameter params); reflexivity.
Qed.

(** C3, as the two engines resolve a [then] value.  A string that lacks
    the opening or the closing braces is written verbatim ([plain text]).
    [AxisRulesEngine.resolveValue] evaluates every other string: it
    removes each pair of braces, trims, and, unless what is left is one
    of the three builtins, evaluates it in the context of the state, so
    [{{ 1 + 1 }}] is written as the number 2, and [Result: {{x}}] stays
    as it is only because the text left, [Result: x], fails to evaluate;
    when the evaluation throws an error the string is written verbatim.
    The context is there when no object of the state has a key
    [hasOwnProperty].  [SPCEngine.resolveTemplate] evaluates a string
    only when the whole of it matches the pattern, and writes every other
    string verbatim. *)
Theorem template_values (h : Host) (clk rnd : nat -> Z) (st : obj) (m : Machine) :
  (forall t, wrapped t = false ->
     AxisRulesEngine.resolveValue h (VStr t) st m = (Ret (VStr t), m)) /\
  (forall t, wrapped t = true -> is_builtin (expression_of t) = false ->
     flattens (VObj st) = true ->
     returned (AxisRulesEngine.resolveValue h (VStr t) st m)
     = Some (let safeContext := AxisRulesEngine.createSafeContext st in
             match call_new_Function h (obj_keys safeContext)
                     ("return " +:+ expression_of t) (obj_values safeContext) with
             | Normal r => r
             | Abrupt _ => VStr t
             end)) /\
  returned (AxisRulesEngine.resolveValue (MiniJS.host clk rnd) (VStr "plain text") st m)
  = Some (VStr "plain text") /\
  returned (AxisRulesEngine.resolveValue (MiniJS.host clk rnd) (VStr "{{ 1 + 1 }}") [] m)
  = Some (VNum 2) /\
  returned (AxisRulesEngine.resolveValue (MiniJS.host clk rnd) (VStr "Result: {{x}}") st m)
  = Some (VStr "Result: {{x}}") /\
  (forall t, JsString.match_whole_template t = None ->
     SPCEngine.resolveTemplate h (VStr t) st m = (Ret (VStr t), m)) /\
  returned (SPCEngine.resolveTemplate (MiniJS.host clk rnd) (VStr "{{ 1 + 1 }}") [] m)
  = Some (VNum 2) /\
  returned (SPCEngine.resolveTemplate (MiniJS.host clk rnd) (VStr "Result: {{x}}") st m)
  = Some (VStr "Result: {{x}}").
Proof.
  split; [intros t; apply resolveValue_unwrapped |].
  split.
  { intros t Hw Hb _. rewrite resolveValue_returns.
    - unfold resolved. rewrite Hw. reflexivity.
    - simpl. rewrite Hw, Hb. reflexivity. }
  split; [reflexivity |].
  split; [vm_compute; reflexivity |].
  split.
  { rewrite resolveValue_returns by reflexivity.
    unfold resolved.
    replace (wrapped "Result: {{x}}") with true by (vm_compute; reflexivity).
    replace (expression_of "Result: {{x}}") with "Result: x"
      by (vm_compute; reflexivity).
    cbn [call_new_Function MiniJS.host].
    change ("return " +:+ "Result: x") with "return Result: x".
    rewrite MiniJS_rejects_label. reflexivity. }
  split; [intros t; apply resolveTemplate_unmatched |].
  split; [vm_compute; reflexivity |].
  rewrite resolveTemplate_unmatched by (vm_compute; reflexivity). reflexivity.
Qed.

Lemma template_values_witness :
  (wrapped "plain text" = false /\
   AxisRulesEngine.resolveValue Scenario.still (VStr "plain text")
     [("user", VObj [("age", VNum 36)])] fresh
   = (Ret (VStr "plain text"), fresh)) /\
  (wrapped "{{ user_age + 1 }}" = true /\
   is_builtin (expression_of "{{ user_age + 1 }}") = false /\
   flattens (VObj [("user", VObj [("age", VNum 36)])]) = true /\
   returned (AxisRulesEngine.resolveValue Scenario.still (VStr "{{ user_age + 1 }}")
               [("user", VObj [("age", VNum 36)])] fresh)
   = Some (VNum 37)).
Proof.
  destruct (template_values Scenario.still (fun _ => 0%Z) (fun _ => 0%Z)
              [("user", VObj [("age", VNum 36)])] fresh)
    as (Hplain & Hwrapped & _).
  split.
  - split; [reflexivity |]. apply Hplain. reflexivity.
  - split; [reflexivity |]. split; [reflexivity |]. split; [reflexivity |].
    rewrite (Hwrapped "{{ user_age + 1 }}" eq_refl eq_refl eq_refl).
    vm_compute. reflexivity.
Defined.

(** C3 as stated fails for [AxisRulesEngine]: [1 + {{ 1 }}] is no
    whole-string template, and is written as the number 2. *)
Lemma partial_template_is_evaluated :
  JsString.match_whole_template "1 + {{ 1 }}" = None /\
  returned (AxisRulesEngine.resolveValue Scenario.still (VStr "1 + {{ 1 }}") [] fresh)
  = Some (VNum 2) /\
  VNum 2 <> VStr "1 + {{ 1 }}".
Proof. split; [| split]; [vm_compute; reflexivity .. | discriminate]. Qed.

(** ** Conditions *)

(** C6, as the engine evaluates a condition.  An absent condition is
    true, and so is a falsy one: the literal [false] and the empty string
    are taken for an absent condition and return true, in every context
    and without any evaluation.  The literal [true] is evaluated as the
    expression [true] in the context of the state, and returns true when
    there is a context (no object of the state has a key
    [hasOwnProperty]) and the evaluation in it succeeds. *)
Theorem evaluateCondition_literals (h : Host) (context : obj) (m : Machine) :
  AxisRulesEngine.evaluateCondition h CAbsent context m = (Ret true, m) /\
  AxisRulesEngine.evaluateCondition h (CBool false) context m = (Ret true, m) /\
  AxisRulesEngine.evaluateCondition h (CStr "") context m = (Ret true, m) /\
  (flattens (VObj context) = true ->
   (let safeContext := AxisRulesEngine.createSafeContext context in
    call_new_Function h (obj_keys safeContext) "return true" (obj_values safeContext)
    = Normal (VBool true)) ->
   AxisRulesEngine.evaluateCondition h (CBool true) context m = (Ret true, m)).
Proof.
  split; [reflexivity |]. split; [reflexivity |]. split; [reflexivity |].
  intros _ Hhost. pose (safeContext := AxisRulesEngine.createSafeContext context).
  cbv zeta in Hhost. fold safeContext in Hhost.
  unfold AxisRulesEngine.evaluateCondition, try_catch, bind,
    AxisRulesEngine.call_function.
  cbn [AxisRulesEngine.falsy negb AxisRulesEngine.condition_text].
  fold safeContext.
  change ("return " +:+ "true") with "return true".
  rewrite Hhost. reflexivity.
Qed.

Lemma evaluateCondition_literals_witness :
  flattens (VObj [("a", VNum 1)]) = true /\
  call_new_Function Scenario.still
    (obj_keys (AxisRulesEngine.createSafeContext [("a", VNum 1)])) "return true"
    (obj_values (AxisRulesEngine.createSafeContext [("a", VNum 1)]))
  = Normal (VBool true) /\
  AxisRulesEngine.evaluateCondition Scenario.still (CBool true) [("a", VNum 1)] fresh
  = (Ret true, fresh).
Proof.
  split; [reflexivity |]. split; [vm_compute; reflexivity |].
  apply (evaluateCondition_literals Scenario.still [("a", VNum 1)] fresh).
  - reflexivity.
  - vm_compute. reflexivity.
Defined.

(** C6 as stated fails: the literal [false] does not evaluate to
    itself. *)
Lemma false_condition_is_true :
  AxisRulesEngine.evaluateCondition Scenario.still (CBool false) [] fresh
  = (Ret true, fresh) /\
  fst (AxisRulesEngine.evaluateCondition Scenario.still (CBool false) [] fresh)
  <> Ret false.
Proof. split; [reflexivity | discriminate]. Qed.

(** The literal [true] is false in a state with the key [first-name]:
    the keys of the context are the parameters of the function, and with
    this one the function does not compile. *)
Remark true_condition_with_unusable_key :
  fst (AxisRulesEngine.evaluateCondition Scenario.still (CBool true)
         [("first-name", VStr "Ada")] fresh)
  = Ret false.
Proof. vm_compute. reflexivity. Qed.

(** ** Failures of evaluation *)

(** The two [catch] blocks.  When the evaluation of a condition throws
    an error, [evaluateCondition] returns false; when the evaluation of
    the expression of a template throws one, [resolveValue] returns the
    template as it was.  Both blocks of v1.0.0 log the message of what
    they caught: the error is one that has a message, as the host throws
    it.  The evaluation in question is the one the engine asks of the
    host: an empty condition and the templates [now()], [timestamp()] and
    [uuid()] are not handed to it. *)
Lemma caught_errors_are_recovered (h : Host) :
  (forall s context m reason,
     s <> EmptyString ->
     (let safeContext := AxisRulesEngine.createSafeContext context in
      call_new_Function h (obj_keys safeContext) ("return " +:+ s)
        (obj_values safeContext) = Abrupt reason) ->
     returned (AxisRulesEngine.evaluateCondition h (CStr s) context m) = Some false) /\
  (forall t context m reason,
     wrapped t = true -> is_builtin (expression_of t) = false ->
     (let safeContext := AxisRulesEngine.createSafeContext context in
      call_new_Function h (obj_keys safeContext) ("return " +:+ expression_of t)
        (obj_values safeContext) = Abrupt reason) ->
     returned (AxisRulesEngine.resolveValue h (VStr t) context m) = Some (VStr t)).
Proof.
  split.
  - intros s context m reason Hs Hhost.
    destruct (evaluateCondition_run h (CStr s) context m) as (m' & Hrun & _).
    unfold returned. rewrite Hrun. simpl. f_equal.
    unfold holds. cbn [AxisRulesEngine.falsy AxisRulesEngine.condition_text].
    destruct (String.eqb s "") eqn:E.
    + apply String.eqb_eq in E. contradiction.
    + simpl in Hhost. rewrite Hhost. reflexivity.
  - intros t context m reason Hw Hb Hhost.
    rewrite resolveValue_returns by (simpl; rewrite Hw, Hb; reflexivity).
    unfold resolved. rewrite Hw. simpl in Hhost. rewrite Hhost. reflexivity.
Qed.

(** ** The evaluation context *)

Lemma obj_get_assign_utilities (o : obj) (u : string) :
  In u utility_names ->
  obj_get u (obj_assign o AxisRulesEngine.utilities) = Some (VHost u).
Proof.
  unfold obj_assign, AxisRulesEngine.utilities, utility_names. simpl.
  intros Hu.
  repeat (destruct Hu as [<- | Hu];
          [ repeat (rewrite obj_get_set_ne by discriminate);
            apply obj_get_set_eq | ]).
  contradiction.
Qed.

(** C10.  In the context built from any state, each of the names [Math],
    [Date], [parseInt], [parseFloat], [String], [Number], [Boolean],
    [Array] and [JSON] is bound to the builtin: the utilities are merged
    after the flattened and the nested keys of the state, and a key of the
    state with such a name loses its value. *)
Theorem utilities_override_state (context : obj) (u : string) :
  In u utility_names ->
  obj_get u (AxisRulesEngine.createSafeContext context) = Some (VHost u).
Proof.
  intros Hu. unfold AxisRulesEngine.createSafeContext.
  apply obj_get_assign_utilities, Hu.
Qed.

(** A state with the top-level key [Math], and one whose flattened keys
    hold it. *)
Lemma utilities_override_state_witness :
  In "Math" utility_names /\
  obj_get "Math" [("Math", VNum 5)] = Some (VNum 5) /\
  obj_get "Math" (AxisRulesEngine.createSafeContext [("Math", VNum 5)])
  = Some (VHost "Math") /\
  obj_get "Math" (AxisRulesEngine.flattenObject [("", VObj [("Math", VNum 5)])] "")
  = Some (VNum 5) /\
  obj_get "Math" (AxisRulesEngine.createSafeContext [("", VObj [("Math", VNum 5)])])
  = Some (VHost "Math").
Proof.
  split; [left; reflexivity |]. split; [reflexivity |].
  split; [apply (utilities_override_state [("Math", VNum 5)] "Math");
          left; reflexivity |].
  split; [reflexivity |].
  apply (utilities_override_state [("", VObj [("Math", VNum 5)])] "Math").
  left. reflexivity.
Defined.

(** ** The order of the rules *)

Lemma in_insert_by_priority (r x : Rule) (l : list Rule) :
  In x (AxisRulesEngine.insert_by_priority r l) -> x = r \/ In x l.
Proof.
  induction l as [| y l IH]; simpl.
  - intros [<- | []]. left. reflexivity.
  - destruct (Z.ltb 0 _); simpl.
    + intros [<- | Hx]; [right; left; reflexivity |].
      destruct (IH Hx) as [-> | Hin]; [left; reflexivity | right; right; exact Hin].
    + intros [<- | Hx]; [left; reflexivity | right; exact Hx].
Qed.

Lemma in_sort_by_priority (x : Rule) (l : list Rule) :
  In x (AxisRulesEngine.sort_by_priority l) -> In x l.
Proof.
  induction l as [| r l IH]; simpl; [tauto |].
  intros Hx. destruct (in_insert_by_priority _ _ _ Hx) as [-> | Hin].
  - left. reflexivity.
  - right. apply IH, Hin.
Qed.

Lemma forallb_insert_by_priority (f : Rule -> bool) (r : Rule) (l : list Rule) :
  forallb f (AxisRulesEngine.insert_by_priority r l) = f r && forallb f l.
Proof.
  induction l as [| y l IH]; simpl.
  - reflexivity.
  - destruct (Z.ltb 0 _); simpl.
    + rewrite IH. destruct (f r), (f y); reflexivity.
    + reflexivity.
Qed.

Lemma builtin_free_sort (l : list Rule) :
  builtin_free (AxisRulesEngine.sort_by_priority l) = builtin_free l.
Proof.
  unfold builtin_free. induction l as [| r l IH]; simpl; [reflexivity |].
  rewrite forallb_insert_by_priority, IH. reflexivity.
Qed.

Lemma builtin_free_in (l : list Rule) (r : Rule) :
  builtin_free l = true -> In r l -> rule_uses_builtin r = false.
Proof.
  unfold builtin_free. rewrite forallb_forall. intros Hl Hr.
  apply negb_true_iff, Hl, Hr.
Qed.

(** ** Termination and the cap *)

(** C5, as the engine caps its loop.  The cap is [max_iterations], or 10
    when that is absent or zero; it may be negative.  A run that returns
    has made at most as many sweeps as the cap, none at all when the cap
    is negative.  It made them one after the other from the copy of the
    input, each but the last reporting a change, and when it stopped below
    the cap its last sweep reported none.  A sweep reports a change
    exactly when one of the applications it made, each to the state the
    one before it left, changed the serialised state; what the state is
    when the sweep ends plays no part.  A run that reaches the cap is no
    error: it returns with an audit entry of level warning that says
    so. *)
Theorem apply_stops_within_cap (h : Host) (inputData : obj) (cfg : RulesConfig)
    (m : Machine) (r : Result) :
  returned (AxisRulesEngine.apply h inputData cfg m) = Some r ->
  AxisRulesEngine.maxIterations cfg
    = match max_iterations cfg with
      | Some 0%Z | None => 10%Z
      | Some n => n
      end /\
  (Z.of_nat (iterations r) <= Z.max 0 (AxisRulesEngine.maxIterations cfg))%Z /\
  (exists c m1,
     sweeps h (AxisRulesEngine.sort_by_priority (rules cfg)) (iterations r)
       (JSON_parse (JSON_stringify inputData)) (run_start h cfg m) c (output r) m1 /\
     ((Z.of_nat (iterations r) < AxisRulesEngine.maxIterations cfg)%Z -> c = false)) /\
  (forall k st st' c mk mk',
     AxisRulesEngine.sweep h (AxisRulesEngine.sort_by_priority (rules cfg)) k st mk
       = (Ret (st', c), mk') ->
     exists apps m2,
       visits h (AxisRulesEngine.sort_by_priority (rules cfg)) st ∅
         (sweep_start h k mk) apps st' m2 /\
       c = existsb changed_by apps) /\
  ((AxisRulesEngine.maxIterations cfg <= Z.of_nat (iterations r))%Z ->
   exists e, In e (audit r) /\ level e = LWarning /\
             message e = "Stopped at max iterations: "
                         +:+ pretty (AxisRulesEngine.maxIterations cfg)).
Proof.
  intros Hreturned.
  destruct (apply_run h inputData cfg m) as (m0 & -> & _ & Happly).
  destruct (while_loop_sweeps h (AxisRulesEngine.sort_by_priority (rules cfg))
              (Z.to_nat (AxisRulesEngine.maxIterations cfg)) 0
              (JSON_parse (JSON_stringify inputData)) (run_start h cfg m) _ _
              (sweeps_none h _ _ _))
    as (n & st' & m1 & c & Hloop & Hsweeps & _ & Hcap & Hstop).
  destruct (Happly n st' m1 Hloop)
    as (r' & m2 & Hrun & _ & Hout & Hit & _ & _ & Hwarn).
  unfold returned in Hreturned. rewrite Hrun in Hreturned.
  injection Hreturned as <-. rewrite Hout, Hit.
  split; [reflexivity |]. split; [lia |].
  split; [exists c, m1; split; [exact Hsweeps | intros Hlt; apply Hstop; lia] |].
  split; [| exact Hwarn].
  intros k st st2 c2 mk mk' Hsweep.
  destruct (sweep_visits h (AxisRulesEngine.sort_by_priority (rules cfg)) k st mk)
    as (st3 & mk3 & apps & mk2 & Hrun3 & Hvisits & _).
  rewrite Hsweep in Hrun3. injection Hrun3 as -> -> _.
  exists apps, mk2. split; [exact Hvisits | reflexivity].
Qed.

(** The doubling scenario stops below its cap of 10, after five sweeps,
    and logs no warning; its sweep over [{ a: 16 }] applies nothing. *)
Lemma apply_stops_within_cap_witness :
  returned (AxisRulesEngine.apply Scenario.still [("a", VNum 1)] Scenario.doubling fresh)
  = Some Scenario.doubled /\
  (Z.of_nat (iterations Scenario.doubled)
   <= Z.max 0 (AxisRulesEngine.maxIterations Scenario.doubling))%Z /\
  exists c m1,
    sweeps Scenario.still (AxisRulesEngine.sort_by_priority (rules Scenario.doubling))
      (iterations Scenario.doubled) (JSON_parse (JSON_stringify [("a", VNum 1)]))
      (run_start Scenario.still Scenario.doubling fresh) c (output Scenario.doubled) m1 /\
    ((Z.of_nat (iterations Scenario.doubled)
      < AxisRulesEngine.maxIterations Scenario.doubling)%Z -> c = false).
Proof.
  assert (Hrun : returned (AxisRulesEngine.apply Scenario.still [("a", VNum 1)]
                             Scenario.doubling fresh) = Some Scenario.doubled)
    by (vm_compute; reflexivity).
  split; [exact Hrun |].
  destruct (apply_stops_within_cap Scenario.still [("a", VNum 1)] Scenario.doubling
              fresh Scenario.doubled Hrun) as (_ & Hcap & Hsweeps & _).
  split; [exact Hcap | exact Hsweeps].
Defined.

(** C5 as stated fails in two places.  When [max_iterations] is written
    as 0 the cap is 10, and a rule that toggles a flag runs for 10 sweeps.
    And the loop does not stop when a full sweep leaves the serialised
    state as it found it: the second sweep of the conflict scenario starts
    and ends with [status] B and reports a change, because [r1] and [r2]
    each changed the state on the way. *)
Lemma zero_cap_and_unchanged_sweep :
  (max_iterations Scenario.uncapped = Some 0%Z /\
   option_map iterations
     (returned (AxisRulesEngine.apply Scenario.still [("on", VBool false)]
                  Scenario.uncapped fresh))
   = Some 10 /\
   ~ (10 <= 0)%Z) /\
  fst (AxisRulesEngine.sweep Scenario.still
         (AxisRulesEngine.sort_by_priority (rules Scenario.clash)) 2
         [("status", VStr "B")] fresh)
  = Ret ([("status", VStr "B")], true).
Proof.
  split; [split; [| split] |];
    [reflexivity | vm_compute; reflexivity | lia | vm_compute; reflexivity].
Qed.

(** ** Conflicts *)

(** C9, as the engine logs conflicts.  The conflict entries a sweep
    appends are those of the writes of its own applications, taken in
    their order from an empty log of writes: no write of an earlier sweep
    counts.  A write of the path [p] by the rule [ruleName] appends an
    entry exactly when [p] has a writer in the log of the sweep so far,
    whatever its name, also the rule's own: the entry holds the field,
    the last such writer as [previousRule], the rule as [currentRule] and
    the number of the sweep.  The write is then added to the log.  With
    or without an entry, an entry of a [then] that returns has resolved
    its value and written it to the path, and the map holds the rule as
    the writer of the path. *)
Theorem conflict_when_already_written (h : Host) :
  (forall sortedRules k st st' c m m',
     AxisRulesEngine.sweep h sortedRules k st m = (Ret (st', c), m') ->
     exists apps m2,
       visits h sortedRules st ∅ (sweep_start h k m) apps st' m2 /\
       conflictLog m'
       = (conflictLog m ++ conflicts_written k [] (writes_in apps))%list) /\
  (forall it written p ruleName new,
     conflicts_written it written [] = [] /\
     conflicts_written it written ((p, ruleName) :: new)
     = (conflict_if_written it written p ruleName
        ++ conflicts_written it (written ++ [(p, ruleName)]) new)%list) /\
  (forall it written p ruleName,
     (~ In p (map fst written) -> conflict_if_written it written p ruleName = []) /\
     (In p (map fst written) ->
      exists previous before after,
        written = (before ++ (p, previous) :: after)%list /\
        ~ In p (map fst after) /\
        conflict_if_written it written p ruleName
        = [{| field := p; previousRule := previous; currentRule := ruleName;
              resolution := "priority_override"; iteration := it |}])) /\
  (forall ruleName p v st fc (ic : gmap string string) m st' fc' ic' m',
     AxisRulesEngine.transform_entry h ruleName (p, v) (st, fc, ic) m
       = (Ret (st', fc', ic'), m') ->
     exists resolvedValue m1,
       AxisRulesEngine.resolveValue h v st m = (Ret resolvedValue, m1) /\
       st' = AxisRulesEngine.setNestedPath st p resolvedValue /\
       ic' = <[p := ruleName]> ic).
Proof.
  split; [| split; [| split]].
  - intros sortedRules k st st' c m m' Hsweep.
    destruct (sweep_visits h sortedRules k st m)
      as (st1 & m1 & apps & m2 & Hrun & Hvisits & Hlog).
    rewrite Hsweep in Hrun. injection Hrun as -> _ ->.
    exists apps, m2. split; [exact Hvisits | exact Hlog].
  - intros it written p ruleName new. split; reflexivity.
  - intros it written p ruleName. unfold conflict_if_written. split.
    + intros Hnot. rewrite (last_writer_none p written Hnot). reflexivity.
    + intros Hin. destruct (last_writer_some p written Hin) as [previous Hlast].
      destruct (last_writer_last p previous written Hlast)
        as (before & after & Hsplit & Hafter).
      exists previous, before, after. rewrite Hlast.
      split; [exact Hsplit |]. split; [exact Hafter | reflexivity].
  - intros ruleName p v st fc ic m st' fc' ic' m' Hentry.
    destruct (transform_entry_run h ruleName p v st fc ic m)
      as (resolvedValue & m1 & m2 & Hres & _ & Hrun & _).
    rewrite Hentry in Hrun. injection Hrun as -> _ -> _.
    exists resolvedValue, m1. split; [exact Hres |]. split; reflexivity.
Qed.

(** The first sweep of the conflict scenario: [r1] and [r2] are applied
    one after the other, and the write of [r2] to [status] finds [r1] in
    the log. *)
Lemma conflict_when_already_written_witness :
  AxisRulesEngine.sweep Scenario.still
    (AxisRulesEngine.sort_by_priority (rules Scenario.clash)) 1
    [("status", VStr "A")] fresh
  = (Ret ([("status", VStr "B")], true),
     snd (AxisRulesEngine.sweep Scenario.still
            (AxisRulesEngine.sort_by_priority (rules Scenario.clash)) 1
            [("status", VStr "A")] fresh)) /\
  conflictLog (snd (AxisRulesEngine.sweep Scenario.still
                      (AxisRulesEngine.sort_by_priority (rules Scenario.clash)) 1
                      [("status", VStr "A")] fresh))
  = [Scenario.status_conflict 1] /\
  exists apps m2,
    visits Scenario.still (AxisRulesEngine.sort_by_priority (rules Scenario.clash))
      [("status", VStr "A")] ∅ (sweep_start Scenario.still 1 fresh) apps
      [("status", VStr "B")] m2 /\
    conflictLog (snd (AxisRulesEngine.sweep Scenario.still
                        (AxisRulesEngine.sort_by_priority (rules Scenario.clash)) 1
                        [("status", VStr "A")] fresh))
    = (conflictLog fresh ++ conflicts_written 1 [] (writes_in apps))%list.
Proof.
  assert (Hrun : AxisRulesEngine.sweep Scenario.still
                   (AxisRulesEngine.sort_by_priority (rules Scenario.clash)) 1
                   [("status", VStr "A")] fresh
                 = (Ret ([("status", VStr "B")], true),
                    snd (AxisRulesEngine.sweep Scenario.still
                           (AxisRulesEngine.sort_by_priority (rules Scenario.clash)) 1
                           [("status", VStr "A")] fresh)))
    by (vm_compute; reflexivity).
  split; [exact Hrun |]. split; [vm_compute; reflexivity |].
  exact (proj1 (conflict_when_already_written Scenario.still) _ _ _ _ _ _ _ Hrun).
Defined.

(** C9 as stated fails when two rules share a name: the second write of
    the sweep to [x] is by a rule of the same name, the specification asks
    for no entry, and the engine appends one in each of the two sweeps. *)
Lemma conflict_between_namesakes :
  conflict_if_other_name 1 [("x", "r")] "x" "r" = [] /\
  option_map conflicts
    (returned (AxisRulesEngine.apply Scenario.still [] Scenario.twins fresh))
  = Some [ {| field := "x"; previousRule := "r"; currentRule := "r";
              resolution := "priority_override"; iteration := 1 |};
           {| field := "x"; previousRule := "r"; currentRule := "r";
              resolution := "priority_override"; iteration := 2 |} ].
Proof. split; vm_compute; reflexivity. Qed.

(** ** Runs without the clock and the random source *)

(** Without clock and random builtins, the output, the iterations and
    the rules applied are the ones [after_loop] computes from the state
    and the rules. *)
Lemma apply_reading (h : Host) (inputData : obj) (cfg : RulesConfig) (m : Machine) :
  builtin_free (rules cfg) = true ->
  exists r m',
    AxisRulesEngine.apply h inputData cfg m = (Ret r, m') /\
    (iterations r, output r, rulesApplied r)
    = after_loop h (AxisRulesEngine.sort_by_priority (rules cfg))
        (Z.to_nat (AxisRulesEngine.maxIterations cfg)) 0 true
        (JSON_parse (JSON_stringify inputData)).
Proof.
  intros Hfree. rewrite <- builtin_free_sort in Hfree.
  destruct (apply_run h inputData cfg m) as (m0 & _ & Hnames0 & Happly).
  destruct (while_loop_reading h _ (Z.to_nat (AxisRulesEngine.maxIterations cfg))
              Hfree 0 true (JSON_parse (JSON_stringify inputData)) m0)
    as (m1 & Hloop & Hnames).
  destruct (after_loop h _ _ 0 true _) as [[n st'] names] eqn:Hafter.
  cbn [fst snd] in Hloop, Hnames.
  destruct (Happly n st' m1 Hloop) as (r & m2 & Hrun & _ & Hout & Hit & _ & Happlied & _).
  exists r, m2. split; [exact Hrun |].
  rewrite Hit, Hout, Happlied, Hnames, Hnames0. reflexivity.
Qed.

Section SameEvaluation.

Context (h1 h2 : Host) (Hsame : same_evaluation h1 h2).

Lemma holds_same (c : condition) (st : obj) : holds h1 c st = holds h2 c st.
Proof. unfold holds. rewrite Hsame. reflexivity. Qed.

Lemma resolved_same (v : value) (st : obj) : resolved h1 v st = resolved h2 v st.
Proof. unfold resolved. destruct v; try reflexivity. rewrite Hsame. reflexivity. Qed.

Lemma entries_written_same (entries : list (string * value)) (st : obj) :
  entries_written h1 entries st = entries_written h2 entries st.
Proof.
  revert st. induction entries as [| [p v] entries IH]; intros st; simpl;
    [reflexivity |].
  rewrite resolved_same. apply IH.
Qed.

Lemma after_rule_same (r : Rule) (st : obj) : after_rule h1 r st = after_rule h2 r st.
Proof.
  unfold after_rule. rewrite holds_same.
  destruct (holds h2 (cond r) st); [| reflexivity].
  destruct (then_ r); [apply entries_written_same | reflexivity].
Qed.

Lemma rule_changes_same (r : Rule) (st : obj) :
  rule_changes h1 r st = rule_changes h2 r st.
Proof. unfold rule_changes. rewrite holds_same, after_rule_same. reflexivity. Qed.

Lemma after_rules_same (todo : list Rule) (st : obj) (ch : bool) :
  after_rules h1 todo st ch = after_rules h2 todo st ch.
Proof.
  revert st ch. induction todo as [| r todo IH]; intros st ch; simpl; [reflexivity |].
  rewrite after_rule_same, rule_changes_same. apply IH.
Qed.

Lemma fired_same (todo : list Rule) (st : obj) : fired h1 todo st = fired h2 todo st.
Proof.
  revert st. induction todo as [| r todo IH]; intros st; simpl; [reflexivity |].
  rewrite holds_same, after_rule_same, IH. reflexivity.
Qed.

Lemma after_loop_same (sortedRules : list Rule) (remaining it : nat) (ch : bool)
    (st : obj) :
  after_loop h1 sortedRules remaining it ch st
  = after_loop h2 sortedRules remaining it ch st.
Proof.
  revert it ch st. induction remaining as [| remaining IH]; intros it ch st; simpl;
    [reflexivity |].
  destruct ch; [| reflexivity].
  rewrite after_rules_same, fired_same, IH. reflexivity.
Qed.

End SameEvaluation.




(** ** Fixpoints *)

Section Fixpoints.

Context (h : Host).

Lemma after_rules_raised (todo : list Rule) (st : obj) :
  snd (after_rules h todo st true) = true.
Proof.
  revert st. induction todo as [| r todo IH]; intros st; simpl; [reflexivity |].
  destruct (rule_changes h r st); apply IH.
Qed.

(** A sweep through JSON states that reports no change returns the state
    it started from. *)
Lemma after_rules_fixed (todo : list Rule) (st : obj) (ch : bool) :
  Forall json_state (states_of_sweep h todo st) ->
  json_state st ->
  snd (after_rules h todo st ch) = false ->
  after_rules h todo st ch = (st, false).
Proof.
  revert st ch. induction todo as [| r todo IH]; intros st ch Hstates Hst Hflag;
    simpl in *.
  - rewrite <- Hflag. reflexivity.
  - apply Forall_cons in Hstates as [Hjson Hrest].
    destruct (rule_changes h r st) eqn:Hchange.
    + rewrite after_rules_raised in Hflag. discriminate.
    + assert (Hsame : after_rule h r st = st).
      { unfold rule_changes in Hchange. unfold after_rule in *.
        destruct (holds h (cond r) st); [| reflexivity].
        destruct (then_ r) as [t |]; [| reflexivity].
        simpl in Hchange. apply negb_false_iff, text_eqb_eq in Hchange.
        unfold json_state in Hst, Hjson. unfold JSON_parse in *.
        rewrite <- Hjson, <- Hchange. exact Hst. }
      rewrite Hsame in *. apply IH; assumption.
Qed.

Lemma after_rules_json (todo : list Rule) (st : obj) (ch : bool) :
  Forall json_state (states_of_sweep h todo st) ->
  json_state st -> json_state (fst (after_rules h todo st ch)).
Proof.
  revert st ch. induction todo as [| r todo IH]; intros st ch Hstates Hst; simpl in *.
  - exact Hst.
  - apply Forall_cons in Hstates as [Hjson Hrest]. apply IH; assumption.
Qed.

Lemma after_loop_unchanged (sortedRules : list Rule) (remaining it : nat) (st : obj) :
  after_loop h sortedRules remaining it false st = (it, st, []).
Proof. destruct remaining; reflexivity. Qed.

(** A run through JSON states that stops below the cap stops in a state
    that a sweep leaves as it is. *)
Lemma after_loop_converged (sortedRules : list Rule) (remaining : nat) :
  forall it st,
    Forall json_state (states_of_run h sortedRules remaining true st) ->
    json_state st ->
    fst (fst (after_loop h sortedRules remaining it true st)) < it + remaining ->
    let st' := snd (fst (after_loop h sortedRules remaining it true st)) in
    json_state st' /\ after_rules h sortedRules st' false = (st', false).
Proof.
  induction remaining as [| remaining IH]; intros it st Hstates Hst Hlt.
  - simpl in Hlt. lia.
  - cbn [after_loop states_of_run] in *.
    apply Forall_app in Hstates as [Hsweep Hlater].
    pose proof (after_rules_json sortedRules st false Hsweep Hst) as Hjson.
    pose proof (after_rules_fixed sortedRules st false Hsweep Hst) as Hfixed.
    destruct (after_rules h sortedRules st false) as [st1 c1] eqn:Hswept.
    cbn [fst snd] in *. destruct c1.
    + specialize (IH (S it) st1 Hlater Hjson).
      destruct (after_loop h sortedRules remaining (S it) true st1)
        as [[n st'] names] eqn:Hloop.
      cbn [fst snd] in *. apply IH. lia.
    + rewrite after_loop_unchanged. cbn [fst snd].
      specialize (Hfixed eq_refl). injection Hfixed as ->.
      split; [exact Hst | exact Hswept].
Qed.

End Fixpoints.




(** It fails without any clock as well: the rule [once] leaves behind an
    own property [a_b] whose value is [undefined]; it hides the flattened
    key [a_b] from the condition in the second sweep of the first call,
    and is gone from the copy the second call starts from. *)
Remark fixpoint_lost_behind_undefined :
  option_map (fun r => (iterations r, output r))
    (returned (AxisRulesEngine.apply Scenario.still
                 [("a", VObj [("b", VNum 1)]); ("n", VNum 0)]
                 Scenario.counting fresh))
  = Some (2, [("a", VObj [("b", VNum 1)]); ("n", VNum 1); ("a_b", VUndef)]) /\
  option_map (fun r => (iterations r, output r))
    (returned (AxisRulesEngine.apply Scenario.still
                 [("a", VObj [("b", VNum 1)]); ("n", VNum 1); ("a_b", VUndef)]
                 Scenario.counting fresh))
  = Some (2, [("a", VObj [("b", VNum 1)]); ("n", VNum 2); ("a_b", VUndef)]).
Proof. split; vm_compute; reflexivity. Qed.

(** * Further properties of the code

    Properties of the engine that the code shows beyond the statements of
    the specification: of the order of the rules, of [setNestedPath],
    [flattenObject] and [createSafeContext], of the [uuid()] builtin, of
    the logs of [apply], of [simpleHash] and [validate], and of
    [applyRules] and [evaluateThreshold] of the axis-cli engine. *)

(** ** The order of execution *)

Lemma filter_insert_by_priority (f : Rule -> bool) (r : Rule) (l : list Rule) :
  (forall x, f r = true -> f x = true ->
     AxisRulesEngine.effective_priority x = AxisRulesEngine.effective_priority r) ->
  List.filter f (AxisRulesEngine.insert_by_priority r l)
  = if f r then r :: List.filter f l else List.filter f l.
Proof.
  intros Hsame. induction l as [| x l IH]; simpl.
  - reflexivity.
  - destruct (Z.ltb_spec 0 (AxisRulesEngine.effective_priority r
                           - AxisRulesEngine.effective_priority x)) as [Hlt | Hge]; simpl.
    + rewrite IH. destruct (f x) eqn:Hx, (f r) eqn:Hr; try reflexivity.
      specialize (Hsame x eq_refl Hx). lia.
    + reflexivity.
Qed.

(** X2.  The sort of [apply] is stable: among the rules of one effective
    priority [p] (a missing priority and the priority 0 counting as 999),
    the sorted list keeps the order of the configuration. *)
Theorem equal_priorities_keep_their_order (l : list Rule) (p : Z) :
  List.filter (fun r => Z.eqb (AxisRulesEngine.effective_priority r) p)
              (AxisRulesEngine.sort_by_priority l)
  = List.filter (fun r => Z.eqb (AxisRulesEngine.effective_priority r) p) l.
Proof.
  induction l as [| r l IH]; simpl; [reflexivity |].
  rewrite filter_insert_by_priority, IH; [reflexivity |].
  intros x Hr Hx. apply Z.eqb_eq in Hr, Hx. congruence.
Qed.

Lemma insert_by_priority_perm (r : Rule) (l : list Rule) :
  Permutation (AxisRulesEngine.insert_by_priority r l) (r :: l).
Proof.
  induction l as [| x l IH]; simpl; [reflexivity |].
  destruct (Z.ltb _ _); [| reflexivity].
  rewrite IH. apply perm_swap.
Qed.

Lemma sort_by_priority_perm (l : list Rule) :
  Permutation (AxisRulesEngine.sort_by_priority l) l.
Proof.
  induction l as [| r l IH]; simpl; [reflexivity |].
  rewrite insert_by_priority_perm, IH. reflexivity.
Qed.

Lemma insert_by_priority_sorted (r : Rule) (l : list Rule) :
  StronglySorted runs_before l ->
  StronglySorted runs_before (AxisRulesEngine.insert_by_priority r l).
Proof.
  induction 1 as [| x l Hl IH Hx]; simpl.
  - repeat constructor.
  - destruct (Z.ltb_spec 0 (AxisRulesEngine.effective_priority r
                           - AxisRulesEngine.effective_priority x)) as [Hlt | Hge].
    + constructor; [exact IH |].
      apply Forall_forall. intros y Hy.
      apply list_elem_of_In, in_insert_by_priority in Hy. destruct Hy as [-> | Hy].
      * unfold runs_before. lia.
      * rewrite Forall_forall in Hx. apply Hx, list_elem_of_In, Hy.
    + constructor; [constructor; assumption |].
      constructor; [unfold runs_before; lia |].
      eapply Forall_impl; [exact Hx |]. unfold runs_before. intros y Hy. simpl in Hy. lia.
Qed.

(** X1.  The list of rules [apply] runs is a rearrangement of the rules
    of the configuration, none lost and none repeated, in ascending order
    of [priority || 999]. *)
Theorem rules_run_in_priority_order (l : list Rule) :
  Permutation (AxisRulesEngine.sort_by_priority l) l /\
  StronglySorted runs_before (AxisRulesEngine.sort_by_priority l).
Proof.
  split; [apply sort_by_priority_perm |].
  induction l as [| r l IH]; simpl; [constructor |].
  apply insert_by_priority_sorted, IH.
Qed.

(** ** Writing along a path *)

Lemma nth_array_set (i : nat) (v : value) (xs : list value) :
  nth i (array_set i v xs) VUndef = v.
Proof.
  revert xs. induction i as [| i IH]; intros [| x xs]; simpl; auto.
Qed.

Lemma get_set_prop (node : value) (k : string) (v : value) :
  holds_property node k = true -> get_prop (set_prop node k v) k = v.
Proof.
  destruct node; simpl; try discriminate.
  - destruct (array_index k) as [i |] eqn:Hi; [| discriminate].
    intros _. simpl. rewrite Hi. apply nth_array_set.
  - intros _. rewrite obj_get_set_eq. reflexivity.
Qed.

Lemma set_path_read (keys : list string) :
  forall (current v : value),
    keys <> [] -> storable current keys = true ->
    get_path (AxisRulesEngine.set_path current keys v) keys = v.
Proof.
  induction keys as [| k rest IH]; intros current v Hne Hst; [congruence |].
  destruct rest as [| k2 rest].
  - simpl in *. apply get_set_prop, Hst.
  - cbn [AxisRulesEngine.set_path get_path].
    cbn [storable] in Hst. apply andb_true_iff in Hst as [Hk Hrest].
    rewrite get_set_prop by exact Hk.
    apply IH; [discriminate | exact Hrest].
Qed.

Lemma split_dot_cons (path : string) :
  exists k rest, JsString.split_dot path = k :: rest.
Proof.
  induction path as [| c path (k & rest & IH)]; simpl.
  - eauto.
  - destruct (Ascii.eqb c "."); [eauto |]. rewrite IH. eauto.
Qed.

Lemma set_path_root (o : obj) (k : string) (rest : list string) (v : value) :
  exists x, AxisRulesEngine.set_path (VObj o) (k :: rest) v = VObj (obj_set k x o).
Proof.
  destruct rest as [| k2 rest]; cbn [AxisRulesEngine.set_path set_prop]; eauto.
Qed.

(** X3.  What [setNestedPath] writes is read back along the same path,
    when every node it assigns to keeps the assignment: the path runs
    through objects, or through arrays at keys that are indices, and no
    segment of it is [__proto__], which names no property of the object
    but its prototype. *)
Theorem setNestedPath_read_back (o : obj) (path : string) (v : value) :
  storable (VObj o) (JsString.split_dot path) = true ->
  ~ In "__proto__" (JsString.split_dot path) ->
  get_path (VObj (AxisRulesEngine.setNestedPath o path v)) (JsString.split_dot path) = v.
Proof.
  intros Hst _. unfold AxisRulesEngine.setNestedPath.
  destruct (split_dot_cons path) as (k & rest & Hkeys).
  pose proof (set_path_read (JsString.split_dot path) (VObj o) v) as Hread.
  rewrite Hkeys in *.
  destruct (set_path_root o k rest v) as [x Hx].
  rewrite Hx in *. apply Hread; [discriminate | exact Hst].
Qed.

Lemma setNestedPath_read_back_witness :
  storable (VObj [("user", VObj [("tags", VArr [VStr "a"])])])
           (JsString.split_dot "user.tags.2") = true /\
  ~ In "__proto__" (JsString.split_dot "user.tags.2") /\
  get_path (VObj (AxisRulesEngine.setNestedPath
                    [("user", VObj [("tags", VArr [VStr "a"])])] "user.tags.2" (VNum 1)))
           ["user"; "tags"; "2"] = VNum 1.
Proof.
  assert (Hplain : ~ In "__proto__" (JsString.split_dot "user.tags.2"))
    by (simpl; intros [H | [H | [H | []]]]; discriminate).
  split; [reflexivity |]. split; [exact Hplain |].
  apply (setNestedPath_read_back [("user", VObj [("tags", VArr [VStr "a"])])]
           "user.tags.2" (VNum 1)).
  - reflexivity.
  - exact Hplain.
Defined.

Lemma obj_keys_set (k : string) (v : value) (o : obj) :
  obj_keys (obj_set k v o)
  = if existsb (String.eqb k) (obj_keys o) then obj_keys o else (obj_keys o ++ [k])%list.
Proof.
  induction o as [| [k' x] o IH]; simpl; [reflexivity |].
  destruct (String.eqb_spec k k') as [-> | Hne]; simpl; [reflexivity |].
  rewrite IH. destruct (existsb _ _); reflexivity.
Qed.

(** X4.  On an object that shares no part between two of its keys,
    [setNestedPath] touches one top-level key, the first segment of the
    path: every other key keeps its value, and the keys keep their order,
    a new first segment going last.  The path is one that every node on
    the way keeps (objects, or arrays at indices), none of its segments
    is [__proto__], and its first segment is no array index, which an
    object would enumerate before its other keys. *)
Theorem setNestedPath_keeps_other_keys (o : obj) (path : string) (v : value) :
  storable (VObj o) (JsString.split_dot path) = true ->
  ~ In "__proto__" (JsString.split_dot path) ->
  array_index (hd EmptyString (JsString.split_dot path)) = None ->
  (forall k, k <> hd EmptyString (JsString.split_dot path) ->
     obj_get k (AxisRulesEngine.setNestedPath o path v) = obj_get k o) /\
  obj_keys (AxisRulesEngine.setNestedPath o path v)
  = if existsb (String.eqb (hd EmptyString (JsString.split_dot path))) (obj_keys o)
    then obj_keys o
    else (obj_keys o ++ [hd EmptyString (JsString.split_dot path)])%list.
Proof.
  intros _ _ _. unfold AxisRulesEngine.setNestedPath.
  destruct (split_dot_cons path) as (k0 & rest & ->). cbn [hd].
  destruct (set_path_root o k0 rest v) as [x ->].
  split; [| apply obj_keys_set].
  intros k Hne. apply obj_get_set_ne, Hne.
Qed.

Lemma setNestedPath_keeps_other_keys_witness :
  storable (VObj [("user", VObj [("age", VNum 36)]); ("n", VNum 1)])
           (JsString.split_dot "flags.adult") = true /\
  ~ In "__proto__" (JsString.split_dot "flags.adult") /\
  array_index (hd EmptyString (JsString.split_dot "flags.adult")) = None /\
  obj_get "user"
    (AxisRulesEngine.setNestedPath [("user", VObj [("age", VNum 36)]); ("n", VNum 1)]
       "flags.adult" (VBool true))
  = Some (VObj [("age", VNum 36)]) /\
  obj_keys
    (AxisRulesEngine.setNestedPath [("user", VObj [("age", VNum 36)]); ("n", VNum 1)]
       "flags.adult" (VBool true))
  = ["user"; "n"; "flags"].
Proof.
  assert (Hplain : ~ In "__proto__" (JsString.split_dot "flags.adult"))
    by (simpl; intros [H | [H | []]]; discriminate).
  destruct (setNestedPath_keeps_other_keys
              [("user", VObj [("age", VNum 36)]); ("n", VNum 1)] "flags.adult"
              (VBool true) eq_refl Hplain eq_refl) as [Hothers Hkeys].
  split; [reflexivity |]. split; [exact Hplain |]. split; [reflexivity |].
  split.
  - rewrite (Hothers "user") by (simpl; discriminate). reflexivity.
  - rewrite Hkeys. reflexivity.
Defined.

Lemma append_cons (c : ascii) (s t : string) : String c s +:+ t = String c (s +:+ t).
Proof. reflexivity. Qed.

Lemma prefix_dot (c : ascii) (s : string) :
  String.prefix "." (String c s) = Ascii.eqb c ".".
Proof.
  change (String.prefix "." (String c s))
    with (if ascii_dec "."%char c then String.prefix "" s else false).
  destruct (ascii_dec "."%char c) as [<- | Hne].
  - destruct s; reflexivity.
  - symmetry. apply Ascii.eqb_neq. congruence.
Qed.

Lemma split_dot_append (k rest : string) :
  JsString.includes "." k = false ->
  JsString.split_dot (k +:+ "." +:+ rest) = k :: JsString.split_dot rest.
Proof.
  induction k as [| c k IH]; intros Hdot.
  - reflexivity.
  - cbn [JsString.includes] in Hdot. rewrite prefix_dot in Hdot.
    apply orb_false_iff in Hdot as [Hc Hk].
    rewrite append_cons. cbn [JsString.split_dot]. rewrite Hc, (IH Hk). reflexivity.
Qed.

Lemma split_dot_plain (k : string) :
  JsString.includes "." k = false -> JsString.split_dot k = [k].
Proof.
  induction k as [| c k IH]; intros Hdot; [reflexivity |].
  cbn [JsString.includes] in Hdot. rewrite prefix_dot in Hdot.
  apply orb_false_iff in Hdot as [Hc Hk].
  cbn [JsString.split_dot]. rewrite Hc, (IH Hk). reflexivity.
Qed.

(** X5.  On the way to a nested key, [setNestedPath] replaces whatever is
    no object by a fresh one: when the key [k] is missing, or holds a
    number, a string, a boolean or [null], writing [k.k'] leaves under [k]
    an object with the one property [k'], and the old value is gone.
    Neither key is [__proto__], which names the prototype and not a
    property. *)
Theorem setNestedPath_replaces_what_is_no_object (o : obj) (k k' : string) (v : value) :
  JsString.includes "." k = false ->
  JsString.includes "." k' = false ->
  k <> "__proto__" -> k' <> "__proto__" ->
  truthy (get_prop (VObj o) k) && typeof_object (get_prop (VObj o) k) = false ->
  obj_get k (AxisRulesEngine.setNestedPath o (k +:+ "." +:+ k') v)
  = Some (VObj [(k', v)]).
Proof.
  intros Hk Hk' _ _ Hscalar. unfold AxisRulesEngine.setNestedPath.
  rewrite (split_dot_append k k' Hk), (split_dot_plain k' Hk').
  cbn [AxisRulesEngine.set_path].
  rewrite <- negb_andb, Hscalar. cbn [negb set_prop obj_set].
  apply obj_get_set_eq.
Qed.

Lemma setNestedPath_replaces_what_is_no_object_witness :
  obj_get "user" [("user", VStr "Ada")] = Some (VStr "Ada") /\
  obj_get "user" (AxisRulesEngine.setNestedPath [("user", VStr "Ada")] "user.age" (VNum 36))
  = Some (VObj [("age", VNum 36)]).
Proof.
  split; [reflexivity |].
  apply (setNestedPath_replaces_what_is_no_object [("user", VStr "Ada")] "user" "age");
    try reflexivity; discriminate.
Defined.

(** ** The evaluation context *)

Lemma dots_to_underscores_plain (s : string) :
  JsString.includes "." (JsString.dots_to_underscores s) = false.
Proof.
  induction s as [| c s IH]; [reflexivity |].
  cbn [JsString.dots_to_underscores JsString.includes].
  rewrite prefix_dot, IH.
  destruct (Ascii.eqb_spec c ".") as [-> | Hne]; [reflexivity |].
  apply orb_false_iff. split; [| reflexivity]. apply Ascii.eqb_neq, Hne.
Qed.

Lemma Forall_obj_set (P : string * value -> Prop) (k : string) (v : value) (o : obj) :
  P (k, v) -> Forall P o -> Forall P (obj_set k v o).
Proof.
  intros Hkv. induction 1 as [| [k' x] o Hx Ho IH]; simpl.
  - repeat constructor. exact Hkv.
  - destruct (String.eqb k k'); constructor; assumption.
Qed.

Lemma Forall_obj_assign (P : string * value -> Prop) (source : obj) :
  forall target, Forall P target -> Forall P source -> Forall P (obj_assign target source).
Proof.
  unfold obj_assign.
  induction source as [| [k v] source IH]; intros target Ht Hs; simpl; [exact Ht |].
  inversion Hs; subst. apply IH; [| assumption]. apply Forall_obj_set; assumption.
Qed.

Lemma flatten_value_flat (v : value) :
  forall prefix, Forall (fun entry => flat_entry entry = true)
                        (AxisRulesEngine.flatten_value prefix v).
Proof.
  induction v as [| | b | n | s | u | xs IHxs | kvs IH] using value_nested_ind;
    intros prefix;
    try (constructor; fail).
  cbn [AxisRulesEngine.flatten_value].
  assert (Hacc : Forall (fun entry => flat_entry entry = true) ([] : obj)) by constructor.
  revert Hacc. generalize ([] : obj).
  induction IH as [| [key x] l Hx Hl IHl]; intros flattened Hacc; [exact Hacc |].
  apply IHl. cbn [snd] in Hx.
  assert (Hleaf : plain_object x = false ->
                  Forall (fun entry => flat_entry entry = true)
                    (obj_set (JsString.dots_to_underscores
                                (if String.eqb prefix "" then key
                                 else prefix +:+ "." +:+ key)) x flattened)).
  { intros Hplain. apply Forall_obj_set; [| exact Hacc].
    unfold flat_entry. cbn [fst snd].
    rewrite dots_to_underscores_plain, Hplain. reflexivity. }
  destruct x as [| | b | n | s | xs | inner | u]; try (apply Hleaf; reflexivity).
  - apply Forall_obj_assign; [exact Hacc | apply Hx].
  - destruct (host_is_object u) eqn:Hhost; [exact Hacc |].
    apply Hleaf. exact Hhost.
Qed.

(** X6.  Every entry of a flattened object has a key without a dot and a
    value that is no plain object: nested objects are always descended
    into, arrays and [null] are leaves, and the dots of a key, those of
    the prefix and those of a property name alike, become underscores. *)
Theorem flattenObject_entries (o : obj) (prefix k : string) (v : value) :
  In (k, v) (AxisRulesEngine.flattenObject o prefix) ->
  JsString.includes "." k = false /\ plain_object v = false.
Proof.
  intros Hin.
  pose proof (flatten_value_flat (VObj o) prefix) as Hall.
  rewrite List.Forall_forall in Hall. specialize (Hall (k, v) Hin).
  unfold flat_entry in Hall. cbn [fst snd] in Hall.
  apply andb_true_iff in Hall as [Hk Hv].
  split; apply negb_true_iff; assumption.
Qed.

Lemma flattenObject_entries_witness :
  In ("user_address_city", VStr "Oslo")
     (AxisRulesEngine.flattenObject [("user", VObj [("address.city", VStr "Oslo")])] "") /\
  JsString.includes "." "user_address_city" = false /\
  plain_object (VStr "Oslo") = false.
Proof.
  assert (Hin : In ("user_address_city", VStr "Oslo")
                   (AxisRulesEngine.flattenObject
                      [("user", VObj [("address.city", VStr "Oslo")])] ""))
    by (left; reflexivity).
  split; [exact Hin |].
  exact (flattenObject_entries _ _ _ _ Hin).
Defined.

Lemma obj_get_none (k : string) (o : obj) :
  ~ In k (obj_keys o) -> obj_get k o = None.
Proof.
  induction o as [| [k' x] o IH]; simpl; intros Hnot; [reflexivity |].
  destruct (String.eqb_spec k k') as [-> | Hne]; [tauto |].
  apply IH. tauto.
Qed.

Lemma obj_get_assign (k : string) (source : obj) :
  forall target,
    NoDup (obj_keys source) ->
    obj_get k (obj_assign target source)
    = match obj_get k source with
      | Some v => Some v
      | None => obj_get k target
      end.
Proof.
  unfold obj_assign.
  induction source as [| [k' x] source IH]; intros target Hnodup; simpl; [reflexivity |].
  cbn [obj_keys map fst] in Hnodup. apply NoDup_cons in Hnodup as [Hnot Hrest].
  rewrite list_elem_of_In in Hnot.
  rewrite (IH _ Hrest). cbn [fst snd].
  destruct (String.eqb_spec k k') as [-> | Hne].
  - rewrite (obj_get_none k' source Hnot). apply obj_get_set_eq.
  - destruct (obj_get k source); [reflexivity |]. apply obj_get_set_ne, Hne.
Qed.

Lemma NoDup_obj_set (k : string) (v : value) (o : obj) :
  NoDup (obj_keys o) -> NoDup (obj_keys (obj_set k v o)).
Proof.
  intros Hnodup. rewrite obj_keys_set.
  destruct (existsb (String.eqb k) (obj_keys o)) eqn:Hex; [exact Hnodup |].
  apply NoDup_app. split; [exact Hnodup |]. split; [| apply NoDup_singleton].
  intros x Hx Hk. apply list_elem_of_singleton in Hk. subst x.
  assert (existsb (String.eqb k) (obj_keys o) = true); [| congruence].
  apply existsb_exists. exists k.
  split; [apply list_elem_of_In, Hx | apply String.eqb_refl].
Qed.

Lemma NoDup_obj_assign (source : obj) :
  forall target, NoDup (obj_keys target) ->
                 NoDup (obj_keys (obj_assign target source)).
Proof.
  unfold obj_assign. induction source as [| [k v] source IH]; intros target Ht; simpl.
  - exact Ht.
  - apply IH, NoDup_obj_set, Ht.
Qed.

Lemma flattenObject_keys_distinct (o : obj) (prefix : string) :
  NoDup (obj_keys (AxisRulesEngine.flattenObject o prefix)).
Proof.
  unfold AxisRulesEngine.flattenObject. cbn [AxisRulesEngine.flatten_value].
  assert (Hacc : NoDup (obj_keys [])) by apply NoDup_nil_2.
  revert Hacc. generalize ([] : obj).
  induction o as [| [key x] o IH]; intros flattened Hacc; [exact Hacc |].
  apply IH. destruct x as [| | b | n | s | xs | inner | u];
    try (apply NoDup_obj_set, Hacc).
  - apply NoDup_obj_assign, Hacc.
  - destruct (host_is_object u); [exact Hacc | apply NoDup_obj_set, Hacc].
Qed.

(** X7.  Below the utilities, the own keys of the state come before the
    flattened ones: a name that is no utility evaluates to the top-level
    property of that name when the state has one, whatever a nested
    property flattens to, and to the flattened value otherwise. *)
Theorem createSafeContext_precedence (context : obj) (k : string) :
  NoDup (obj_keys context) ->
  ~ In k utility_names ->
  obj_get k (AxisRulesEngine.createSafeContext context)
  = match obj_get k context with
    | Some v => Some v
    | None => obj_get k (AxisRulesEngine.flattenObject context "")
    end.
Proof.
  intros Hnodup Hnot. unfold AxisRulesEngine.createSafeContext.
  rewrite obj_get_assign by (apply (bool_decide_unpack _); vm_compute; reflexivity).
  rewrite (obj_get_none k AxisRulesEngine.utilities) by exact Hnot.
  rewrite (obj_get_assign k context) by exact Hnodup.
  destruct (obj_get k context); [reflexivity |].
  rewrite obj_get_assign by apply flattenObject_keys_distinct.
  destruct (obj_get k _); reflexivity.
Qed.

Lemma createSafeContext_precedence_witness :
  NoDup (obj_keys [("a_b", VNum 2); ("a", VObj [("b", VNum 1)])]) /\
  obj_get "a_b" (AxisRulesEngine.flattenObject
                   [("a_b", VNum 2); ("a", VObj [("b", VNum 1)])] "")
  = Some (VNum 1) /\
  obj_get "a_b" (AxisRulesEngine.createSafeContext
                   [("a_b", VNum 2); ("a", VObj [("b", VNum 1)])])
  = Some (VNum 2).
Proof.
  assert (Hnodup : NoDup (obj_keys [("a_b", VNum 2); ("a", VObj [("b", VNum 1)])]))
    by (apply (bool_decide_unpack _); vm_compute; reflexivity).
  split; [exact Hnodup |]. split; [reflexivity |].
  apply (createSafeContext_precedence
           [("a_b", VNum 2); ("a", VObj [("b", VNum 1)])] "a_b" Hnodup).
  intros Hin. repeat (destruct Hin as [Hin | Hin]; [discriminate |]). exact Hin.
Defined.

(** ** The uuid builtin *)

Lemma nibble_cases (r : Z) :
  (0 <= r < 16)%Z ->
  In r [0; 1; 2; 3; 4; 5; 6; 7; 8; 9; 10; 11; 12; 13; 14; 15]%Z.
Proof.
  intros Hr. simpl.
  assert (r = 0 \/ r = 1 \/ r = 2 \/ r = 3 \/ r = 4 \/ r = 5 \/ r = 6 \/ r = 7 \/
          r = 8 \/ r = 9 \/ r = 10 \/ r = 11 \/ r = 12 \/ r = 13 \/ r = 14 \/ r = 15)%Z
    by lia.
  intuition auto.
Qed.

Lemma hex_digit_x (r : Z) :
  (0 <= r < 16)%Z -> is_hex (AxisRulesEngine.hex_digit r) = true.
Proof.
  intros Hr. apply nibble_cases in Hr. simpl in Hr.
  repeat (destruct Hr as [<- | Hr]; [reflexivity |]). destruct Hr.
Qed.

Lemma hex_digit_y (r : Z) :
  (0 <= r < 16)%Z ->
  existsb (Ascii.eqb (AxisRulesEngine.hex_digit (Z.lor (Z.land r 3) 8)))
          (list_ascii_of_string "89ab") = true.
Proof.
  intros Hr. apply nibble_cases in Hr. simpl in Hr.
  repeat (destruct Hr as [<- | Hr]; [reflexivity |]). destruct Hr.
Qed.

Lemma uuid_replace_shape (h : Host) (pattern : string) :
  forall m, exists u m',
    AxisRulesEngine.uuid_replace h pattern m = (Ret u, m') /\
    uuid_shaped pattern u = true /\
    random_draws m' = random_draws m + drawn pattern /\
    clock_reads m' = clock_reads m /\
    auditTrail m' = auditTrail m /\
    conflictLog m' = conflictLog m.
Proof.
  induction pattern as [| c rest IH]; intros m.
  - exists EmptyString, m. simpl. repeat split; lia.
  - cbn [AxisRulesEngine.uuid_replace drawn].
    destruct (Ascii.eqb c "x" || Ascii.eqb c "y") eqn:Hxy.
    + unfold bind at 1, AxisRulesEngine.draw_nibble at 1. cbv beta iota.
      unfold bind at 1.
      match goal with
      | |- context [AxisRulesEngine.uuid_replace h rest ?m1] =>
          destruct (IH m1) as (u & m' & Hrun & Hshape & Hdraws & Hclock & Htrail & Hlog)
      end.
      rewrite Hrun. cbv beta iota. unfold ret.
      eexists _, m'. split; [reflexivity |].
      cbn [random_draws clock_reads auditTrail conflictLog] in *.
      split; [| repeat split; try assumption; lia].
      cbn [uuid_shaped]. rewrite Hshape, andb_true_r.
      pose proof (Z.mod_pos_bound (random_nibble h (random_draws m)) 16 ltac:(lia)) as Hr.
      destruct (Ascii.eqb c "x") eqn:Hx.
      * apply hex_digit_x, Hr.
      * simpl in Hxy. rewrite Hxy. apply hex_digit_y, Hr.
    + unfold bind at 1.
      destruct (IH m) as (u & m' & Hrun & Hshape & Hdraws & Hclock & Htrail & Hlog).
      rewrite Hrun. cbv beta iota. unfold ret.
      eexists _, m'. split; [reflexivity |].
      split; [| repeat split; try assumption; lia].
      cbn [uuid_shaped]. apply orb_false_iff in Hxy as [-> ->].
      rewrite Hshape, Ascii.eqb_refl. reflexivity.
Qed.

Lemma uuid_shaped_length (pattern : string) :
  forall u, uuid_shaped pattern u = true -> String.length u = String.length pattern.
Proof.
  induction pattern as [| p pattern IH]; intros [| c u]; simpl; try discriminate.
  - reflexivity.
  - intros H. apply andb_true_iff in H as [_ H]. rewrite (IH u H). reflexivity.
Qed.

(** X8.  A template whose expression is [uuid()] resolves, whatever the
    random source returns, to a string of 36 characters of the shape
    [xxxxxxxx-xxxx-4xxx-yxxx-xxxxxxxxxxxx]: hyphens and the digit 4 in
    their places, one of [8 9 a b] for [y], a lowercase hexadecimal digit
    for every [x].  It draws 31 random numbers, reads no clock and logs
    nothing. *)
Theorem uuid_template_shape (h : Host) (t : string) (st : obj) (m : Machine) :
  wrapped t = true ->
  expression_of t = "uuid()" ->
  exists u m',
    AxisRulesEngine.resolveValue h (VStr t) st m = (Ret (VStr u), m') /\
    uuid_shaped "xxxxxxxx-xxxx-4xxx-yxxx-xxxxxxxxxxxx" u = true /\
    String.length u = 36 /\
    random_draws m' = random_draws m + 31 /\
    clock_reads m' = clock_reads m /\
    auditTrail m' = auditTrail m.
Proof.
  intros Hwrapped Hexpr.
  unfold AxisRulesEngine.resolveValue. fold (expression_of t). fold (wrapped t).
  rewrite Hwrapped, Hexpr.
  change (String.eqb "uuid()" "now()") with false.
  change (String.eqb "uuid()" "timestamp()") with false.
  change (String.eqb "uuid()" "uuid()") with true. cbv iota.
  destruct (uuid_replace_shape h "xxxxxxxx-xxxx-4xxx-yxxx-xxxxxxxxxxxx" m)
    as (u & m' & Hrun & Hshape & Hdraws & Hclock & Htrail & _).
  unfold try_catch, bind. rewrite Hrun. cbv beta iota. unfold ret.
  exists u, m'. split; [reflexivity |]. split; [exact Hshape |].
  split; [exact (uuid_shaped_length _ u Hshape) |].
  split; [exact Hdraws |]. split; assumption.
Qed.

Lemma uuid_template_shape_witness :
  (wrapped "{{ uuid() }}" = true /\ expression_of "{{ uuid() }}" = "uuid()") /\
  exists u m',
    AxisRulesEngine.resolveValue Scenario.still (VStr "{{ uuid() }}") [] fresh
      = (Ret (VStr u), m') /\
    uuid_shaped "xxxxxxxx-xxxx-4xxx-yxxx-xxxxxxxxxxxx" u = true /\
    String.length u = 36 /\
    random_draws m' = random_draws fresh + 31 /\
    clock_reads m' = clock_reads fresh /\
    auditTrail m' = auditTrail fresh.
Proof.
  split; [split; reflexivity |].
  apply (uuid_template_shape Scenario.still "{{ uuid() }}" [] fresh); reflexivity.
Defined.

(** ** The logs of a run *)

Lemma conflicts_written_entries (it : nat) (new : list write) :
  forall ws e,
    In e (conflicts_written it ws new) ->
    iteration e = it /\ resolution e = "priority_override" /\
    In (field e, currentRule e) new /\
    In (field e, previousRule e) (ws ++ new)%list.
Proof.
  induction new as [| [p r] new IH]; intros ws e Hin; simpl in Hin; [destruct Hin |].
  apply in_app_or in Hin as [Hin | Hin].
  - unfold conflict_if_written in Hin.
    destruct (last_writer p ws) as [previous |] eqn:Hlast; [| destruct Hin].
    destruct Hin as [<- | []]. cbn [iteration resolution field currentRule previousRule].
    split; [reflexivity |]. split; [reflexivity |].
    split; [left; reflexivity |].
    apply in_or_app. left. apply last_writer_in, Hlast.
  - destruct (IH _ _ Hin) as (Hit & Hres & Hcur & Hprev).
    split; [exact Hit |]. split; [exact Hres |].
    split; [right; exact Hcur |].
    rewrite <- app_assoc in Hprev. exact Hprev.
Qed.

Lemma conflicts_written_distinct (it : nat) (new : list write) :
  forall ws,
    NoDup (map fst (ws ++ new)%list) -> conflicts_written it ws new = [].
Proof.
  induction new as [| [p r] new IH]; intros ws Hnodup; simpl; [reflexivity |].
  rewrite IH by (rewrite <- app_assoc; exact Hnodup).
  unfold conflict_if_written. rewrite last_writer_none; [reflexivity |].
  rewrite List.map_app in Hnodup. simpl in Hnodup.
  apply NoDup_app in Hnodup as (_ & Hdisjoint & _).
  intros Hin. apply list_elem_of_In in Hin.
  apply (Hdisjoint p Hin). left.
Qed.

Lemma in_rule_writes (l : list Rule) (p ruleName : string) :
  In (p, ruleName) (flat_map rule_writes l) -> writes_path l ruleName p.
Proof.
  intros Hin. apply in_flat_map in Hin as (r & Hr & Hin).
  unfold rule_writes in Hin. destruct (then_ r) as [t |] eqn:Hthen; [| destruct Hin].
  unfold writes_of in Hin. apply in_map_iff in Hin as ([k v] & Heq & Hkv).
  injection Heq as <- <-.
  exists r, t. split; [exact Hr |]. split; [reflexivity |]. split; [exact Hthen |].
  apply in_map_iff. exists (k, v). split; [reflexivity | exact Hkv].
Qed.

Lemma sublist_In {A : Type} (l1 l2 : list A) (x : A) :
  sublist l1 l2 -> In x l1 -> In x l2.
Proof.
  induction 1 as [| y l1 l2 _ IH | y l1 l2 _ IH]; simpl; intuition auto.
Qed.

Lemma sublist_flat_map_In {A B : Type} (f : A -> list B) (l1 l2 : list A) (x : B) :
  sublist l1 l2 -> In x (flat_map f l1) -> In x (flat_map f l2).
Proof.
  intros Hsub Hin. apply in_flat_map in Hin as (a & Ha & Hx).
  apply in_flat_map. exists a. split; [eapply sublist_In; eassumption | exact Hx].
Qed.

Lemma sublist_flat_map_NoDup {A B : Type} (f : A -> list B) (l1 l2 : list A) :
  sublist l1 l2 -> NoDup (flat_map f l2) -> NoDup (flat_map f l1).
Proof.
  induction 1 as [| y l1 l2 Hsub IH | y l1 l2 Hsub IH]; simpl; intros Hnodup.
  - constructor.
  - apply NoDup_app in Hnodup as (Hy & Hdisjoint & Hrest).
    apply NoDup_app. split; [exact Hy |]. split; [| apply IH, Hrest].
    intros x Hx Hin. apply (Hdisjoint x Hx).
    apply list_elem_of_In. apply list_elem_of_In in Hin.
    eapply sublist_flat_map_In; eassumption.
  - apply NoDup_app in Hnodup as (_ & _ & Hrest). apply IH, Hrest.
Qed.

Lemma map_fst_rule_writes (l : list Rule) :
  map fst (flat_map rule_writes l) = written_paths l.
Proof.
  unfold written_paths. induction l as [| r l IH]; [reflexivity |].
  cbn [flat_map]. rewrite List.map_app. f_equal. exact IH.
Qed.

Section Traces.

Context (h : Host).

(** The rules that fire in a loop over the rules form a sublist of them;
    their names are logged as applied and their writes make the conflict
    entries.  When no condition holds on the state, none fires; when no
    rule has a condition, all do. *)
Lemma for_each_rule_trace (todo : list Rule) :
  forall (st : obj) (ch : bool) (ic : gmap string string) (ws : list write)
         (m : Machine),
    tracks ic ws ->
    exists st' ch' m' fs,
      AxisRulesEngine.for_each_rule h todo st ch ic m = (Ret (st', ch'), m') /\
      sublist fs todo /\
      applied_of (auditTrail m') = (applied_of (auditTrail m) ++ map name fs)%list /\
      conflictLog m' =
        (conflictLog m
         ++ conflicts_written (currentIteration m) ws (flat_map rule_writes fs))%list /\
      (Forall (fun r => holds h (cond r) st = false) todo ->
       st' = st /\ ch' = ch /\ fs = []) /\
      (Forall (fun r => AxisRulesEngine.falsy (cond r) = true) todo -> fs = todo).
Proof.
  induction todo as [| rule todo IH]; intros st ch ic ws m Htracks.
  - exists st, ch, m, []. simpl. rewrite !app_nil_r.
    split; [reflexivity |]. split; [constructor |]. repeat split; reflexivity.
  - cbn [AxisRulesEngine.for_each_rule]. unfold bind at 1.
    destruct (evaluateCondition_run h (cond rule) st m) as (m1 & Hcond & Hc1 & Hi1 & Ha1).
    rewrite Hcond. cbv beta iota.
    destruct (holds h (cond rule) st) eqn:Hholds.
    + unfold bind at 1. rewrite log_run. cbv beta iota.
      match goal with
      | |- context [match then_ rule with _ => _ end ?m2] => set (m2' := m2)
      end.
      assert (Ha2 : applied_of (auditTrail m2')
                    = (applied_of (auditTrail m) ++ [name rule])%list).
      { subst m2'. cbn [auditTrail]. rewrite applied_of_app, applied_of_applied, Ha1.
        reflexivity. }
      assert (Hc2 : conflictLog m2' = conflictLog m) by exact Hc1.
      assert (Hi2 : currentIteration m2' = currentIteration m) by exact Hi1.
      clearbody m2'.
      destruct (then_ rule) as [t |] eqn:Hthen.
      * unfold bind at 1.
        destruct (applyTransformationsWithTracking_run h st t (name rule) ic m2')
          as (st1 & ic1 & m3 & Hrun & Hi3 & Ha3 & Hws & _).
        rewrite Hrun. cbv beta iota.
        destruct (Hws ws Htracks) as [Htracks1 Hlog1].
        destruct (IH st1
                    (if negb (text_eqb (JSON_stringify st) (JSON_stringify st1))
                     then true else ch) ic1 _ m3 Htracks1)
          as (st' & ch' & m' & fs & Hrest & Hsub & Hnames & Hlog & _ & Hevery).
        exists st', ch', m', (rule :: fs).
        split; [exact Hrest |]. split; [apply sublist_skip, Hsub |].
        split; [| split; [| split]].
        -- rewrite Hnames, Ha3, Ha2, <- app_assoc. reflexivity.
        -- cbn [flat_map]. unfold rule_writes at 1. rewrite Hthen.
           rewrite Hlog, Hlog1, Hi3, Hi2, Hc2, conflicts_written_app, app_assoc.
           reflexivity.
        -- intros Hall. inversion Hall; subst. congruence.
        -- intros Hall. inversion Hall; subst. f_equal. apply Hevery. assumption.
      * destruct (IH st ch ic ws m2' Htracks)
          as (st' & ch' & m' & fs & Hrest & Hsub & Hnames & Hlog & _ & Hevery).
        exists st', ch', m', (rule :: fs).
        split; [exact Hrest |]. split; [apply sublist_skip, Hsub |].
        split; [| split; [| split]].
        -- rewrite Hnames, Ha2, <- app_assoc. reflexivity.
        -- cbn [flat_map]. unfold rule_writes at 1. rewrite Hthen. cbn [app].
           rewrite Hlog, Hc2, Hi2. reflexivity.
        -- intros Hall. inversion Hall; subst. congruence.
        -- intros Hall. inversion Hall; subst. f_equal. apply Hevery. assumption.
    + unfold bind at 1. rewrite log_run. cbv beta iota.
      match goal with
      | |- context [AxisRulesEngine.for_each_rule h todo st ch ic ?m2] =>
          set (m2' := m2)
      end.
      assert (Ha2 : applied_of (auditTrail m2') = applied_of (auditTrail m)).
      { subst m2'. cbn [auditTrail]. rewrite applied_of_app, Ha1. apply app_nil_r. }
      assert (Hc2 : conflictLog m2' = conflictLog m) by exact Hc1.
      assert (Hi2 : currentIteration m2' = currentIteration m) by exact Hi1.
      clearbody m2'.
      destruct (IH st ch ic ws m2' Htracks)
        as (st' & ch' & m' & fs & Hrest & Hsub & Hnames & Hlog & Hnone & _).
      exists st', ch', m', fs.
      split; [exact Hrest |]. split; [apply sublist_cons, Hsub |].
      split; [| split; [| split]].
      * rewrite Hnames, Ha2. reflexivity.
      * rewrite Hlog, Hc2, Hi2. reflexivity.
      * intros Hall. inversion Hall; subst. apply Hnone. assumption.
      * intros Hall. inversion Hall as [| ? ? Hfalsy _]; subst.
        unfold holds in Hholds. rewrite Hfalsy in Hholds. discriminate.
Qed.

Lemma sweep_trace (sortedRules : list Rule) (k : nat) (st : obj) (m : Machine) :
  exists st' c m' fs,
    AxisRulesEngine.sweep h sortedRules k st m = (Ret (st', c), m') /\
    sublist fs sortedRules /\
    applied_of (auditTrail m') = (applied_of (auditTrail m) ++ map name fs)%list /\
    conflictLog m' =
      (conflictLog m ++ conflicts_written k [] (flat_map rule_writes fs))%list /\
    (Forall (fun r => holds h (cond r) st = false) sortedRules ->
     st' = st /\ c = false /\ fs = []) /\
    (Forall (fun r => AxisRulesEngine.falsy (cond r) = true) sortedRules ->
     fs = sortedRules).
Proof.
  unfold AxisRulesEngine.sweep, AxisRulesEngine.set_currentIteration, modify.
  unfold bind at 1. cbv beta iota.
  unfold bind at 1. rewrite log_run. cbv beta iota.
  unfold bind at 1.
  match goal with
  | |- context [AxisRulesEngine.for_each_rule h sortedRules st false ∅ ?m1] =>
      destruct (for_each_rule_trace sortedRules st false ∅ [] m1 tracks_empty)
        as (st' & c & m' & fs & Hrun & Hsub & Hnames & Hlog & Hnone & Hevery);
      assert (Ha1 : applied_of (auditTrail m1) = applied_of (auditTrail m))
        by (cbn [auditTrail]; rewrite applied_of_app; apply app_nil_r)
  end.
  rewrite Hrun. cbv beta iota.
  cbn [conflictLog currentIteration] in Hlog. rewrite Ha1 in Hnames.
  unfold bind at 1, gets at 1. cbv beta iota.
  exists st', c.
  destruct (Nat.ltb 0 (length (conflictLog m'))).
  - unfold when, bind. rewrite log_run. cbv beta iota.
    eexists _, fs. split; [reflexivity |]. split; [exact Hsub |].
    cbn [auditTrail conflictLog].
    split; [rewrite applied_of_app, Hnames; apply app_nil_r |].
    split; [exact Hlog |]. split; [exact Hnone | exact Hevery].
  - exists m', fs. split; [reflexivity |]. split; [exact Hsub |].
    split; [exact Hnames |]. split; [exact Hlog |]. split; [exact Hnone | exact Hevery].
Qed.

End Traces.

Section Runs.

Context (h : Host).

Lemma sweep_log_sound (l fs : list Rule) (k : nat) (e : ConflictEntry) :
  sublist fs l ->
  In e (conflicts_written k [] (flat_map rule_writes fs)) ->
  iteration e = k /\ resolution e = "priority_override" /\
  writes_path l (previousRule e) (field e) /\
  writes_path l (currentRule e) (field e).
Proof.
  intros Hsub Hin.
  destruct (conflicts_written_entries k _ [] e Hin) as (Hit & Hres & Hcur & Hprev).
  split; [exact Hit |]. split; [exact Hres |].
  split; apply in_rule_writes; eapply sublist_flat_map_In; eassumption.
Qed.

Lemma sweep_log_empty (l fs : list Rule) (k : nat) :
  sublist fs l -> NoDup (written_paths l) ->
  conflicts_written k [] (flat_map rule_writes fs) = [].
Proof.
  intros Hsub Hnodup. apply conflicts_written_distinct. cbn [app].
  rewrite map_fst_rule_writes. unfold written_paths.
  eapply sublist_flat_map_NoDup; eassumption.
Qed.

Lemma while_loop_trace (sortedRules : list Rule) (remaining : nat) :
  forall (it : nat) (ch : bool) (st : obj) (m : Machine),
  exists n st' m' names log,
    AxisRulesEngine.while_loop h sortedRules remaining it ch st m
      = (Ret (n, st'), m') /\
    it <= n <= it + remaining /\
    (ch = true -> 0 < remaining -> it < n) /\
    applied_of (auditTrail m') = (applied_of (auditTrail m) ++ names)%list /\
    Forall (named_in sortedRules) names /\
    length names <= (n - it) * length sortedRules /\
    conflictLog m' = (conflictLog m ++ log)%list /\
    Forall (sound_conflict sortedRules it n) log /\
    (NoDup (written_paths sortedRules) -> log = []) /\
    (none_holds h sortedRules st -> ch = true -> 0 < remaining ->
     n = S it /\ st' = st /\ names = [] /\ log = []) /\
    (unconditional sortedRules ->
     names = concat (replicate (n - it) (map name sortedRules))).
Proof.
  assert (Hstop : forall remaining it ch st m,
             ch = false \/ remaining = 0 ->
             exists n st' m' names log,
               AxisRulesEngine.while_loop h sortedRules remaining it ch st m
                 = (Ret (n, st'), m') /\
               it <= n <= it + remaining /\
               (ch = true -> 0 < remaining -> it < n) /\
               applied_of (auditTrail m') = (applied_of (auditTrail m) ++ names)%list /\
               Forall (named_in sortedRules) names /\
               length names <= (n - it) * length sortedRules /\
               conflictLog m' = (conflictLog m ++ log)%list /\
               Forall (sound_conflict sortedRules it n) log /\
               (NoDup (written_paths sortedRules) -> log = []) /\
               (none_holds h sortedRules st -> ch = true -> 0 < remaining ->
                n = S it /\ st' = st /\ names = [] /\ log = []) /\
               (unconditional sortedRules ->
                names = concat (replicate (n - it) (map name sortedRules)))).
  { intros rem it ch st m Hcase. exists it, st, m, [], [].
    split.
    - destruct Hcase as [-> | ->]; [apply while_loop_unchanged | reflexivity].
    - rewrite !app_nil_r. split; [lia |].
      split; [intros -> Hrem; destruct Hcase; [discriminate | lia] |].
      split; [reflexivity |]. split; [constructor |]. split; [simpl; lia |].
      split; [reflexivity |]. split; [constructor |]. split; [reflexivity |].
      split; [intros _ -> Hrem; destruct Hcase; [discriminate | lia] |].
      intros _. rewrite Nat.sub_diag. reflexivity. }
  induction remaining as [| remaining IH]; intros it ch st m.
  - apply Hstop. right. reflexivity.
  - destruct ch; [| apply Hstop; left; reflexivity].
    cbn [AxisRulesEngine.while_loop]. unfold bind.
    destruct (sweep_trace h sortedRules (S it) st m)
      as (st1 & c1 & m1 & fs & Hrun & Hsub & Hnames1 & Hlog1 & Hnone1 & Hevery1).
    rewrite Hrun. cbv beta iota. cbn [fst snd].
    destruct (IH (S it) c1 st1 m1)
      as (n & st' & m' & names & log & Hloop & Hn & _ & Hnames & Hnamed & Hlen
          & Hlog & Hsound & Hdistinct & _ & Hevery).
    exists n, st', m', (map name fs ++ names)%list,
      (conflicts_written (S it) [] (flat_map rule_writes fs) ++ log)%list.
    split; [exact Hloop |]. split; [lia |]. split; [intros _ _; lia |].
    split; [rewrite Hnames, Hnames1, <- app_assoc; reflexivity |].
    split.
    { apply Forall_app. split; [| exact Hnamed].
      apply Forall_forall. intros x Hx. apply list_elem_of_In, in_map_iff in Hx.
      destruct Hx as (r & <- & Hr). exists r.
      split; [eapply sublist_In; eassumption | reflexivity]. }
    split.
    { rewrite length_app, length_map.
      pose proof (sublist_length _ _ Hsub) as Hfs.
      replace (n - it) with (S (n - S it)) by lia. simpl. lia. }
    split; [rewrite Hlog, Hlog1, <- app_assoc; reflexivity |].
    split.
    { apply Forall_app. split.
      - apply Forall_forall. intros e He. apply list_elem_of_In in He.
        destruct (sweep_log_sound sortedRules fs (S it) e Hsub He)
          as (Hit & Hres & Hprev & Hcur).
        split; [lia |]. split; [exact Hres |]. split; assumption.
      - eapply Forall_impl; [exact Hsound |].
        intros e (Hit & Hrest). split; [lia | exact Hrest]. }
    split.
    { intros Hnodup. rewrite (Hdistinct Hnodup), app_nil_r.
      apply (sweep_log_empty sortedRules); assumption. }
    split.
    2: { intros Hall. rewrite (Hevery Hall), (Hevery1 Hall).
         replace (n - it) with (S (n - S it)) by lia. reflexivity. }
    intros Hnone _ _. destruct (Hnone1 Hnone) as (-> & -> & ->).
    rewrite while_loop_unchanged in Hloop. injection Hloop as <- <- <-.
    rewrite Hlog1 in Hlog. cbn [flat_map conflicts_written] in Hlog.
    rewrite app_nil_r in Hlog.
    rewrite Hnames1 in Hnames. cbn [map] in Hnames. rewrite app_nil_r in Hnames.
    split; [reflexivity |]. split; [reflexivity |].
    split.
    + apply (app_inv_head (applied_of (auditTrail m))). rewrite app_nil_r.
      symmetry. exact Hnames.
    + cbn [flat_map conflicts_written app].
      apply (app_inv_head (conflictLog m)). rewrite app_nil_r. symmetry. exact Hlog.
Qed.

(** [apply] around its loop, which starts with empty logs. *)
Lemma apply_run_reset (inputData : obj) (cfg : RulesConfig) (m : Machine) :
  exists m0,
    applied_of (auditTrail m0) = [] /\
    conflictLog m0 = [] /\
    forall n st' m1,
      AxisRulesEngine.while_loop h
        (AxisRulesEngine.sort_by_priority (rules cfg))
        (Z.to_nat (AxisRulesEngine.maxIterations cfg)) 0 true
        (JSON_parse (JSON_stringify inputData)) m0 = (Ret (n, st'), m1) ->
      exists r m2,
        AxisRulesEngine.apply h inputData cfg m = (Ret r, m2) /\
        input r = inputData /\ output r = st' /\ iterations r = n /\
        conflicts r = conflictLog m1 /\
        rulesApplied r = applied_of (auditTrail m1).
Proof.
  unfold AxisRulesEngine.apply, AxisRulesEngine.reset, modify.
  unfold bind at 1. cbv beta iota.
  unfold bind at 1. rewrite log_run. cbv beta iota.
  unfold bind at 1. rewrite log_run. cbv beta iota.
  unfold bind at 1. rewrite log_run. cbv beta iota.
  unfold bind at 1.
  match goal with
  | |- context [AxisRulesEngine.while_loop h _ _ 0 true _ ?m0] => exists m0
  end.
  split; [reflexivity |]. split; [reflexivity |].
  intros n st' m1 Hloop. rewrite Hloop. cbv beta iota. cbn [fst snd].
  unfold bind at 1.
  destruct (Z.leb (AxisRulesEngine.maxIterations cfg) (Z.of_nat n)).
  - unfold when. rewrite log_run. cbv beta iota.
    unfold bind at 1. rewrite log_run. cbv beta iota.
    unfold bind, gets, AxisRulesEngine.getRulesApplied, ret. cbv beta iota.
    eexists _, _. split; [reflexivity |]. cbn [input output iterations conflicts
      rulesApplied audit conflictLog auditTrail].
    repeat (split; [reflexivity |]).
    match goal with
    | |- map _ (List.filter _ ?l) = _ =>
        change (applied_of l = applied_of (auditTrail m1))
    end.
    rewrite !applied_of_app. rewrite !app_nil_r. reflexivity.
  - unfold when, ret at 1. cbv beta iota.
    unfold bind at 1. rewrite log_run. cbv beta iota.
    unfold bind, gets, AxisRulesEngine.getRulesApplied, ret. cbv beta iota.
    eexists _, _. split; [reflexivity |]. cbn [input output iterations conflicts
      rulesApplied audit conflictLog auditTrail].
    repeat (split; [reflexivity |]).
    match goal with
    | |- map _ (List.filter _ ?l) = _ =>
        change (applied_of l = applied_of (auditTrail m1))
    end.
    rewrite applied_of_app. rewrite app_nil_r. reflexivity.
Qed.

Lemma writes_path_sorted (l : list Rule) (ruleName p : string) :
  writes_path (AxisRulesEngine.sort_by_priority l) ruleName p -> writes_path l ruleName p.
Proof.
  intros (r & t & Hin & Hrest). exists r, t.
  split; [apply in_sort_by_priority, Hin | exact Hrest].
Qed.

(** What a call of [apply] returns, read off its loop. *)
Lemma apply_trace (inputData : obj) (cfg : RulesConfig) (m : Machine) :
  exists r m',
    AxisRulesEngine.apply h inputData cfg m = (Ret r, m') /\
    (((0 < AxisRulesEngine.maxIterations cfg)%Z -> 1 <= iterations r) /\
     ((AxisRulesEngine.maxIterations cfg < 0)%Z ->
      iterations r = 0 /\ output r = JSON_parse (JSON_stringify inputData))) /\
    Forall (named_in (rules cfg)) (rulesApplied r) /\
    length (rulesApplied r) <= iterations r * length (rules cfg) /\
    Forall (sound_conflict (rules cfg) 0 (iterations r)) (conflicts r) /\
    (NoDup (written_paths (rules cfg)) -> conflicts r = []) /\
    (none_holds h (rules cfg) (JSON_parse (JSON_stringify inputData)) ->
     (0 < AxisRulesEngine.maxIterations cfg)%Z ->
     iterations r = 1 /\ output r = JSON_parse (JSON_stringify inputData) /\
     rulesApplied r = [] /\ conflicts r = []) /\
    (unconditional (rules cfg) ->
     rulesApplied r
     = concat (replicate (iterations r)
                 (map name (AxisRulesEngine.sort_by_priority (rules cfg))))).
Proof.
  destruct (apply_run_reset inputData cfg m) as (m0 & Hnames0 & Hlog0 & Happly).
  destruct (while_loop_trace (AxisRulesEngine.sort_by_priority (rules cfg))
              (Z.to_nat (AxisRulesEngine.maxIterations cfg)) 0 true
              (JSON_parse (JSON_stringify inputData)) m0)
    as (n & st' & m1 & names & log & Hloop & Hn & Hmore & Hnames & Hnamed & Hlen
        & Hlog & Hsound & Hdistinct & Hnone & Hevery).
  destruct (Happly n st' m1 Hloop) as (r & m2 & Hrun & _ & Hout & Hit & Hconf & Happlied).
  pose proof (Permutation_length (sort_by_priority_perm (rules cfg))) as Hsame.
  rewrite Hnames0 in Hnames. rewrite Hlog0 in Hlog. cbn [app] in Hnames, Hlog.
  exists r, m2. split; [exact Hrun |].
  rewrite Hit, Hout, Hconf, Happlied, Hnames, Hlog.
  split.
  { split.
    - intros Hpos. specialize (Hmore eq_refl ltac:(lia)). lia.
    - intros Hneg.
      replace (Z.to_nat (AxisRulesEngine.maxIterations cfg)) with 0 in Hloop by lia.
      injection Hloop as <- <- _. split; reflexivity. }
  split.
  { eapply Forall_impl; [exact Hnamed |].
    intros x (rule & Hin & Hx). exists rule.
    split; [apply in_sort_by_priority, Hin | exact Hx]. }
  split; [rewrite <- Hsame; lia |].
  split.
  { eapply Forall_impl; [exact Hsound |].
    intros e (He & Hres & Hprev & Hcur).
    split; [exact He |]. split; [exact Hres |].
    split; apply writes_path_sorted; assumption. }
  split.
  { intros Hnodup. apply Hdistinct. unfold written_paths.
    rewrite (Permutation_flat_map _ (sort_by_priority_perm (rules cfg))). exact Hnodup. }
  split.
  - intros Hnothing Hpos. apply Hnone; [| reflexivity | lia].
    apply Forall_forall. intros rule Hin.
    apply list_elem_of_In, in_sort_by_priority in Hin.
    unfold none_holds in Hnothing. rewrite Forall_forall in Hnothing.
    apply Hnothing, list_elem_of_In, Hin.
  - intros Hall. rewrite Nat.sub_0_r in Hevery. apply Hevery.
    apply Forall_forall. intros rule Hin.
    apply list_elem_of_In, in_sort_by_priority in Hin.
    unfold unconditional in Hall. rewrite Forall_forall in Hall.
    apply Hall, list_elem_of_In, Hin.
Qed.

End Runs.

(** X9.  The first sweep is made whatever the state and the rules: a run
    that returns under a cap above zero has made at least one sweep, also
    without rules.  Under a negative cap it has made none, and its output
    is the copy of the input. *)
Theorem apply_sweeps_once_unless_cap_is_negative (h : Host) (inputData : obj)
    (cfg : RulesConfig) (m : Machine) (r : Result) :
  returned (AxisRulesEngine.apply h inputData cfg m) = Some r ->
  ((0 < AxisRulesEngine.maxIterations cfg)%Z -> 1 <= iterations r) /\
  ((AxisRulesEngine.maxIterations cfg < 0)%Z ->
   iterations r = 0 /\ output r = JSON_parse (JSON_stringify inputData)).
Proof.
  intros Hreturned.
  destruct (apply_trace h inputData cfg m) as (r' & m' & Hrun & Hit & _).
  unfold returned in Hreturned. rewrite Hrun in Hreturned.
  injection Hreturned as <-. exact Hit.
Qed.

(** A configuration without rules under the default cap, and the doubling
    rule under the cap -1. *)
Lemma apply_sweeps_once_unless_cap_is_negative_witness :
  (exists r,
     returned (AxisRulesEngine.apply Scenario.still [("a", VNum 1)]
                 {| max_iterations := None; rules := [] |} fresh) = Some r /\
     (0 < AxisRulesEngine.maxIterations {| max_iterations := None; rules := [] |})%Z /\
     1 <= iterations r) /\
  (exists r,
     returned (AxisRulesEngine.apply Scenario.still [("a", VNum 1)]
                 {| max_iterations := Some (-1)%Z; rules := [Scenario.double] |}
                 fresh) = Some r /\
     (AxisRulesEngine.maxIterations
        {| max_iterations := Some (-1)%Z; rules := [Scenario.double] |} < 0)%Z /\
     iterations r = 0 /\
     output r = JSON_parse (JSON_stringify [("a", VNum 1)])).
Proof.
  split.
  - eexists. split; [vm_compute; reflexivity |]. split; [reflexivity |].
    refine (proj1 (apply_sweeps_once_unless_cap_is_negative Scenario.still
                     [("a", VNum 1)] {| max_iterations := None; rules := [] |}
                     fresh _ _) _);
      [vm_compute; reflexivity | reflexivity].
  - eexists. split; [vm_compute; reflexivity |]. split; [reflexivity |].
    refine (proj2 (apply_sweeps_once_unless_cap_is_negative Scenario.still
                     [("a", VNum 1)]
                     {| max_iterations := Some (-1)%Z; rules := [Scenario.double] |}
                     fresh _ _) _);
      [vm_compute; reflexivity | reflexivity].
Defined.





(** X13.  When no condition of the rules holds on the copy of the input,
    and so also when there are no rules, a run that returns under a cap
    above zero has run one sweep and returns that copy (the input as
    [JSON.stringify] keeps it), no rule applied and no conflict.  The
    conditions are evaluated by the host, which changes no state. *)
Theorem nothing_fires_nothing_changes (h : Host) (inputData : obj) (cfg : RulesConfig)
    (m : Machine) (r : Result) :
  none_holds h (rules cfg) (JSON_parse (JSON_stringify inputData)) ->
  (0 < AxisRulesEngine.maxIterations cfg)%Z ->
  returned (AxisRulesEngine.apply h inputData cfg m) = Some r ->
  iterations r = 1 /\
  output r = JSON_parse (JSON_stringify inputData) /\
  rulesApplied r = [] /\
  conflicts r = [].
Proof.
  intros Hnone Hpos Hreturned.
  destruct (apply_trace h inputData cfg m)
    as (r' & m' & Hrun & _ & _ & _ & _ & _ & Hnothing & _).
  unfold returned in Hreturned. rewrite Hrun in Hreturned.
  injection Hreturned as <-. apply Hnothing; assumption.
Qed.

Lemma nothing_fires_nothing_changes_witness :
  none_holds Scenario.still (rules Scenario.doubling)
    (JSON_parse (JSON_stringify [("a", VNum 16); ("f", VUndef)])) /\
  (0 < AxisRulesEngine.maxIterations Scenario.doubling)%Z /\
  exists r,
    returned (AxisRulesEngine.apply Scenario.still [("a", VNum 16); ("f", VUndef)]
                Scenario.doubling fresh) = Some r /\
    iterations r = 1 /\
    output r = [("a", VNum 16)] /\
    rulesApplied r = [] /\
    conflicts r = [].
Proof.
  assert (Hnone : none_holds Scenario.still (rules Scenario.doubling)
                    (JSON_parse (JSON_stringify [("a", VNum 16); ("f", VUndef)])))
    by (repeat constructor).
  split; [exact Hnone |]. split; [reflexivity |].
  eexists. split; [vm_compute; reflexivity |].
  apply (nothing_fires_nothing_changes Scenario.still [("a", VNum 16); ("f", VUndef)]
           Scenario.doubling fresh _ Hnone);
    [reflexivity | vm_compute; reflexivity].
Defined.



(** X15.  [apply] starts from empty logs: what the instance has logged in
    earlier runs, and the iteration it was left at, have no part in the
    result, which depends on the instance through the host's clock and
    random source alone. *)
Theorem apply_forgets_earlier_runs (h : Host) (inputData : obj) (cfg : RulesConfig)
    (m1 m2 : Machine) :
  clock_reads m1 = clock_reads m2 ->
  random_draws m1 = random_draws m2 ->
  AxisRulesEngine.apply h inputData cfg m1 = AxisRulesEngine.apply h inputData cfg m2.
Proof.
  intros Hclock Hrandom.
  unfold AxisRulesEngine.apply. unfold bind at 1. unfold bind at 2.
  unfold AxisRulesEngine.reset, modify. rewrite Hclock, Hrandom. reflexivity.
Qed.

Lemma apply_forgets_earlier_runs_witness :
  AxisRulesEngine.apply Scenario.ticking [] Scenario.clash fresh
  = AxisRulesEngine.apply Scenario.ticking [] Scenario.clash
      {| auditTrail := [{| timestamp := "0"; level := LInfo; message := "Applied: r9" |}];
         conflictLog := [Scenario.status_conflict 7];
         currentIteration := 7;
         clock_reads := 0;
         random_draws := 0 |}.
Proof.
  apply (apply_forgets_earlier_runs Scenario.ticking [] Scenario.clash); reflexivity.
Defined.

(** ** The fingerprint of a configuration *)

Lemma to_int32_range (z : Z) :
  (- 2147483648 <= AxisRulesEngine.to_int32 z < 2147483648)%Z.
Proof.
  unfold AxisRulesEngine.to_int32.
  pose proof (Z.mod_pos_bound (z + 2147483648) 4294967296 ltac:(lia)). lia.
Qed.

Lemma to_int32_mod (z : Z) :
  (AxisRulesEngine.to_int32 z mod 4294967296 = z mod 4294967296)%Z.
Proof.
  unfold AxisRulesEngine.to_int32.
  rewrite Zminus_mod_idemp_l. f_equal. lia.
Qed.

Lemma to_int32_congruent (a b : Z) :
  (a mod 4294967296 = b mod 4294967296)%Z ->
  AxisRulesEngine.to_int32 a = AxisRulesEngine.to_int32 b.
Proof.
  intros Hab. unfold AxisRulesEngine.to_int32. f_equal.
  rewrite <- (Zplus_mod_idemp_l a), <- (Zplus_mod_idemp_l b), Hab. reflexivity.
Qed.

Lemma to_int32_small (z : Z) :
  (- 2147483648 <= z < 2147483648)%Z -> AxisRulesEngine.to_int32 z = z.
Proof.
  intros Hz. unfold AxisRulesEngine.to_int32.
  rewrite Z.mod_small by lia. lia.
Qed.

Lemma hash_step_wraps (x : Z) (c : ascii) :
  AxisRulesEngine.hash_step (AxisRulesEngine.to_int32 x) c
  = AxisRulesEngine.to_int32 (31 * x + Z.of_nat (nat_of_ascii c)).
Proof.
  unfold AxisRulesEngine.hash_step. rewrite Z.land_diag.
  rewrite (to_int32_small (AxisRulesEngine.to_int32 x)) by apply to_int32_range.
  rewrite Z.shiftl_mul_pow2 by lia.
  apply to_int32_congruent.
  set (n := Z.of_nat (nat_of_ascii c)).
  rewrite <- Zplus_mod_idemp_l, <- Zminus_mod_idemp_l, to_int32_mod.
  rewrite Zminus_mod_idemp_l, Zplus_mod_idemp_l.
  rewrite <- Zplus_mod_idemp_l, <- Zminus_mod_idemp_r, <- Zminus_mod_idemp_l.
  rewrite <- (Zmult_mod_idemp_l (AxisRulesEngine.to_int32 x)), !to_int32_mod.
  rewrite Zmult_mod_idemp_l, Zminus_mod_idemp_l, Zminus_mod_idemp_r, Zplus_mod_idemp_l.
  f_equal. change (2 ^ 5)%Z with 32%Z. lia.
Qed.

Lemma hash_loop_wraps (str : string) :
  forall x, AxisRulesEngine.hash_loop str (AxisRulesEngine.to_int32 x)
            = AxisRulesEngine.to_int32 (base31 str x).
Proof.
  induction str as [| c str IH]; intros x; simpl; [reflexivity |].
  rewrite hash_step_wraps. apply IH.
Qed.

Lemma hex_digits_length (fuel : nat) :
  forall (n : Z) (acc : string) (k : nat),
    (0 <= n < 16 ^ Z.of_nat k)%Z -> 1 <= k ->
    String.length acc <= String.length (AxisRulesEngine.hex_digits fuel n acc)
    /\ String.length (AxisRulesEngine.hex_digits fuel n acc) <= String.length acc + k.
Proof.
  induction fuel as [| fuel IH]; intros n acc k Hn Hk; simpl; [lia |].
  destruct (Z.ltb_spec n 16) as [Hlt | Hge]; simpl; [lia |].
  destruct k as [| [| k]]; [lia | simpl in Hn; lia |].
  destruct (IH (n / 16)%Z (String (AxisRulesEngine.hex_digit (n mod 16)) acc) (S k))
    as [Hlo Hhi]; [| lia | simpl in *; lia].
  split; [apply Z.div_pos; lia |].
  apply Z.div_lt_upper_bound; [lia |].
  replace (Z.of_nat (S (S k))) with (1 + Z.of_nat (S k))%Z in Hn by lia.
  rewrite Z.pow_add_r in Hn by lia. exact (proj2 Hn).
Qed.

(** X16.  [simpleHash] is the polynomial hash in base 31 of the character
    codes, wrapped once to a signed 32-bit integer: wrapping in every turn
    of the loop gives the same number.  The result, its absolute value in
    hexadecimal, has between 1 and 8 digits. *)
Theorem simpleHash_is_base31 (str : string) :
  AxisRulesEngine.simpleHash str
  = AxisRulesEngine.toString16 (Z.abs (AxisRulesEngine.to_int32 (base31 str 0))) /\
  1 <= String.length (AxisRulesEngine.simpleHash str) <= 8.
Proof.
  assert (Hhash : AxisRulesEngine.hash_loop str 0
                  = AxisRulesEngine.to_int32 (base31 str 0))
    by exact (hash_loop_wraps str 0).
  unfold AxisRulesEngine.simpleHash. rewrite Hhash. split; [reflexivity |].
  pose proof (to_int32_range (base31 str 0)) as Hrange.
  unfold AxisRulesEngine.toString16.
  set (n := Z.abs (AxisRulesEngine.to_int32 (base31 str 0))) in *.
  destruct (hex_digits_length (Z.to_nat (Z.log2 n)) (n / 16)
              (String (AxisRulesEngine.hex_digit (n mod 16)) EmptyString) 7)
    as [Hlo Hhi]; [| lia |].
  { split; [apply Z.div_pos; lia |]. apply Z.div_lt_upper_bound; lia. }
  cbn [AxisRulesEngine.hex_digits].
  cbn [String.length] in Hlo, Hhi.
  destruct (Z.ltb n 16); [cbn [String.length] |]; lia.
Qed.

(** ** Validation *)

Section ValidationFacts.

Context (syntax_error : string -> option string).

Lemma validate_rule_clean (c : AxisRulesEngine.Clause) (index : nat)
    (ruleNames : gset string) :
  fst (AxisRulesEngine.validate_rule syntax_error c index ruleNames) = [] <->
  acceptable syntax_error c /\ name (AxisRulesEngine.rule_of c) ∉ ruleNames.
Proof.
  unfold AxisRulesEngine.validate_rule, acceptable. cbv zeta. cbn [fst].
  rewrite !app_nil.
  set (r := AxisRulesEngine.rule_of c).
  assert (Hnamed :
            forall missing duplicate : string,
              fst (if String.eqb (name r) "" then ([missing], ruleNames)
                   else if decide (name r ∈ ruleNames) then ([duplicate], ruleNames)
                   else ([], {[ name r ]} ∪ ruleNames)) = []
              <-> name r <> "" /\ name r ∉ ruleNames).
  { intros missing duplicate.
    destruct (String.eqb_spec (name r) "") as [Hname | Hname];
      [cbn [fst]; split; [discriminate | tauto] |].
    destruct (decide (name r ∈ ruleNames)); cbn [fst];
      split; try discriminate; tauto. }
  assert (Hranked :
            forall negative : string,
              match priority r with
              | Some p => if Z.ltb p 0 then [negative] else []
              | None => []
              end = []
              <-> match priority r with
                  | Some p => (0 <= p)%Z
                  | None => True
                  end).
  { intros negative. destruct (priority r) as [p |]; [| tauto].
    destruct (Z.ltb_spec p 0); split; try discriminate; try reflexivity; lia. }
  assert (Hcompiled :
            forall invalid : string -> string,
              (if AxisRulesEngine.falsy (cond r) then []
               else match syntax_error
                            ("return " +:+ AxisRulesEngine.condition_text (cond r)) with
                    | Some e => [invalid e]
                    | None => []
                    end) = []
              <-> (AxisRulesEngine.falsy (cond r) = false ->
                   syntax_error ("return " +:+ AxisRulesEngine.condition_text (cond r))
                   = None)).
  { intros invalid. destruct (AxisRulesEngine.falsy (cond r));
      [split; [discriminate | reflexivity] |].
    destruct (syntax_error _); split; try discriminate; try reflexivity.
    intros H. specialize (H eq_refl). discriminate. }
  assert (Hacting :
            forall idle : string,
              match then_ r, AxisRulesEngine.else_ c with
              | None, None => [idle]
              | _, _ => []
              end = []
              <-> (then_ r <> None \/ AxisRulesEngine.else_ c <> None)).
  { intros idle. destruct (then_ r), (AxisRulesEngine.else_ c);
      split; try discriminate; try reflexivity;
      try (intros _; left; discriminate); try (intros _; right; discriminate).
    intros [H | H]; congruence. }
  rewrite (Hnamed _ _), (Hranked _), (Hcompiled (fun e => _)), (Hacting _). tauto.
Qed.

Lemma validate_rule_names (c : AxisRulesEngine.Clause) (index : nat)
    (ruleNames : gset string) :
  fst (AxisRulesEngine.validate_rule syntax_error c index ruleNames) = [] ->
  snd (AxisRulesEngine.validate_rule syntax_error c index ruleNames)
  = {[ name (AxisRulesEngine.rule_of c) ]} ∪ ruleNames.
Proof.
  unfold AxisRulesEngine.validate_rule. cbv zeta.
  destruct (String.eqb (name (AxisRulesEngine.rule_of c)) ""); [discriminate |].
  destruct (decide (name (AxisRulesEngine.rule_of c) ∈ ruleNames)); [discriminate |].
  reflexivity.
Qed.

Lemma validate_rules_clean (l : list AxisRulesEngine.Clause) :
  forall (index : nat) (ruleNames : gset string),
    AxisRulesEngine.validate_rules syntax_error l index ruleNames = [] <->
    Forall (acceptable syntax_error) l /\ NoDup (names_of l) /\
    (forall x, x ∈ names_of l -> x ∉ ruleNames).
Proof.
  induction l as [| c l IH]; intros index ruleNames.
  - simpl. split; [intros _ | reflexivity].
    split; [constructor |]. split; [apply NoDup_nil_2 |].
    intros x Hx. inversion Hx.
  - cbn [AxisRulesEngine.validate_rules names_of map].
    fold (names_of l).
    split.
    + intros Hnil. apply app_eq_nil in Hnil as [Hc Hl].
      pose proof (validate_rule_names c index ruleNames Hc) as Hset.
      rewrite Hset in Hl.
      apply validate_rule_clean in Hc as [Hok Hfresh].
      apply IH in Hl as (Hall & Hnodup & Hout).
      split; [constructor; assumption |].
      split.
      * apply NoDup_cons. split; [| exact Hnodup].
        intros Hin. apply (Hout _ Hin), elem_of_union. left.
        apply elem_of_singleton. reflexivity.
      * intros x Hx. apply elem_of_cons in Hx as [-> | Hx]; [exact Hfresh |].
        intros Hin. apply (Hout x Hx), elem_of_union. right. exact Hin.
    + intros (Hall & Hnodup & Hout).
      inversion Hall as [| ? ? Hok Hrest]; subst.
      apply NoDup_cons in Hnodup as [Hnew Hnodup].
      assert (Hc : fst (AxisRulesEngine.validate_rule syntax_error c index ruleNames) = []).
      { apply validate_rule_clean. split; [exact Hok |]. apply Hout. left. }
      rewrite (validate_rule_names c index ruleNames Hc), Hc. cbn [app].
      apply IH. split; [exact Hrest |]. split; [exact Hnodup |].
      intros x Hx Hin. apply elem_of_union in Hin as [Hin | Hin].
      * apply elem_of_singleton in Hin. subst x. contradiction.
      * apply (Hout x); [right; exact Hx | exact Hin].
Qed.

End ValidationFacts.

(** X17.  [validate] returns no error exactly when every rule has a name,
    a priority that is not negative (if any), a condition that compiles
    (if any) and a [then] or an [else], and no two rules share a name; a
    configuration without a [rules] array is always reported. *)
Theorem validate_accepts (syntax_error : string -> option string)
    (l : list AxisRulesEngine.Clause) :
  (AxisRulesEngine.validate syntax_error (Some l) = [] <->
   Forall (acceptable syntax_error) l /\ NoDup (names_of l)) /\
  AxisRulesEngine.validate syntax_error None <> [].
Proof.
  split; [| discriminate].
  unfold AxisRulesEngine.validate. rewrite validate_rules_clean.
  split.
  - intros (Hall & Hnodup & _). split; assumption.
  - intros [Hall Hnodup]. split; [exact Hall |]. split; [exact Hnodup |].
    intros x _. apply not_elem_of_empty.
Qed.

(** The errors of one configuration, in the order they are pushed. *)
Lemma validate_accepts_example :
  AxisRulesEngine.validate MiniJS_syntax_error
    (Some [ {| AxisRulesEngine.rule_of := Scenario.double; AxisRulesEngine.else_ := None |};
            {| AxisRulesEngine.rule_of := Scenario.double; AxisRulesEngine.else_ := None |};
            {| AxisRulesEngine.rule_of :=
                 {| name := ""; priority := Some (-1)%Z; cond := CStr "a <"; then_ := None |};
               AxisRulesEngine.else_ := None |} ])
  = [ "Rule 1: Duplicate rule name " +:+ AxisRulesEngine.quoted "double";
      "Rule 2: Missing name";
      "Rule 2 (): Priority must be a non-negative number";
      "Rule 2 (): Invalid condition syntax - SyntaxError";
      "Rule 2 (): Must have 'then' or 'else' clause" ].
Proof. vm_compute. reflexivity. Qed.

(** ** The rule pass of the axis-cli engine *)

Section SPCFacts.

Context (h : Host).

Lemma resolveTemplate_returns (template : value) (context : obj) (m : Machine) :
  exists v, SPCEngine.resolveTemplate h template context m = (Ret v, m).
Proof.
  unfold SPCEngine.resolveTemplate.
  destruct template; try (eexists; reflexivity).
  destruct (JsString.match_whole_template s); [| eexists; reflexivity].
  unfold try_catch, AxisRulesEngine.call_function.
  destruct (call_new_Function h _ _ _); eexists; reflexivity.
Qed.

Lemma SPC_evaluateCondition_returns (c : condition) (context : obj) (m : Machine) :
  exists b, SPCEngine.evaluateCondition h c context m = (Ret b, m).
Proof.
  unfold SPCEngine.evaluateCondition.
  destruct (AxisRulesEngine.falsy c); [eexists; reflexivity |].
  unfold try_catch, bind, AxisRulesEngine.call_function.
  destruct (call_new_Function h _ _ _); eexists; reflexivity.
Qed.

Lemma obj_keys_set_incl (k : string) (v : value) (o : obj) (x : string) :
  In x (obj_keys (obj_set k v o)) -> x = k \/ In x (obj_keys o).
Proof.
  induction o as [| [k' y] o IH]; simpl.
  - intros [<- | []]. left. reflexivity.
  - destruct (String.eqb_spec k k') as [-> | Hne]; simpl.
    + intros [<- | Hin]; auto.
    + intros [<- | Hin]; auto. destruct (IH Hin); auto.
Qed.

Lemma assign_entries_run (entries : list (string * value)) :
  forall (ctx : obj) (m : Machine),
  exists ctx',
    SPCEngine.assign_entries h entries ctx m = (Ret ctx', m) /\
    (forall k, ~ In k (map fst entries) -> obj_get k ctx' = obj_get k ctx) /\
    (forall k, In k (obj_keys ctx') -> In k (obj_keys ctx) \/ In k (map fst entries)).
Proof.
  induction entries as [| [key expr] entries IH]; intros ctx m.
  - exists ctx. split; [reflexivity |]. split; auto.
  - cbn [SPCEngine.assign_entries]. unfold bind.
    destruct (resolveTemplate_returns expr ctx m) as [v ->].
    destruct (IH (obj_set key v ctx) m) as (ctx' & Hrun & Hframe & Hkeys).
    exists ctx'. split; [exact Hrun |]. split.
    + intros k Hnot. cbn [map fst] in Hnot.
      rewrite Hframe by (intros Hin; apply Hnot; right; exact Hin).
      apply obj_get_set_ne. intros ->. apply Hnot. left. reflexivity.
    + intros k Hin. cbn [map fst].
      destruct (Hkeys k Hin) as [Hset | Hrest]; [| right; right; exact Hrest].
      destruct (obj_keys_set_incl key v ctx k Hset) as [-> | Hold];
        [right; left; reflexivity | left; exact Hold].
Qed.

Lemma each_rule_run (todo : list Rule) :
  forall (ctx : obj) (m : Machine),
  exists ctx',
    SPCEngine.each_rule h todo ctx m = (Ret ctx', m) /\
    (forall k, ~ In k (written_paths todo) -> obj_get k ctx' = obj_get k ctx) /\
    (forall k, In k (obj_keys ctx') -> In k (obj_keys ctx) \/ In k (written_paths todo)).
Proof.
  induction todo as [| rule todo IH]; intros ctx m.
  - exists ctx. split; [reflexivity |]. split; auto.
  - cbn [SPCEngine.each_rule]. unfold bind at 1.
    destruct (SPC_evaluateCondition_returns (cond rule) ctx m) as [fires ->].
    assert (Hskip :
              exists ctx',
                SPCEngine.each_rule h todo ctx m = (Ret ctx', m) /\
                (forall k, ~ In k (written_paths (rule :: todo)) ->
                           obj_get k ctx' = obj_get k ctx) /\
                (forall k, In k (obj_keys ctx') ->
                           In k (obj_keys ctx) \/ In k (written_paths (rule :: todo)))).
    { destruct (IH ctx m) as (ctx' & Hrun & Hframe & Hkeys).
      exists ctx'. split; [exact Hrun |].
      unfold written_paths in *. cbn [flat_map]. split.
      - intros k Hnot. apply Hframe. intros Hin. apply Hnot, in_or_app. right. exact Hin.
      - intros k Hin. destruct (Hkeys k Hin) as [Hold | Hnew]; [left; exact Hold |].
        right. apply in_or_app. right. exact Hnew. }
    destruct fires; [| exact Hskip].
    destruct (then_ rule) as [t |] eqn:Hthen; [| exact Hskip].
    unfold bind.
    destruct (assign_entries_run t ctx m) as (ctx1 & -> & Hframe1 & Hkeys1).
    destruct (IH ctx1 m) as (ctx' & Hrun & Hframe & Hkeys).
    exists ctx'. split; [exact Hrun |].
    assert (Hpaths : map fst (rule_writes rule) = map fst t).
    { unfold rule_writes. rewrite Hthen. unfold writes_of. rewrite List.map_map.
      reflexivity. }
    unfold written_paths in *. cbn [flat_map]. rewrite Hpaths. split.
    + intros k Hnot. rewrite Hframe, Hframe1; [reflexivity | |];
        intros Hin; apply Hnot, in_or_app; [left | right]; exact Hin.
    + intros k Hin. destruct (Hkeys k Hin) as [Hmid | Hnew].
      * destruct (Hkeys1 k Hmid) as [Hold | Hnow]; [left; exact Hold |].
        right. apply in_or_app. left. exact Hnow.
      * right. apply in_or_app. right. exact Hnew.
Qed.

End SPCFacts.

(** X18.  When [applyRules] of the axis-cli engine returns, it has
    logged nothing, and it has assigned to top-level keys only, a dotted
    key being a key like any other: a key that is no key of a [then] keeps
    the value of the copy of the data, and every key of the result is a
    key of that copy or a key of a [then].  No key of a [then] is
    [__proto__], and the expressions, which are handed the context as
    [data], are evaluated by the host, which changes none of the objects
    it is given. *)
Theorem applyRules_touches_only_then_keys (h : Host) (data : obj) (rules : list Rule)
    (m : Machine) (ctx : obj) (m' : Machine) :
  ~ In "__proto__" (written_paths rules) ->
  SPCEngine.applyRules h data rules m = (Ret ctx, m') ->
  m' = m /\
  (forall k, ~ In k (written_paths rules) ->
     obj_get k ctx = obj_get k (JSON_parse (JSON_stringify data))) /\
  (forall k, In k (obj_keys ctx) ->
     In k (obj_keys (JSON_parse (JSON_stringify data))) \/ In k (written_paths rules)).
Proof.
  intros _ Hrun.
  destruct (each_rule_run h rules (JSON_parse (JSON_stringify data)) m)
    as (ctx' & Hrun' & Hframe & Hkeys).
  unfold SPCEngine.applyRules in Hrun. rewrite Hrun in Hrun'.
  injection Hrun' as -> ->. split; [reflexivity |]. split; assumption.
Qed.

(** The doubling rule, applied once to [{ a: 1, b: 5 }]. *)
Lemma applyRules_touches_only_then_keys_witness :
  ~ In "__proto__" (written_paths [Scenario.double]) /\
  SPCEngine.applyRules Scenario.still [("a", VNum 1); ("b", VNum 5)]
    [Scenario.double] fresh
  = (Ret [("a", VNum 2); ("b", VNum 5)], fresh) /\
  obj_get "b" [("a", VNum 2); ("b", VNum 5)]
  = obj_get "b" (JSON_parse (JSON_stringify [("a", VNum 1); ("b", VNum 5)])).
Proof.
  assert (Hplain : ~ In "__proto__" (written_paths [Scenario.double]))
    by (simpl; intros [H | []]; discriminate).
  assert (Hrun : SPCEngine.applyRules Scenario.still [("a", VNum 1); ("b", VNum 5)]
                   [Scenario.double] fresh
                 = (Ret [("a", VNum 2); ("b", VNum 5)], fresh))
    by (vm_compute; reflexivity).
  split; [exact Hplain |]. split; [exact Hrun |].
  destruct (applyRules_touches_only_then_keys Scenario.still
              [("a", VNum 1); ("b", VNum 5)] [Scenario.double] fresh _ _ Hplain Hrun)
    as (_ & Hothers & _).
  apply Hothers. simpl. intros [H | []]. discriminate.
Defined.

(** X19.  For a threshold that bounds the reading from above only, and
    whose [warnAbove] is not above its [critical], the status of
    [evaluateThreshold] never gets milder as the reading grows. *)
Theorem severity_grows_with_the_reading (t : SPCEngine.Threshold) (v v' : Z) :
  upper_bounds_only t ->
  (v <= v')%Z ->
  severity (SPCEngine.evaluateThreshold v t) <= severity (SPCEngine.evaluateThreshold v' t).
Proof.
  intros (Hbelow & HwarnBelow & Horder) Hle.
  unfold SPCEngine.evaluateThreshold. rewrite Hbelow, HwarnBelow.
  cbn [SPCEngine.falls_to]. unfold SPCEngine.reaches.
  destruct (SPCEngine.above t) as [a |], (SPCEngine.warnAbove t) as [w |],
    (SPCEngine.critical t) as [c |], (SPCEngine.warning t) as [n |];
    try specialize (Horder _ _ eq_refl eq_refl);
    repeat match goal with
           | |- context [Z.leb ?x ?y] => destruct (Z.leb_spec x y)
           end;
    cbv [severity]; simpl; lia.
Qed.

Lemma severity_grows_with_the_reading_witness :
  severity (SPCEngine.evaluateThreshold 70
              {| SPCEngine.above := None; SPCEngine.below := None;
                 SPCEngine.warnAbove := None; SPCEngine.warnBelow := None;
                 SPCEngine.critical := Some 90%Z; SPCEngine.warning := Some 75%Z |})
  <= severity (SPCEngine.evaluateThreshold 80
                 {| SPCEngine.above := None; SPCEngine.below := None;
                    SPCEngine.warnAbove := None; SPCEngine.warnBelow := None;
                    SPCEngine.critical := Some 90%Z; SPCEngine.warning := Some 75%Z |}).
Proof.
  apply severity_grows_with_the_reading; [| lia].
  split; [reflexivity |]. split; [reflexivity |]. discriminate.
Defined.

(** X20.  [warnAbove] is tested before [critical]: with no [above] and no
    [below], a threshold whose [warnAbove] is at most its [critical] never
    reports [critical], however large the reading. *)
Theorem warnAbove_masks_critical (t : SPCEngine.Threshold) (w c v : Z) :
  SPCEngine.above t = None ->
  SPCEngine.below t = None ->
  SPCEngine.warnAbove t = Some w ->
  SPCEngine.critical t = Some c ->
  (w <= c)%Z ->
  SPCEngine.evaluateThreshold v t <> "critical".
Proof.
  intros Habove Hbelow Hwarn Hcritical Hle.
  unfold SPCEngine.evaluateThreshold. rewrite Habove, Hbelow, Hwarn, Hcritical.
  cbn [SPCEngine.reaches SPCEngine.falls_to].
  destruct (Z.leb_spec w v); [discriminate |].
  destruct (SPCEngine.falls_to v (SPCEngine.warnBelow t)); [discriminate |].
  destruct (Z.leb_spec c v); [lia |].
  destruct (SPCEngine.reaches v (SPCEngine.warning t)); discriminate.
Qed.

Lemma warnAbove_masks_critical_witness :
  SPCEngine.evaluateThreshold 1000
    {| SPCEngine.above := None; SPCEngine.below := None;
       SPCEngine.warnAbove := Some 80%Z; SPCEngine.warnBelow := None;
       SPCEngine.critical := Some 95%Z; SPCEngine.warning := None |}
  <> "critical".
Proof.
  apply (warnAbove_masks_critical _ 80 95 1000); try reflexivity. lia.
Defined.

